(** * pulp-docs: navigation assembly over a set of repositories

    A shallow embedding of [pulp_docs/repository.py] (the [Repo] and [Repos]
    dataclasses, [Repos.all], [Repos.from_yaml]) and of
    [pulp_docs/navigation.py] ([AgregationUtils] and the persona-grouped
    builder), followed by the properties of the navigation tree that the
    specification states about them.

    Conventions of the embedding.
    - A Python [str] is a [string]; file and repository names are taken to be
      ASCII, [str.lower] maps [A-Z] to [a-z] and leaves every other character.
    - A call that may raise returns a [result]: [Ok v], [Raise e], or
      [Unmodelled] when [str.format] meets replacement-field syntax outside
      the fragment embedded here (conversions, format specs, attribute and
      index lookups, positional fields).
    - A Python [dict] whose iteration order is observable is an association
      list in insertion order; assigning to a present key keeps its place.
    - The file system is read through one function, [scandir], giving the
      entry names of a directory, or [None] when the path is not a directory;
      paths follow [pathlib.PurePosixPath]. *)

From Stdlib Require Import String Ascii List Bool Arith NArith Lia Permutation Sorted.
Import ListNotations.
Local Open Scope string_scope.
Local Open Scope list_scope.

Set Implicit Arguments.
Set Warnings "-notation-for-abbreviation,-register-all".

(* ================================================================== *)
(** * Python values, exceptions and the error monad *)

Module Py.

Inductive exn : Type :=
| KeyError (key : string)
| IndexError
| AttributeError (attr : string)
| TypeError
| ValueError.

Inductive result (A : Type) : Type :=
| Ok (a : A)
| Raise (e : exn)
| Unmodelled.

Arguments Ok {A} a.
Arguments Raise {A} e.
Arguments Unmodelled {A}.

Definition bind {A B : Type} (m : result A) (k : A -> result B) : result B :=
  match m with
  | Ok a => k a
  | Raise e => Raise e
  | Unmodelled => Unmodelled
  end.

Definition is_ok {A : Type} (m : result A) : bool :=
  match m with Ok _ => true | _ => false end.

(** A [for] loop threading its state, stopping at the first exception. *)
Fixpoint foldM {A S : Type} (step : S -> A -> result S) (l : list A) (s : S)
  : result S :=
  match l with
  | [] => Ok s
  | x :: rest => bind (step s x) (foldM step rest)
  end.

(** A list comprehension whose element expression may raise. *)
Fixpoint mapM {A B : Type} (f : A -> result B) (l : list A) : result (list B) :=
  match l with
  | [] => Ok []
  | x :: rest =>
      bind (f x) (fun y => bind (mapM f rest) (fun ys => Ok (y :: ys)))
  end.

(** ** [str] methods *)

Definition lower_ascii (c : ascii) : ascii :=
  let n := nat_of_ascii c in
  if ((65 <=? n) && (n <=? 90))%nat then ascii_of_nat (n + 32) else c.

(** [s.lower()] *)
Fixpoint lower (s : string) : string :=
  match s with
  | EmptyString => EmptyString
  | String c r => String (lower_ascii c) (lower r)
  end.

(** [s.startswith(p)] *)
Fixpoint startswith (p s : string) : bool :=
  match p with
  | EmptyString => true
  | String a p' =>
      match s with
      | EmptyString => false
      | String b s' => Ascii.eqb a b && startswith p' s'
      end
  end.

(** [s.endswith(p)] *)
Definition endswith (p s : string) : bool :=
  (String.length p <=? String.length s)%nat
  && (String.substring (String.length s - String.length p) (String.length p) s
      =? p)%string.

(** [sub in s] *)
Fixpoint contains (sub s : string) : bool :=
  startswith sub s
  || match s with
     | EmptyString => false
     | String _ r => contains sub r
     end.

(** [s.split(sep)] for a one-character separator: never the empty list. *)
Fixpoint split (sep : ascii) (s : string) : list string :=
  match s with
  | EmptyString => [EmptyString]
  | String c r =>
      if Ascii.eqb c sep then EmptyString :: split sep r
      else match split sep r with
           | h :: t => String c h :: t
           | [] => [String c EmptyString]
           end
  end.

(** [sep.join(l)] *)
Definition join (sep : string) (l : list string) : string := String.concat sep l.

(** Truth value of an optional string: [None] and [""] are false. *)
Definition truthy (o : option string) : bool :=
  match o with
  | Some s => negb (s =? "")%string
  | None => false
  end.

(** ** [dict] in insertion order *)

Definition dict (V : Type) : Type := list (string * V).

Fixpoint dict_get {V : Type} (k : string) (d : dict V) : option V :=
  match d with
  | [] => None
  | (k', v) :: rest => if (k' =? k)%string then Some v else dict_get k rest
  end.

(** [d[k] = v] *)
Fixpoint dict_set {V : Type} (k : string) (v : V) (d : dict V) : dict V :=
  match d with
  | [] => [(k, v)]
  | (k', v') :: rest =>
      if (k' =? k)%string then (k, v) :: rest else (k', v') :: dict_set k v rest
  end.

Definition dict_keys {V : Type} (d : dict V) : list string := map fst d.

(** [d[k]], raising [KeyError] on a missing key. *)
Definition dict_item {V : Type} (k : string) (d : dict V) : result V :=
  match dict_get k d with
  | Some v => Ok v
  | None => Raise (KeyError k)
  end.

(** ** [list.remove] and [sorted] *)

(** [l.remove(x)]: drops the first element equal to [x]; [ValueError] when
    there is none. *)
Fixpoint list_remove (x : string) (l : list string) : result (list string) :=
  match l with
  | [] => Raise ValueError
  | y :: rest =>
      if (y =? x)%string then Ok rest
      else bind (list_remove x rest) (fun rest' => Ok (y :: rest'))
  end.

Fixpoint insert_sorted (x : string) (l : list string) : list string :=
  match l with
  | [] => [x]
  | y :: rest => if String.leb x y then x :: l else y :: insert_sorted x rest
  end.

(** [sorted(l)] on strings: ascending in the character-wise order. *)
Fixpoint sorted (l : list string) : list string :=
  match l with
  | [] => []
  | x :: rest => insert_sorted x (sorted rest)
  end.

(** ** [str.format] with keyword arguments

    The fragment embedded: literal text, the escapes [{{] and [}}], and
    replacement fields [{name}] holding a bare keyword. *)

Definition is_digit (c : ascii) : bool :=
  let n := nat_of_ascii c in ((48 <=? n) && (n <=? 57))%nat.

Definition field_syntax (c : ascii) : bool :=
  Ascii.eqb c "!" || Ascii.eqb c ":" || Ascii.eqb c "." || Ascii.eqb c "["
  || Ascii.eqb c "{".

Definition format_field (kwargs : dict string) (name : string) : result string :=
  match name with
  | EmptyString => Raise IndexError
  | String c _ => if is_digit c then Unmodelled else dict_item name kwargs
  end.

Fixpoint format_in (kwargs : dict string) (template : string)
    (field : option string) : result string :=
  match template with
  | EmptyString =>
      match field with
      | None => Ok EmptyString
      | Some _ => Raise ValueError
      end
  | String c r =>
      match field with
      | Some name =>
          if Ascii.eqb c "}" then
            bind (format_field kwargs name) (fun v =>
            bind (format_in kwargs r None) (fun out => Ok (v ++ out)%string))
          else if field_syntax c then Unmodelled
          else format_in kwargs r (Some (name ++ String c EmptyString)%string)
      | None =>
          if Ascii.eqb c "{" then
            match r with
            | String c' r' =>
                if Ascii.eqb c' "{" then
                  bind (format_in kwargs r' None) (fun out => Ok (String c out))
                else format_in kwargs r (Some EmptyString)
            | EmptyString => Raise ValueError
            end
          else if Ascii.eqb c "}" then
            match r with
            | String c' r' =>
                if Ascii.eqb c' "}" then
                  bind (format_in kwargs r' None) (fun out => Ok (String c out))
                else Raise ValueError
            | EmptyString => Raise ValueError
            end
          else bind (format_in kwargs r None) (fun out => Ok (String c out))
      end
  end.

(** [template.format(k1=v1, ...)] with the keyword arguments as [kwargs]. *)
Definition format (template : string) (kwargs : dict string) : result string :=
  format_in kwargs template None.

End Py.

Export Py.

Declare Scope py_scope.
Notation "x <- m ;; k" := (bind m (fun x => k))
  (at level 61, m at next level, right associativity) : py_scope.
Local Open Scope py_scope.

(* ================================================================== *)
(** * [pathlib.PurePosixPath] and the directory listing *)

Module PurePath.

(** A pure path: its root ([""], ["/"] or ["//"]) and its components. *)
Record Path : Type := mkPath { root : string; parts : list string }.

Definition eqb (p q : Path) : bool :=
  (root p =? root q)%string
  && (if list_eq_dec string_dec (parts p) (parts q) then true else false).

(** Components kept when a string is parsed: empty ones and ["."] go. *)
Definition component (s : string) : bool :=
  negb (s =? "")%string && negb (s =? ".")%string.

(** Exactly two leading slashes are kept, three or more collapse to one. *)
Definition parse_root (s : string) : string :=
  if startswith "///" s then "/"
  else if startswith "//" s then "//"
  else if startswith "/" s then "/"
  else "".

(** [PurePosixPath(s)] *)
Definition of_str (s : string) : Path :=
  mkPath (parse_root s) (filter component (split "/" s)).

(** [p / q]: a rooted right operand replaces the left one. *)
Definition joinpath (p q : Path) : Path :=
  if (root q =? "")%string then mkPath (root p) (parts p ++ parts q) else q.

(** [str(p)] *)
Definition str (p : Path) : string :=
  match root p, parts p with
  | EmptyString, [] => "."
  | r, ps => (r ++ join "/" ps)%string
  end.

(** [p.name] *)
Definition name (p : Path) : string := last (parts p) "".

Fixpoint strip_prefix (pre l : list string) : option (list string) :=
  match pre, l with
  | [], _ => Some l
  | x :: pre', y :: l' => if (x =? y)%string then strip_prefix pre' l' else None
  | _ :: _, [] => None
  end.

(** [p.relative_to(other)]: [ValueError] unless [other] is an ancestor. *)
Definition relative_to (p other : Path) : result Path :=
  if (root p =? root other)%string then
    match strip_prefix (parts other) (parts p) with
    | Some rest => Ok (mkPath "" rest)
    | None => Raise ValueError
    end
  else Raise ValueError.

(** The file system as the navigation code reads it: the entry names of a
    directory, [None] for a path that is not a directory. *)
Definition FileSystem : Type := Path -> option (list string).

(** [p.glob("*.md")]: the entries of [p] whose name ends in [.md] (matching is
    case-sensitive on POSIX and takes dot-files too), each as a child path;
    nothing when [p] is not a directory. *)
Definition glob_md (scandir : FileSystem) (p : Path) : list Path :=
  match scandir p with
  | None => []
  | Some names =>
      map (fun n => mkPath (root p) (parts p ++ [n]))
          (filter (endswith ".md") names)
  end.

End PurePath.

Notation Path := PurePath.Path.
Notation FileSystem := PurePath.FileSystem.

(* ================================================================== *)
(** * repository.py *)

Module Repository.

(** The [Repo] dataclass. Its [status] record is download bookkeeping that
    navigation never reads and is left out. *)
Record Repo : Type := mkRepo {
  title : string;
  name : string;
  owner : string;
  branch : string;
  local_basepath : option string;
  type : option string
}.

(** The [Repos] dataclass. *)
Record Repos : Type := mkRepos {
  core_repo : Repo;
  content_repos : list Repo;
  other_repos : list Repo
}.

(** [Repos.all] *)
Definition all (self : Repos) : list Repo :=
  [core_repo self] ++ content_repos self ++ other_repos self.

(** What [yaml.load] hands to [from_yaml]: strings, null, sequences and
    mappings with string keys (a loaded mapping has distinct keys). *)
Inductive yaml : Type :=
| YNone
| YStr (s : string)
| YSeq (l : list yaml)
| YMap (m : dict yaml).

(** [y[k]] for a string key. *)
Definition yaml_item (k : string) (y : yaml) : result yaml :=
  match y with
  | YMap m => dict_item k m
  | _ => Raise TypeError
  end.

(** [y[0]] *)
Definition yaml_first (y : yaml) : result yaml :=
  match y with
  | YSeq [] => Raise IndexError
  | YSeq (x :: _) => Ok x
  | YStr EmptyString => Raise IndexError
  | YStr (String c _) => Ok (YStr (String c EmptyString))
  | YMap _ => Raise (KeyError "0")
  | YNone => Raise TypeError
  end.

(** [for x in y] *)
Definition yaml_iter (y : yaml) : result (list yaml) :=
  match y with
  | YSeq l => Ok l
  | YMap m => Ok (map (fun kv => YStr (fst kv)) m)
  | YStr s => Ok (map (fun c => YStr (String c EmptyString)) (list_ascii_of_string s))
  | YNone => Raise TypeError
  end.

Definition Repo_fields : list string :=
  ["title"; "name"; "owner"; "branch"; "local_basepath"; "status"; "type"].

(** A field value that the embedding types as a string. *)
Definition as_str (y : yaml) : result string :=
  match y with
  | YStr s => Ok s
  | _ => Unmodelled
  end.

Definition as_optional_str (y : yaml) : result (option string) :=
  match y with
  | YStr s => Ok (Some s)
  | YNone => Ok None
  | _ => Unmodelled
  end.

(** A keyword with a default. *)
Definition keyword_or {A : Type} (k : string) (m : dict yaml)
    (conv : yaml -> result A) (default : A) : result A :=
  match dict_get k m with
  | Some y => conv y
  | None => Ok default
  end.

(** A required keyword: the generated [__init__] raises [TypeError]. *)
Definition keyword {A : Type} (k : string) (m : dict yaml)
    (conv : yaml -> result A) : result A :=
  match dict_get k m with
  | Some y => conv y
  | None => Raise TypeError
  end.

(** [Repo(title=..., name=..., type=ty)] with the keywords of [entry] unpacked. *)
Definition new_Repo (entry : yaml) (ty : string) : result Repo :=
  match entry with
  | YMap m =>
      if existsb (String.eqb "type") (dict_keys m) then Raise TypeError
      else if negb (forallb (fun k => existsb (String.eqb k) Repo_fields)
                            (dict_keys m))
      then Raise TypeError
      else
        t <- keyword "title" m as_str ;;
        n <- keyword "name" m as_str ;;
        o <- keyword_or "owner" m as_str "pulp" ;;
        b <- keyword_or "branch" m as_str "main" ;;
        l <- keyword_or "local_basepath" m as_optional_str None ;;
        Ok (mkRepo t n o b l (Some ty))
  | _ => Raise TypeError
  end.

(** [Repos.from_yaml], from the point where the file has been looked up:
    [None] when it does not exist, otherwise the loaded document. *)
Definition from_yaml (file : option yaml) : result Repos :=
  match file with
  | None => Raise ValueError
  | Some data =>
      repos <- yaml_item "repos" data ;;
      core_list <- yaml_item "core" repos ;;
      core_entry <- yaml_first core_list ;;
      core <- new_Repo core_entry "core" ;;
      content_list <- yaml_item "content" repos ;;
      content_entries <- yaml_iter content_list ;;
      content <- mapM (fun e => new_Repo e "content") content_entries ;;
      other_list <- yaml_item "other" repos ;;
      other_entries <- yaml_iter other_list ;;
      other <- mapM (fun e => new_Repo e "other") other_entries ;;
      Ok (mkRepos core content other)
  end.

(** What [getattr] finds on a [Repos] instance. *)
Inductive attribute : Type :=
| AttrRepo (r : Repo)
| AttrRepoList (l : list Repo)
| AttrMethod.

(** [getattr(self, attr)]: the three fields, the [all] property and the
    methods of the class. The names every object inherits begin and end with
    two underscores and are not listed. *)
Definition getattr (self : Repos) (attr : string) : result attribute :=
  if (attr =? "core_repo")%string then Ok (AttrRepo (core_repo self))
  else if (attr =? "content_repos")%string then Ok (AttrRepoList (content_repos self))
  else if (attr =? "other_repos")%string then Ok (AttrRepoList (other_repos self))
  else if (attr =? "all")%string then Ok (AttrRepoList (all self))
  else if (attr =? "update_local_checkouts")%string
          || (attr =? "from_yaml")%string
          || (attr =? "test_fixtures")%string
  then Ok AttrMethod
  else if startswith "__" attr && endswith "__" attr then Unmodelled
  else Raise (AttributeError attr).

End Repository.

Export Repository.

(* ================================================================== *)
(** * navigation.py *)

Module Navigation.

Definition ADMIN_NAME : string := "admin".
Definition USER_NAME : string := "user".

Definition DISPLAY_NAMES : dict string :=
  [("guides", "How-to"); ("learn", "Learn"); ("tutorials", "Tutorials");
   ("reference", "Reference")].

(** The value handed to mkdocs: a path, a list of entries, or a mapping from
    titles to entries. *)
Inductive nav : Type :=
| NStr (s : string)
| NList (l : list nav)
| NDict (d : dict nav).

(** A list of paths as a navigation value. *)
Definition files (l : list string) : nav := NList (map NStr l).

(** The instance state of [AgregationUtils]. *)
Record AgregationUtils : Type := mkUtils { tmpdir : Path; repos : Repos }.

(** The [path] argument of [get_children]: a [str] or a [Path]. *)
Inductive path_arg : Type :=
| AsStr (s : string)
| AsPath (p : Path).

(** [AgregationUtils._pop_quickstart_from]: the file name test. *)
Definition is_quickstart (path : string) : bool :=
  let filename := last (split "/" path) "" in
  (lower filename =? "quickstart.md")%string
  || (lower filename =? "quick-start.md")%string.

(** [AgregationUtils._pop_quickstart_from]: returns the path found together
    with the list as the call leaves it (the caller's list is mutated). *)
Definition _pop_quickstart_from (pathlist : list string)
  : result (option string * list string) :=
  match find is_quickstart pathlist with
  | Some path =>
      rest <- list_remove path pathlist ;;
      Ok (Some path, rest)
  | None => Ok (None, pathlist)
  end.

(** [AgregationUtils.section_file] *)
Definition section_file (self : AgregationUtils) (section_and_filename : string)
  : string :=
  let basepath := "pulpcore/docs/sections" in
  (basepath ++ "/" ++ section_and_filename)%string.

(** [list.extend] of the selected repositories with a looked-up attribute. *)
Definition extend (selected : list Repo) (a : attribute) : result (list Repo) :=
  match a with
  | AttrRepoList l => Ok (selected ++ l)
  | AttrRepo _ => Raise TypeError
  | AttrMethod => Raise TypeError
  end.

(** [repo_grouping], line 258: one entry of [repo_types]. *)
Definition select_step (rs : Repos) (selected : list Repo) (repo_name : string)
  : result (list Repo) :=
  a <- getattr rs (repo_name ++ "_repos")%string ;;
  extend selected a.

(** [repo_grouping], lines 251-258: the repositories chosen by [repo_types]. *)
Definition select_repos (self : AgregationUtils)
    (repo_types : option (list string)) : result (list Repo) :=
  match repo_types with
  | None | Some [] => Ok (all (repos self))
  | Some types => foldM (select_step (repos self)) types []
  end.

Definition select_content (content_types : option (list string)) : list string :=
  match content_types with
  | None | Some [] => ["tutorials"; "guides"; "learn"]
  | Some types => types
  end.

(** [repo_grouping], lines 282-290: what is stored for one content type,
    given the files discovered for it. *)
Definition store_content_type (inner : dict nav) (content_type : string)
    (discovered : list string) : result (dict nav) :=
  popped <- _pop_quickstart_from discovered ;;
  let quickstart_file := fst popped in
  let _repo_content := snd popped in
  let inner :=
    match quickstart_file with
    | Some q =>
        if (lower content_type =? "tutorials")%string && truthy quickstart_file
        then dict_set "Quickstart" (NStr q) inner
        else inner
    | None => inner
    end in
  match _repo_content with
  | [] => Ok inner
  | _ :: _ =>
      content_type_name <- dict_item content_type DISPLAY_NAMES ;;
      Ok (dict_set content_type_name (files _repo_content) inner)
  end.

Section WithFileSystem.

Variable scandir : FileSystem.

(** [AgregationUtils.get_children] *)
Definition get_children (self : AgregationUtils) (path : path_arg)
  : result (list string) :=
  let _path :=
    match path with
    | AsStr s => PurePath.joinpath (tmpdir self) (PurePath.of_str s)
    | AsPath p => p
    end in
  result <- mapM (fun file =>
                    rel <- PurePath.relative_to file (tmpdir self) ;;
                    Ok (PurePath.str rel))
                 (filter (fun file => negb (startswith "_" (PurePath.name file)))
                         (PurePath.glob_md scandir _path)) ;;
  Ok (sorted result).

(** [AgregationUtils.section_children] *)
Definition section_children (self : AgregationUtils) (section_name : string)
  : result (list string) :=
  let basepath := "pulpcore/docs/sections" in
  get_children self (AsStr (basepath ++ "/" ++ section_name)%string).

(** [repo_grouping], lines 262-268: one repository without content-type
    expansion. *)
Definition group_repo (self : AgregationUtils) (template_str : string)
    (_nav : dict nav) (repo : Repo) : result (dict nav) :=
  formatted <- format template_str
                 [("repo", name repo); ("admin", ADMIN_NAME); ("user", USER_NAME)] ;;
  let lookup_path := PurePath.joinpath (tmpdir self) (PurePath.of_str formatted) in
  _repo_content <- get_children self (AsPath lookup_path) ;;
  match _repo_content with
  | [] => Ok _nav
  | _ :: _ => Ok (dict_set (title repo) (files _repo_content) _nav)
  end.

(** [repo_grouping], lines 274-280: the files discovered for one repository
    and one content type. *)
Definition discover (self : AgregationUtils) (template_str : string)
    (repo : Repo) (content_type : string) : result (list string) :=
  formatted <- format template_str
                 [("repo", name repo); ("admin", ADMIN_NAME); ("user", USER_NAME);
                  ("content", content_type)] ;;
  let lookup_path := PurePath.joinpath (tmpdir self) (PurePath.of_str formatted) in
  get_children self (AsPath lookup_path).

(** [repo_grouping], lines 273-290: one content type of one repository,
    acting on the mapping stored under the repository's title. *)
Definition group_content_type (self : AgregationUtils) (template_str : string)
    (repo : Repo) (inner : dict nav) (content_type : string)
  : result (dict nav) :=
  discovered <- discover self template_str repo content_type ;;
  store_content_type inner content_type discovered.

(** [repo_grouping], lines 271-290: one repository with content-type
    expansion. The mapping is created empty under the title and then filled
    through that binding. *)
Definition group_repo_expanded (self : AgregationUtils) (template_str : string)
    (selected_content : list string) (_nav : dict nav) (repo : Repo)
  : result (dict nav) :=
  let _nav := dict_set (title repo) (NDict []) _nav in
  inner <- foldM (group_content_type self template_str repo) selected_content [] ;;
  Ok (dict_set (title repo) (NDict inner) _nav).

(** [AgregationUtils.repo_grouping] *)
Definition repo_grouping (self : AgregationUtils) (template_str : string)
    (repo_types content_types : option (list string)) : result (dict nav) :=
  let _expand_content_types := contains "{content}" template_str in
  let selected_content := select_content content_types in
  selected_repos <- select_repos self repo_types ;;
  if negb _expand_content_types then
    foldM (group_repo self template_str) selected_repos []
  else
    foldM (group_repo_expanded self template_str selected_content)
          selected_repos [].

(** The four entries [repo_reference_grouping] builds for one repository. *)
Definition reference_section (repo : Repo) (_repo_content : list string) : nav :=
  NList [NDict [("REST API", NStr (name repo ++ "/docs/rest_api.md")%string)];
         NDict [("Readme", NStr (name repo ++ "/README.md")%string)];
         NDict [("Code API", files _repo_content)];
         NDict [("Changelog", NStr (name repo ++ "/CHANGELOG.md")%string)]].

(** [AgregationUtils.repo_reference_grouping] *)
Definition repo_reference_grouping (self : AgregationUtils) : result (dict nav) :=
  let template_str := "{repo}/docs/reference" in
  foldM (fun _nav repo =>
           formatted <- format template_str [("repo", name repo)] ;;
           let lookup_path :=
             PurePath.joinpath (tmpdir self) (PurePath.of_str formatted) in
           _repo_content <- get_children self (AsPath lookup_path) ;;
           Ok (dict_set (title repo) (reference_section repo _repo_content) _nav))
        (all (repos self)) [].

(** The [Getting Started] mapping of one persona section. *)
Definition getting_started (tutorial learn howto : list string) : nav :=
  NDict [("Getting Started",
          NDict [("Tutorial", files tutorial); ("Learn", files learn);
                 ("How-to", files howto)])].

(** [grouped_by_persona] *)
Definition grouped_by_persona (self : AgregationUtils) : result nav :=
  let f := self in
  let help_section :=
    NList [NDict [("Overview", NStr (section_file f "help/index.md"))];
           NDict [("Bugs, Feature and Backport Requests",
                   NStr (section_file f "help/bugs-features.md"))]] in
  u_tutorial <- get_children f (AsStr "pulpcore/docs/user/tutorials") ;;
  u_learn <- get_children f (AsStr "pulpcore/docs/user/learn") ;;
  u_howto <- get_children f (AsStr "pulpcore/docs/user/guides") ;;
  u_plugins <- repo_grouping f "{repo}/docs/user/{content}" (Some ["content"]) None ;;
  u_extras <- repo_grouping f "{repo}/docs/user/{content}" (Some ["other"]) None ;;
  let usage_section :=
    NList [NDict [("Overview", NStr (section_file f "usage/index.md"))];
           getting_started u_tutorial u_learn u_howto;
           NDict [("Plugins", NDict u_plugins)];
           NDict [("Extras", NDict u_extras)]] in
  a_tutorial <- get_children f (AsStr "pulpcore/docs/admin/tutorials") ;;
  a_learn <- get_children f (AsStr "pulpcore/docs/admin/learn") ;;
  a_howto <- get_children f (AsStr "pulpcore/docs/admin/guides") ;;
  a_plugins <- repo_grouping f "{repo}/docs/admin/{content}" (Some ["content"]) None ;;
  a_extras <- repo_grouping f "{repo}/docs/admin/{content}" (Some ["other"]) None ;;
  let admin_section :=
    NList [NDict [("Overview", NStr (section_file f "admin/index.md"))];
           getting_started a_tutorial a_learn a_howto;
           NDict [("Plugins", NDict a_plugins)];
           NDict [("Extras", NDict a_extras)]] in
  references <- repo_reference_grouping f ;;
  let reference_section :=
    NList [NDict [("Overview", NStr (section_file f "reference/index.md"))];
           NDict [("Repository Map",
                   NStr (section_file f "reference/01-repository-map.md"))];
           NDict [("Glossary", NStr (section_file f "reference/02-glossary.md"))];
           NDict [("Repositories", NDict references)]] in
  d_tutorial <- get_children f (AsStr "pulpcore/docs/dev/tutorials") ;;
  d_learn <- get_children f (AsStr "pulpcore/docs/dev/learn") ;;
  d_howto <- get_children f (AsStr "pulpcore/docs/dev/guides") ;;
  d_plugins <- repo_grouping f "{repo}/docs/dev/{content}" (Some ["content"]) None ;;
  d_extras <- repo_grouping f "{repo}/docs/dev/{content}" (Some ["other"]) None ;;
  let development_section :=
    NList [NDict [("Overview", NStr (section_file f "development/index.md"))];
           getting_started d_tutorial d_learn d_howto;
           NDict [("Plugins", NDict d_plugins)];
           NDict [("Extras", NDict d_extras)]] in
  Ok (NList [NDict [("Home", NStr "index.md")];
             NDict [("User Manual", usage_section)];
             NDict [("Admin Manual", admin_section)];
             NDict [("Development", development_section)];
             NDict [("Reference", reference_section)];
             NDict [("Help", help_section)]]).

(** [get_navigation] *)
Definition get_navigation (self : AgregationUtils) : result nav :=
  grouped_by_persona self.

(** [grouped_by_content_type] *)
Definition grouped_by_content_type (self : AgregationUtils) : result nav :=
  let f := self in
  gs_quickstart <- section_children f "getting_started/quickstart" ;;
  gs_fundamentals <- section_children f "getting_started/fundamentals" ;;
  let getting_started :=
    NList [NDict [("Overview", NStr (section_file f "getting_started/index.md"))];
           NDict [("Quickstart", files gs_quickstart)];
           NDict [("Fundamentals", files gs_fundamentals)]] in
  g_user <- repo_grouping f "{repo}/docs/{user}/guides" None None ;;
  g_admin <- repo_grouping f "{repo}/docs/{admin}/guides" None None ;;
  let guides :=
    NList [NDict [("Overview", NStr (section_file f "guides/index.md"))];
           NDict [("For Content-Management", NDict g_user)];
           NDict [("For Sys-Admins", NDict g_admin)]] in
  l_user <- repo_grouping f "{repo}/docs/{user}/learn" None None ;;
  l_admin <- repo_grouping f "{repo}/docs/{admin}/learn" None None ;;
  let learn :=
    NList [NDict [("Overview", NStr (section_file f "learn/index.md"))];
           NDict [("For Content-Management", NDict l_user)];
           NDict [("For Sys-Admins", NDict l_admin)]] in
  references <- repo_reference_grouping f ;;
  let reference :=
    NList [NDict [("Overview", NStr (section_file f "reference/index.md"))];
           NDict [("Repository Map",
                   NStr (section_file f "reference/01-repository-map.md"))];
           NDict [("Glossary", NStr (section_file f "reference/02-glossary.md"))];
           NDict [("Repositories", NDict references)]] in
  d_quickstart <- section_children f "development/quickstart/" ;;
  d_onboarding <- section_children f "development/onboarding/" ;;
  d_guides <- section_children f "/development/guides/" ;;
  let development :=
    NList [NDict [("Overview", NStr (section_file f "development/index.md"))];
           NDict [("Quickstart", files d_quickstart)];
           NDict [("Onboarding", files d_onboarding)];
           NDict [("Guides", files d_guides)]] in
  Ok (NList [NDict [("Home", NStr "index.md")];
             NDict [("Getting Started", getting_started)];
             NDict [("Guides", guides)];
             NDict [("Learn", learn)];
             NDict [("Reference", reference)];
             NDict [("Development", development)]]).

End WithFileSystem.

(** Reading a navigation value: the entry under a title, in a mapping or in a
    list of mappings. *)
Fixpoint child_in (k : string) (l : list nav) : option nav :=
  match l with
  | [] => None
  | NDict d :: rest =>
      match dict_get k d with
      | Some v => Some v
      | None => child_in k rest
      end
  | _ :: rest => child_in k rest
  end.

Definition child (k : string) (n : nav) : option nav :=
  match n with
  | NDict d => dict_get k d
  | NList l => child_in k l
  | NStr _ => None
  end.

Fixpoint descend (titles : list string) (n : nav) : option nav :=
  match titles with
  | [] => Some n
  | k :: rest =>
      match child k n with
      | Some n' => descend rest n'
      | None => None
      end
  end.

(** Position of a key in a mapping, counted from the first inserted. *)
Fixpoint key_index {V : Type} (k : string) (d : dict V) : option nat :=
  match d with
  | [] => None
  | (k', _) :: rest =>
      if (k' =? k)%string then Some 0
      else option_map S (key_index k rest)
  end.

End Navigation.

Export Navigation.

(* ================================================================== *)
(** * Vocabulary of the statements *)

Module Vocabulary.

(** The entries [glob] sees in a directory; a missing directory has none. *)
Definition entries (scandir : FileSystem) (p : Path) : list string :=
  match scandir p with
  | Some names => names
  | None => []
  end.

(** A markdown file that is not private. *)
Definition visible (n : string) : bool :=
  endswith ".md" n && negb (startswith "_" n).

(** The path, relative to the documentation root, of the entry [n] of the
    directory whose relative components are [rel]. *)
Definition relative_child (rel : list string) (n : string) : string :=
  PurePath.str (PurePath.mkPath "" (rel ++ [n])).

(** The directory [get_children] lists for its argument. *)
Definition directory_of (self : AgregationUtils) (path : path_arg) : Path :=
  match path with
  | AsStr s => PurePath.joinpath (tmpdir self) (PurePath.of_str s)
  | AsPath p => p
  end.

(** [other] is an ancestor of [p] (or [p] itself), [rel] being the rest. *)
Definition under (p other : Path) (rel : list string) : Prop :=
  PurePath.root p = PurePath.root other
  /\ PurePath.parts p = PurePath.parts other ++ rel.

(** A repository name that is a plain slug as far as paths go: not empty and
    not starting with a slash. *)
Definition slug (n : string) : bool :=
  match n with
  | EmptyString => false
  | String c _ => negb (Ascii.eqb "/" c)
  end.

(** Ascending in the order [sorted] uses. *)
Definition ascending (l : list string) : Prop :=
  StronglySorted (fun a b => String.leb a b = true) l.

(** The directory [repo_reference_grouping] looks into. *)
Definition reference_dir (self : AgregationUtils) (repo : Repo) : Path :=
  PurePath.joinpath (tmpdir self)
    (PurePath.of_str (name repo ++ "/docs/reference")%string).

(** [Quickstart] comes before [Tutorials] in a mapping. *)
Definition quickstart_first (inner : dict nav) : Prop :=
  exists i j, key_index "Quickstart" inner = Some i
              /\ key_index "Tutorials" inner = Some j /\ i < j.

(** What the [Tutorials] key holds for the files left after extraction: no
    entry when none is left. *)
Definition tutorials_entry (remaining : list string) : option nav :=
  match remaining with
  | [] => None
  | _ :: _ => Some (files remaining)
  end.

(** The state of a repository's mapping once its tutorials have been
    stored: [q] under [Quickstart], the remaining files under [Tutorials]
    (if any), in this order. *)
Definition extracted (q : string) (remaining : list string) (inner : dict nav)
  : Prop :=
  dict_get "Quickstart" inner = Some (NStr q)
  /\ dict_get "Tutorials" inner = tutorials_entry remaining
  /\ (remaining <> [] -> quickstart_first inner).

(** The state before: neither key is there. *)
Definition untouched (inner : dict nav) : Prop :=
  dict_get "Quickstart" inner = None /\ dict_get "Tutorials" inner = None.

(** The mapping [repo_grouping] stores under a repository's title when it
    expands content types. *)
Definition expanded_value (scandir : FileSystem) (self : AgregationUtils)
    (template_str : string) (selected_content : list string) (repo : Repo)
  : result nav :=
  inner <- foldM (group_content_type scandir self template_str repo)
                 selected_content [] ;;
  Ok (NDict inner).

(** A content type that has a display name. *)
Definition known_content (c : string) : bool :=
  match dict_get c DISPLAY_NAMES with
  | Some _ => true
  | None => false
  end.

(** An entry of [repo_types] that names a list field of [Repos]. *)
Definition known_type (t : string) : bool :=
  (t =? "content")%string || (t =? "other")%string.

Definition bucket (rs : Repos) (t : string) : list Repo :=
  if (t =? "content")%string then content_repos rs else other_repos rs.

(** A loop body that computes one value per element and stores it under the
    element's key. *)
Definition keyed_step {A V : Type} (key : A -> string) (value : A -> result V)
    (acc : dict V) (x : A) : result (dict V) :=
  v <- value x ;; Ok (dict_set (key x) v acc).

(** The entry [repo_reference_grouping] stores for one repository. *)
Definition reference_value (scandir : FileSystem) (self : AgregationUtils)
    (repo : Repo) : result nav :=
  listing <- get_children scandir self (AsPath (reference_dir self repo)) ;;
  Ok (reference_section repo listing).

(** A repolist entry giving a title and a name, and the repository
    [from_yaml] makes of it. *)
Definition entry (tn : string * string) : yaml :=
  YMap [("name", YStr (snd tn)); ("title", YStr (fst tn))].

Definition repo_of (ty : string) (tn : string * string) : Repo :=
  mkRepo (fst tn) (snd tn) "pulp" "main" None (Some ty).

(** A loaded repolist document with its three buckets. *)
Definition repolist (core content other : list (string * string)) : yaml :=
  YMap [("repos",
         YMap [("core", YSeq (map entry core));
               ("content", YSeq (map entry content));
               ("other", YSeq (map entry other))])].

(** [repo_grouping], lines 263-266: the files discovered for one repository
    when content types are not expanded. *)
Definition discover_simple (scandir : FileSystem) (self : AgregationUtils)
    (template_str : string) (repo : Repo) : result (list string) :=
  formatted <- format template_str
                 [("repo", name repo); ("admin", ADMIN_NAME); ("user", USER_NAME)] ;;
  get_children scandir self
    (AsPath (PurePath.joinpath (tmpdir self) (PurePath.of_str formatted))).

(** The entries of the grouping without expansion: one per repository with a
    non-empty listing, in the order of the repositories. *)
Definition simple_entries (found : list (Repo * list string)) : dict nav :=
  map (fun rl => (title (fst rl), files (snd rl)))
      (filter (fun rl => match snd rl with [] => false | _ :: _ => true end) found).

(** The components of [l] leave those of [pre] at some position. *)
Fixpoint diverge (pre l : list string) : bool :=
  match pre, l with
  | x :: pre', y :: l' => if (x =? y)%string then diverge pre' l' else true
  | _, _ => false
  end.

(** A directory that lies outside the documentation root [base]: another
    root, or components that leave those of [base]. *)
Definition outside (p base : Path) : Prop :=
  PurePath.root p <> PurePath.root base
  \/ diverge (PurePath.parts base) (PurePath.parts p) = true.

(** A string without a slash. *)
Fixpoint no_slash (s : string) : bool :=
  match s with
  | EmptyString => true
  | String c r => negb (Ascii.eqb c "/") && no_slash r
  end.

(** What the mapping of one repository may hold after content-type
    expansion over [types]: a quickstart file under [Quickstart], put there
    by a content type spelled [tutorials] in some letter case, and non-empty
    lists of files under the display names of requested content types. *)
Definition inner_entry (types : list string) (k : string) (v : nav) : Prop :=
  (k = "Quickstart"
   /\ (exists q, v = NStr q /\ is_quickstart q = true)
   /\ (exists c, In c types /\ lower c = "tutorials"))
  \/ (exists c l, In c types /\ dict_get c DISPLAY_NAMES = Some k
                  /\ v = files l /\ l <> []).

Definition inner_shape (types : list string) (inner : dict nav) : Prop :=
  forall k v, dict_get k inner = Some v -> inner_entry types k v.

(** The titles at the top of a navigation tree. *)
Definition top_titles (n : nav) : list string :=
  match n with
  | NList l =>
      flat_map (fun e => match e with NDict d => dict_keys d | _ => [] end) l
  | NDict d => dict_keys d
  | NStr _ => []
  end.

(** The keywords [Repo] takes from a repolist entry. *)
Definition entry_keywords : list string :=
  ["title"; "name"; "owner"; "branch"; "local_basepath"; "status"].

(** A list without its first element that satisfies [f]. *)
Fixpoint remove_first {A : Type} (f : A -> bool) (l : list A) : list A :=
  match l with
  | [] => []
  | x :: rest => if f x then rest else x :: remove_first f rest
  end.

(** The state of a repository's mapping while its content types are gone
    through, when no quickstart file is among the tutorials: no [Quickstart]
    key, and under [Tutorials] the discovered list once [seen]. *)
Definition plain (discovered : list string) (seen : bool) (inner : dict nav)
  : Prop :=
  dict_get "Quickstart" inner = None
  /\ dict_get "Tutorials" inner
     = (if seen then tutorials_entry discovered else None).

(** The directory [repo_grouping] looks into for a formatted template, and
    the names it finds there: the visible ones, sorted. *)
Definition lookup_dir (self : AgregationUtils) (formatted : string) : Path :=
  PurePath.joinpath (tmpdir self) (PurePath.of_str formatted).

Definition found_names (scandir : FileSystem) (dir : Path) : list string :=
  sorted (filter visible (entries scandir dir)).

End Vocabulary.

Export Vocabulary.

(* ================================================================== *)
(** * Fixtures: a small documentation tree *)

Module Fixtures.

Definition docs_root : Path := PurePath.of_str "/tmp/docs".

Definition core : Repo := mkRepo "Pulp Core" "core" "pulp" "main" None (Some "core").
Definition rpm : Repo := mkRepo "Rpm" "pulp_rpm" "pulp" "main" None (Some "content").
Definition deb : Repo := mkRepo "Deb" "pulp_deb" "pulp" "main" None (Some "content").
Definition oci : Repo := mkRepo "OCI" "oci_env" "pulp" "main" None (Some "other").

Definition fixture_repos : Repos := mkRepos core [rpm; deb] [oci].

Definition utils : AgregationUtils := mkUtils docs_root fixture_repos.

(** [pulp_rpm] has user tutorials (one of them the quickstart) and user
    guides (one of them named like a quickstart), developer tutorials with
    mixed-case names and one reference page; [pulp_deb] and [oci_env] have no
    documentation at all. The primary repository is named [core], as
    in [Repos.test_fixtures]; a directory [pulpcore] lies next to it. *)
Definition tree : FileSystem := fun p =>
  let s := PurePath.str p in
  if (s =? "/tmp/docs/pulp_rpm/docs/user/tutorials")%string then
    Some ["intro.md"; "quickstart.md"; "advanced.md"; "_draft.md"; "notes.txt"]
  else if (s =? "/tmp/docs/pulp_rpm/docs/user/guides")%string then
    Some ["quickstart.md"; "x.md"]
  else if (s =? "/tmp/docs/pulpcore/docs/user/tutorials")%string then
    Some ["b.md"; "a.md"; "c.md"; "sub"]
  else if (s =? "/tmp/docs/pulpcore/docs/user/tutorials/sub")%string then
    Some ["deep.md"]
  else if (s =? "/tmp/docs/core/docs/user/tutorials")%string then
    Some ["core-intro.md"]
  else if (s =? "/tmp/docs/pulp_rpm/docs/dev/tutorials")%string then
    Some ["setup.md"; "Quick-Start.md"; "QuickStart.MD"]
  else if (s =? "/tmp/docs/pulp_rpm/docs/reference")%string then
    Some ["models.md"]
  else None.

(** A loaded repolist in which names collide: two content repositories are
    both [pulp_rpm], and an auxiliary one takes the primary's name. *)
Definition colliding_repolist : yaml :=
  repolist [("Pulp Core", "pulpcore")]
           [("Rpm", "pulp_rpm"); ("Rpm again", "pulp_rpm")]
           [("Core again", "pulpcore")].

(** A loaded repolist without a primary repository. *)
Definition no_primary_repolist : yaml :=
  repolist [] [("Rpm", "pulp_rpm")] [].

(** A tree with one directory outside the documentation root. *)
Definition foreign_tree : FileSystem := fun p =>
  let s := PurePath.str p in
  if (s =? "/srv/notes")%string then Some ["todo.md"; "_private.md"; "README"]
  else if (s =? "/srv/empty")%string then Some ["_private.md"; "README"]
  else None.

(** The user tutorials of [pulpcore] as another file system would list
    them: the same entries in another order. *)
Definition shuffled_tree : FileSystem := fun p =>
  let s := PurePath.str p in
  if (s =? "/tmp/docs/pulpcore/docs/user/tutorials")%string then
    Some ["sub"; "c.md"; "b.md"; "a.md"]
  else tree p.

(** A loaded repolist with the [core] and [content] sections only. *)
Definition two_section_repolist : yaml :=
  YMap [("repos",
         YMap [("core", YSeq [entry ("Pulp Core", "pulpcore")]);
               ("content", YSeq [entry ("Rpm", "pulp_rpm")])])].

(** A loaded repolist with two [core] entries, explicit owner and branch on
    one content entry, and an empty [other] section. *)
Definition full_repolist : yaml :=
  YMap [("repos",
         YMap [("core", YSeq [entry ("Pulp Core", "pulpcore");
                              entry ("Second", "second")]);
               ("content",
                YSeq [YMap [("title", YStr "Rpm"); ("name", YStr "pulp_rpm");
                            ("owner", YStr "acme"); ("branch", YStr "3.0")];
                      entry ("Deb", "pulp_deb")]);
               ("other", YSeq [])])].

(** A tree in which [pulp_rpm] has a directory for the content type
    [guide], which has no display name. *)
Definition singular_tree : FileSystem := fun p =>
  let s := PurePath.str p in
  if (s =? "/tmp/docs/pulp_rpm/docs/dev/guide")%string then Some ["x.md"]
  else None.

(** The user tutorials of [pulp_rpm] with the quickstart file written
    [QuickStart.MD]. *)
Definition upper_tree : FileSystem := fun p =>
  let s := PurePath.str p in
  if (s =? "/tmp/docs/pulp_rpm/docs/user/tutorials")%string then
    Some ["intro.md"; "QuickStart.MD"; "advanced.md"]
  else None.

End Fixtures.

(* ================================================================== *)
(** * Facts about the Python layer *)

Section ResultFacts.

Context {A B : Type}.

Lemma bind_Ok (m : result A) (k : A -> result B) (b : B) :
  bind m k = Ok b -> exists a, m = Ok a /\ k a = Ok b.
Proof.
  destruct m as [a | e |]; simpl; intros H; try discriminate.
  exists a; split; [reflexivity | exact H].
Qed.

Lemma bind_ext (m : result A) (k1 k2 : A -> result B) :
  (forall a, k1 a = k2 a) -> bind m k1 = bind m k2.
Proof. intros H; destruct m; simpl; auto. Qed.

End ResultFacts.

Lemma foldM_ext {A S : Type} (f g : S -> A -> result S) (l : list A) (s : S) :
  (forall s' x, In x l -> f s' x = g s' x) -> foldM f l s = foldM g l s.
Proof.
  revert s; induction l as [| x l IH]; intros s H; simpl; [reflexivity |].
  rewrite (H s x (or_introl eq_refl)).
  apply bind_ext; intros s'; apply IH.
  intros s'' y Hy; apply H; right; exact Hy.
Qed.

Lemma mapM_total {A B : Type} (f : A -> result B) (g : A -> B) (l : list A) :
  (forall x, In x l -> f x = Ok (g x)) -> mapM f l = Ok (map g l).
Proof.
  induction l as [| x l IH]; intros H; simpl; [reflexivity |].
  rewrite (H x (or_introl eq_refl)); simpl.
  rewrite IH; [reflexivity |].
  intros y Hy; apply H; right; exact Hy.
Qed.

(** ** Strings *)

Section StringFacts.

Lemma string_length_append (a b : string) :
  String.length (a ++ b) = String.length a + String.length b.
Proof. induction a as [| c a IH]; simpl; [reflexivity | now rewrite IH]. Qed.

Lemma append_inv_head (a x y : string) : (a ++ x = a ++ y)%string -> x = y.
Proof.
  induction a as [| c a IH]; simpl; intros H; [exact H |].
  injection H as H; auto.
Qed.

Lemma append_inv_tail (x y s : string) : (x ++ s = y ++ s)%string -> x = y.
Proof.
  revert y; induction x as [| c x IH]; intros [| d y] H; simpl in H.
  - reflexivity.
  - apply (f_equal String.length) in H; simpl in H.
    rewrite string_length_append in H; lia.
  - apply (f_equal String.length) in H; simpl in H.
    rewrite string_length_append in H; lia.
  - injection H as Hc H; subst d; f_equal; auto.
Qed.

Lemma append_assoc (a b c : string) : ((a ++ b) ++ c = a ++ (b ++ c))%string.
Proof. induction a as [| x a IH]; simpl; [reflexivity | now rewrite IH]. Qed.

Lemma substring_append_skip (x s : string) (n m : nat) :
  String.substring (String.length x + n) m (x ++ s) = String.substring n m s.
Proof. induction x as [| c x IH]; simpl; [reflexivity | exact IH]. Qed.

(** A suffix test sees only the tail of a concatenation that is long enough. *)
Lemma endswith_append (p x s : string) :
  String.length p <= String.length s ->
  endswith p (x ++ s) = endswith p s.
Proof.
  intros Hlen; unfold endswith.
  rewrite string_length_append.
  replace (String.length x + String.length s - String.length p)
    with (String.length x + (String.length s - String.length p)) by lia.
  rewrite substring_append_skip.
  destruct (Nat.leb_spec (String.length p) (String.length s)); [| lia].
  destruct (Nat.leb_spec (String.length p) (String.length x + String.length s));
    [reflexivity | lia].
Qed.

Lemma substring_full (s : string) : String.substring 0 (String.length s) s = s.
Proof. induction s as [| c s IH]; simpl; [reflexivity | now rewrite IH]. Qed.

Lemma endswith_self (x s : string) : endswith s (x ++ s) = true.
Proof.
  rewrite endswith_append by lia.
  unfold endswith; rewrite Nat.leb_refl, Nat.sub_diag, substring_full.
  now rewrite String.eqb_refl.
Qed.

(** [x ++ s] differs from any string that does not end in [s]. *)
Lemma append_eqb_no_suffix (x s t : string) :
  endswith s t = false -> (x ++ s =? t)%string = false.
Proof.
  intros H; apply String.eqb_neq; intros E.
  rewrite <- E, endswith_self in H; discriminate.
Qed.

Lemma append_eqb_tail (x y s : string) :
  (x ++ s =? y ++ s)%string = (x =? y)%string.
Proof.
  destruct (String.eqb_spec x y) as [-> | Hne].
  - apply String.eqb_refl.
  - apply String.eqb_neq; intros E; apply Hne; eapply append_inv_tail; eauto.
Qed.

End StringFacts.

(** ** The order of [sorted] *)

Section OrderFacts.

Lemma ascii_compare_refl (a : ascii) : Ascii.compare a a = Eq.
Proof. unfold Ascii.compare; apply N.compare_refl. Qed.

Lemma string_compare_refl (s : string) : String.compare s s = Eq.
Proof.
  induction s as [| c s IH]; simpl; [reflexivity |].
  now rewrite ascii_compare_refl.
Qed.

Lemma leb_refl (s : string) : String.leb s s = true.
Proof. unfold String.leb; now rewrite string_compare_refl. Qed.

Lemma leb_trans (a b c : string) :
  String.leb a b = true -> String.leb b c = true -> String.leb a c = true.
Proof.
  unfold String.leb.
  revert b c; induction a as [| x a IH]; intros [| y b] [| z c];
    simpl; try congruence.
  unfold Ascii.compare.
  destruct (N.compare_spec (N_of_ascii x) (N_of_ascii y)) as [Exy | Lxy | Gxy];
    destruct (N.compare_spec (N_of_ascii y) (N_of_ascii z)) as [Eyz | Lyz | Gyz];
    destruct (N.compare_spec (N_of_ascii x) (N_of_ascii z)) as [Exz | Lxz | Gxz];
    try congruence; try lia; try (apply IH).
Qed.

Lemma leb_false_flip (a b : string) :
  String.leb a b = false -> String.leb b a = true.
Proof.
  intros H; destruct (String.leb_total a b) as [H' | H']; congruence.
Qed.

Lemma insert_sorted_perm (x : string) (l : list string) :
  Permutation (x :: l) (insert_sorted x l).
Proof.
  induction l as [| y l IH]; simpl; [apply Permutation_refl |].
  destruct (String.leb x y); [apply Permutation_refl |].
  eapply perm_trans; [apply perm_swap | apply perm_skip, IH].
Qed.

Lemma sorted_perm (l : list string) : Permutation l (sorted l).
Proof.
  induction l as [| x l IH]; simpl; [constructor |].
  eapply perm_trans; [apply perm_skip, IH | apply insert_sorted_perm].
Qed.

Lemma insert_sorted_ascending (x : string) (l : list string) :
  ascending l -> ascending (insert_sorted x l).
Proof.
  unfold ascending; induction l as [| y l IH]; intros Hl; simpl.
  - constructor; constructor.
  - destruct (String.leb x y) eqn:Hxy.
    + constructor; [exact Hl |].
      constructor; [exact Hxy |].
      inversion Hl as [| ? ? _ Hall]; subst.
      eapply Forall_impl; [| exact Hall].
      intros z Hz; eapply leb_trans; eauto.
    + inversion Hl as [| ? ? Hl' Hall]; subst.
      constructor; [apply IH; exact Hl' |].
      apply leb_false_flip in Hxy.
      rewrite Forall_forall in *; intros z Hz.
      apply (Permutation_in _ (Permutation_sym (insert_sorted_perm x l))) in Hz.
      destruct Hz as [<- | Hz]; auto.
Qed.

Lemma sorted_ascending (l : list string) : ascending (sorted l).
Proof.
  induction l as [| x l IH]; simpl; [constructor |].
  apply insert_sorted_ascending, IH.
Qed.

(** An ascending list is determined by its elements. *)
Lemma ascending_unique (l1 l2 : list string) :
  ascending l1 -> ascending l2 -> Permutation l1 l2 -> l1 = l2.
Proof.
  unfold ascending; revert l2; induction l1 as [| x l1 IH]; intros l2 H1 H2 P.
  - apply Permutation_nil in P; now subst.
  - destruct l2 as [| y l2];
      [apply Permutation_sym, Permutation_nil in P; discriminate |].
    inversion H1 as [| ? ? H1' A1]; subst.
    inversion H2 as [| ? ? H2' A2]; subst.
    assert (x = y) as ->.
    { rewrite Forall_forall in A1, A2.
      assert (Hy : In y (x :: l1))
        by (apply (Permutation_in _ (Permutation_sym P)); left; reflexivity).
      assert (Hx : In x (y :: l2))
        by (apply (Permutation_in _ P); left; reflexivity).
      destruct Hy as [-> | Hy]; [reflexivity |].
      destruct Hx as [-> | Hx]; [reflexivity |].
      apply String.leb_antisym; auto. }
    f_equal; apply IH; auto.
    eapply Permutation_cons_inv; eauto.
Qed.

Lemma sorted_In (l : list string) (x : string) : In x (sorted l) <-> In x l.
Proof.
  split; intros H.
  - eapply Permutation_in; [apply Permutation_sym, sorted_perm | exact H].
  - eapply Permutation_in; [apply sorted_perm | exact H].
Qed.

Lemma ascending_remove (l1 l2 : list string) (x : string) :
  ascending (l1 ++ x :: l2) -> ascending (l1 ++ l2).
Proof.
  unfold ascending; induction l1 as [| a l1 IH]; cbn [app]; intros H;
    inversion H as [| ? ? Hs Hall]; subst; [exact Hs |].
  constructor; [apply IH; exact Hs |].
  apply Forall_app in Hall as [H1 H2]; inversion H2; subst.
  apply Forall_app; auto.
Qed.

End OrderFacts.

(** ** Dictionaries *)

Section DictFacts.

Context {V : Type}.

Implicit Types (d : dict V) (k : string) (v : V).

Lemma dict_get_set_same k v d : dict_get k (dict_set k v d) = Some v.
Proof.
  induction d as [| [k' v'] d IH]; simpl.
  - now rewrite String.eqb_refl.
  - destruct (String.eqb_spec k' k) as [-> | Hne]; simpl.
    + now rewrite String.eqb_refl.
    + destruct (String.eqb_spec k' k); [contradiction | exact IH].
Qed.

Lemma dict_get_set_other k k' v d :
  k <> k' -> dict_get k (dict_set k' v d) = dict_get k d.
Proof.
  intros Hne; induction d as [| [k0 v0] d IH]; simpl.
  - destruct (String.eqb_spec k' k); [congruence | reflexivity].
  - destruct (String.eqb_spec k0 k') as [-> | Hne0]; simpl.
    + destruct (String.eqb_spec k' k); [congruence | reflexivity].
    + destruct (String.eqb_spec k0 k); [reflexivity | exact IH].
Qed.

Lemma dict_set_set k v1 v2 d : dict_set k v2 (dict_set k v1 d) = dict_set k v2 d.
Proof.
  induction d as [| [k' v'] d IH]; simpl.
  - now rewrite String.eqb_refl.
  - destruct (String.eqb_spec k' k) as [-> | Hne]; simpl.
    + now rewrite String.eqb_refl.
    + destruct (String.eqb_spec k' k); [contradiction | now rewrite IH].
Qed.

Lemma key_index_absent k d : dict_get k d = None -> key_index k d = None.
Proof.
  induction d as [| [k' v'] d IH]; simpl; [reflexivity |].
  destruct (k' =? k)%string; [discriminate |].
  intros H; now rewrite IH.
Qed.

Lemma key_index_set_other k k' v d :
  k <> k' -> key_index k (dict_set k' v d) = key_index k d.
Proof.
  intros Hne; induction d as [| [k0 v0] d IH]; simpl.
  - destruct (String.eqb_spec k' k); [congruence | reflexivity].
  - destruct (String.eqb_spec k0 k') as [-> | Hne0]; simpl.
    + destruct (String.eqb_spec k' k); [congruence | reflexivity].
    + destruct (String.eqb_spec k0 k); [reflexivity | now rewrite IH].
Qed.

Lemma key_index_set_same k v d :
  key_index k (dict_set k v d)
  = match key_index k d with Some i => Some i | None => Some (length d) end.
Proof.
  induction d as [| [k' v'] d IH]; simpl.
  - now rewrite String.eqb_refl.
  - destruct (String.eqb_spec k' k) as [-> | Hne]; simpl.
    + now rewrite String.eqb_refl.
    + destruct (String.eqb_spec k' k); [contradiction |].
      rewrite IH; destruct (key_index k d); reflexivity.
Qed.

End DictFacts.

(** ** Paths and discovery *)

Section PathFacts.

Lemma strip_prefix_app (pre l : list string) :
  PurePath.strip_prefix pre (pre ++ l) = Some l.
Proof.
  induction pre as [| x pre IH]; simpl; [reflexivity |].
  now rewrite String.eqb_refl.
Qed.

Lemma name_child (r : string) (ps : list string) (n : string) :
  PurePath.name (PurePath.mkPath r (ps ++ [n])) = n.
Proof. unfold PurePath.name; simpl; apply last_last. Qed.

Lemma relative_to_child (p other : Path) (rel : list string) (n : string) :
  under p other rel ->
  PurePath.relative_to
    (PurePath.mkPath (PurePath.root p) (PurePath.parts p ++ [n])) other
  = Ok (PurePath.mkPath "" (rel ++ [n])).
Proof.
  intros [Hroot Hparts]; unfold PurePath.relative_to; simpl.
  rewrite Hroot, String.eqb_refl, Hparts, <- app_assoc, strip_prefix_app.
  reflexivity.
Qed.

Lemma parse_root_relative (s : string) :
  startswith "/" s = false -> PurePath.parse_root s = "".
Proof.
  unfold PurePath.parse_root.
  destruct s as [| c s]; [reflexivity |].
  cbn [startswith].
  destruct (Ascii.eqb "/" c); [discriminate | reflexivity].
Qed.

Lemma slug_relative (n rest : string) :
  slug n = true -> startswith "/" (n ++ rest) = false.
Proof.
  destruct n as [| c n]; [discriminate |].
  cbn [slug append startswith].
  destruct (Ascii.eqb "/" c); [discriminate | reflexivity].
Qed.

Lemma joinpath_under (base : Path) (s : string) :
  startswith "/" s = false ->
  under (PurePath.joinpath base (PurePath.of_str s)) base
        (PurePath.parts (PurePath.of_str s)).
Proof.
  intros H; unfold PurePath.joinpath, PurePath.of_str; simpl.
  rewrite (parse_root_relative _ H); simpl.
  split; reflexivity.
Qed.

(** A relative child path is the directory prefix followed by the name. *)
Lemma relative_child_prefix (rel : list string) :
  exists pfx, forall n, relative_child rel n = (pfx ++ n)%string.
Proof.
  unfold relative_child, PurePath.str; simpl.
  induction rel as [| a rel [pfx IH]].
  - exists ""; intros n; reflexivity.
  - exists (a ++ "/" ++ pfx)%string; intros n.
    specialize (IH n); simpl in *.
    destruct (rel ++ [n]) as [| b l] eqn:E;
      [destruct rel; discriminate |].
    unfold join in *; simpl.
    rewrite IH, !append_assoc; reflexivity.
Qed.

Lemma relative_child_inj (rel : list string) (n m : string) :
  relative_child rel n = relative_child rel m -> n = m.
Proof.
  destruct (relative_child_prefix rel) as [pfx H].
  rewrite !H; apply append_inv_head.
Qed.

Lemma visible_children (p : Path) (names : list string) :
  filter (fun file => negb (startswith "_" (PurePath.name file)))
         (map (fun n => PurePath.mkPath (PurePath.root p) (PurePath.parts p ++ [n]))
              (filter (endswith ".md") names))
  = map (fun n => PurePath.mkPath (PurePath.root p) (PurePath.parts p ++ [n]))
        (filter visible names).
Proof.
  unfold visible; induction names as [| n names IH]; [reflexivity |].
  cbn [filter].
  destruct (endswith ".md" n); cbn [andb map filter]; [| exact IH].
  rewrite name_child.
  destruct (startswith "_" n); cbn [negb map]; [exact IH | now rewrite IH].
Qed.

Variable scandir : FileSystem.

Lemma glob_md_entries (p : Path) :
  PurePath.glob_md scandir p
  = map (fun n => PurePath.mkPath (PurePath.root p) (PurePath.parts p ++ [n]))
        (filter (endswith ".md") (entries scandir p)).
Proof. unfold PurePath.glob_md, entries; destruct (scandir p); reflexivity. Qed.

(** The closed form of [get_children] on a directory under the root. *)
Lemma get_children_under (self : AgregationUtils) (p : Path) (rel : list string) :
  under p (tmpdir self) rel ->
  get_children scandir self (AsPath p)
  = Ok (sorted (map (relative_child rel) (filter visible (entries scandir p)))).
Proof.
  intros Hu; unfold get_children.
  rewrite glob_md_entries, visible_children.
  rewrite (mapM_total _ (fun file => relative_child rel (PurePath.name file))).
  - simpl; rewrite map_map.
    do 2 f_equal; apply map_ext; intros n; now rewrite name_child.
  - intros file Hin; apply in_map_iff in Hin as [n [<- _]].
    rewrite (relative_to_child n Hu), name_child; reflexivity.
Qed.

Lemma get_children_missing (self : AgregationUtils) (p : Path) :
  scandir p = None -> get_children scandir self (AsPath p) = Ok [].
Proof.
  intros H; unfold get_children, PurePath.glob_md; rewrite H; reflexivity.
Qed.

End PathFacts.

Lemma leb_append_head (p x y : string) :
  String.leb (p ++ x) (p ++ y) = String.leb x y.
Proof.
  unfold String.leb; induction p as [| c p IH]; simpl; [reflexivity |].
  now rewrite ascii_compare_refl.
Qed.

(* ================================================================== *)
(** * File discovery *)

Section Discovery.

Variable scandir : FileSystem.
Variable self : AgregationUtils.

Lemma get_children_directory (path : path_arg) :
  get_children scandir self path
  = get_children scandir self (AsPath (directory_of self path)).
Proof. destruct path; reflexivity. Qed.

Lemma get_children_closed_form (path : path_arg) (rel : list string) :
  under (directory_of self path) (tmpdir self) rel ->
  get_children scandir self path
  = Ok (sorted (map (relative_child rel)
                    (filter visible (entries scandir (directory_of self path))))).
Proof.
  intros Hu; rewrite get_children_directory; now apply get_children_under.
Qed.

Lemma get_children_ascending (path : path_arg) (out : list string) :
  get_children scandir self path = Ok out -> ascending out.
Proof.
  unfold get_children; intros H; apply bind_Ok in H as [l [_ H]].
  injection H as <-; apply sorted_ascending.
Qed.

(** A relative [str] argument always lies under the documentation root. *)
Lemma get_children_relative_str (s : string) :
  startswith "/" s = false ->
  get_children scandir self (AsStr s)
  = Ok (sorted (map (relative_child (PurePath.parts (PurePath.of_str s)))
                    (filter visible
                       (entries scandir (directory_of self (AsStr s)))))).
Proof.
  intros H; apply get_children_closed_form; simpl; now apply joinpath_under.
Qed.

End Discovery.

(** C6 — [get_children] (discoverMarkdown). A directory that does not exist
    gives the empty list and no error. For a directory under the
    documentation root the call returns a list that is ascending in the
    character-wise order of the whole relative path and holds, each exactly
    as often as listed, the entries of that one directory whose name ends in
    [.md] and does not begin with an underscore, as paths relative to the
    root; only that directory is read, so nothing below it is reached. The
    entries [b.md], [a.md], [c.md] come out as [a.md], [b.md], [c.md], an
    upper-case [B.md] comes before [a.md], and [_draft.md] is never in the
    output. *)
Theorem get_children_discovers_markdown
    (scandir : FileSystem) (self : AgregationUtils) (path : path_arg) :
  let dir := directory_of self path in
  (scandir dir = None -> get_children scandir self path = Ok [])
  /\ forall rel, under dir (tmpdir self) rel ->
     exists out,
       get_children scandir self path = Ok out
       /\ ascending out
       /\ Permutation out (map (relative_child rel)
                               (filter visible (entries scandir dir)))
       /\ (forall x, In x out <->
             exists n, In n (entries scandir dir)
                       /\ endswith ".md" n = true
                       /\ startswith "_" n = false
                       /\ x = relative_child rel n)
       /\ (forall other, ascending other -> Permutation other out -> other = out)
       /\ (forall scandir' : FileSystem,
             scandir' dir = scandir dir ->
             get_children scandir' self path = Ok out)
       /\ ~ In (relative_child rel "_draft.md") out
       /\ (entries scandir dir = ["b.md"; "a.md"; "c.md"] ->
           out = map (relative_child rel) ["a.md"; "b.md"; "c.md"])
       /\ (entries scandir dir = ["a.md"; "B.md"] ->
           out = map (relative_child rel) ["B.md"; "a.md"]).
Proof.
  intros dir; split.
  - intros Hnone; rewrite get_children_directory.
    now apply get_children_missing.
  - intros rel Hu.
    exists (sorted (map (relative_child rel) (filter visible (entries scandir dir)))).
    assert (Hin : forall x,
               In x (sorted (map (relative_child rel)
                                 (filter visible (entries scandir dir)))) <->
               exists n, In n (entries scandir dir)
                         /\ endswith ".md" n = true
                         /\ startswith "_" n = false
                         /\ x = relative_child rel n).
    { intros x; rewrite sorted_In, in_map_iff; split.
      - intros [n [<- Hn]]; apply filter_In in Hn as [Hn Hv].
        unfold visible in Hv; apply andb_true_iff in Hv as [He Hs].
        apply negb_true_iff in Hs; exists n; auto.
      - intros [n (Hn & He & Hs & ->)]; exists n; split; [reflexivity |].
        apply filter_In; split; [exact Hn |].
        unfold visible; now rewrite He, Hs. }
    repeat split.
    + now apply get_children_closed_form.
    + apply sorted_ascending.
    + apply Permutation_sym, sorted_perm.
    + apply Hin.
    + apply Hin.
    + intros other Ho Hp; apply ascending_unique; auto using sorted_ascending.
    + intros scandir' Hsame.
      rewrite (@get_children_closed_form scandir' self path rel Hu).
      unfold entries; fold dir; now rewrite Hsame.
    + intros Hd; apply Hin in Hd as [n (_ & _ & Hs & E)].
      apply relative_child_inj in E; subst n; discriminate.
    + intros E; rewrite E.
      replace (filter visible ["b.md"; "a.md"; "c.md"])
        with ["b.md"; "a.md"; "c.md"] by reflexivity.
      destruct (relative_child_prefix rel) as [pfx Hp].
      cbn [map sorted insert_sorted]; rewrite !Hp.
      cbn [insert_sorted]; rewrite ?leb_append_head.
      change (String.leb "a.md" "c.md") with true; cbn [insert_sorted].
      rewrite ?leb_append_head.
      change (String.leb "b.md" "a.md") with false.
      change (String.leb "b.md" "c.md") with true.
      reflexivity.
    + intros E; rewrite E.
      replace (filter visible ["a.md"; "B.md"]) with ["a.md"; "B.md"]
        by reflexivity.
      destruct (relative_child_prefix rel) as [pfx Hp].
      cbn [map sorted insert_sorted]; rewrite !Hp.
      cbn [insert_sorted]; rewrite ?leb_append_head.
      reflexivity.
Qed.

(** C6, at the fixture tree: the directory [pulpcore/docs/user/tutorials]
    holding [b.md], [a.md], [c.md] and a sub-directory, and a directory that
    does not exist. *)
Lemma get_children_discovers_markdown_witness :
  get_children Fixtures.tree Fixtures.utils (AsStr "pulpcore/docs/user/tutorials")
  = Ok ["pulpcore/docs/user/tutorials/a.md";
        "pulpcore/docs/user/tutorials/b.md";
        "pulpcore/docs/user/tutorials/c.md"]
  /\ get_children Fixtures.tree Fixtures.utils (AsStr "pulpcore/docs/user/learn")
     = Ok [].
Proof.
  split.
  - destruct (get_children_discovers_markdown Fixtures.tree Fixtures.utils
                (AsStr "pulpcore/docs/user/tutorials")) as [_ H].
    destruct (H ["pulpcore"; "docs"; "user"; "tutorials"])
      as [out (Hout & _)].
    + split; reflexivity.
    + rewrite Hout; f_equal.
      vm_compute in Hout; injection Hout as <-; reflexivity.
  - apply (get_children_discovers_markdown Fixtures.tree Fixtures.utils
             (AsStr "pulpcore/docs/user/learn")).
    reflexivity.
Defined.

(* ================================================================== *)
(** * The repository set *)

(** C9 — [Repos.all] is the primary repository, then the content
    repositories in their given order, then the auxiliary ones in theirs: the
    primary is first, position [i + 1] holds the [i]-th content repository,
    and the auxiliary repositories follow the last content one. *)
Theorem all_primary_content_auxiliary (rs : Repos) :
  all rs = core_repo rs :: content_repos rs ++ other_repos rs
  /\ hd_error (all rs) = Some (core_repo rs)
  /\ firstn (length (content_repos rs)) (tl (all rs)) = content_repos rs
  /\ skipn (length (content_repos rs)) (tl (all rs)) = other_repos rs
  /\ (forall i, i < length (content_repos rs) ->
        nth_error (all rs) (S i) = nth_error (content_repos rs) i)
  /\ (forall j, nth_error (all rs) (S (length (content_repos rs) + j))
                = nth_error (other_repos rs) j)
  /\ length (all rs)
     = 1 + length (content_repos rs) + length (other_repos rs).
Proof.
  unfold all; cbn [app hd_error tl].
  repeat split.
  - rewrite firstn_app, Nat.sub_diag, firstn_all; cbn [firstn].
    apply app_nil_r.
  - rewrite skipn_app, Nat.sub_diag, skipn_all; reflexivity.
  - intros i Hi; cbn [nth_error]; now apply nth_error_app1.
  - intros j; cbn [nth_error].
    rewrite nth_error_app2 by lia; f_equal; lia.
  - cbn [length]; rewrite length_app; lia.
Qed.

Lemma new_Repo_entry (ty : string) (tn : string * string) :
  new_Repo (entry tn) ty = Ok (repo_of ty tn).
Proof. reflexivity. Qed.

(** C8 (as the code has it) — [from_yaml] raises when the [core] list of the
    repolist is empty, and when the file is missing; it reads only the first
    [core] entry; and for every choice of titles and names, colliding or not,
    it returns the [Repos] holding one repository per entry: names are never
    compared. *)
Theorem from_yaml_compares_no_names
    (primary : string * string) (more content other : list (string * string)) :
  from_yaml None = Raise ValueError
  /\ from_yaml (Some (repolist [] content other)) = Raise IndexError
  /\ from_yaml (Some (repolist (primary :: more) content other))
     = Ok (mkRepos (repo_of "core" primary)
                   (map (repo_of "content") content)
                   (map (repo_of "other") other))
  /\ from_yaml (Some (repolist [primary] [primary; primary] [primary]))
     = Ok (mkRepos (repo_of "core" primary)
                   [repo_of "content" primary; repo_of "content" primary]
                   [repo_of "other" primary]).
Proof.
  assert (Hmap : forall ty l,
             mapM (fun e => new_Repo e ty) (map entry l) = Ok (map (repo_of ty) l)).
  { intros ty l; rewrite (mapM_total _ (fun e =>
        match e with
        | YMap [(_, YStr n); (_, YStr t)] => repo_of ty (t, n)
        | _ => repo_of ty ("", "")
        end)).
    - rewrite map_map; f_equal; apply map_ext; intros [t n]; reflexivity.
    - intros e He; apply in_map_iff in He as [[t n] [<- _]]; reflexivity. }
  repeat split.
  unfold from_yaml, repolist; cbn [yaml_item dict_item dict_get String.eqb
    Ascii.eqb Bool.eqb bind map yaml_first yaml_iter].
  rewrite new_Repo_entry; cbn [bind].
  rewrite !Hmap; reflexivity.
Qed.

(** C8, as stated, fails: a repolist in which names collide is loaded
    without error. *)
Lemma from_yaml_accepts_colliding_names :
  exists rs, from_yaml (Some Fixtures.colliding_repolist) = Ok rs
             /\ map name (all rs) = ["pulpcore"; "pulp_rpm"; "pulp_rpm"; "pulpcore"]
             /\ ~ NoDup (map name (all rs)).
Proof.
  eexists; split; [reflexivity |]; split; [reflexivity |].
  cbn; intros H; inversion H as [| ? ? Hnot _]; subst.
  apply Hnot; right; right; left; reflexivity.
Qed.

Example from_yaml_without_primary :
  from_yaml (Some Fixtures.no_primary_repolist) = Raise IndexError.
Proof. reflexivity. Qed.

(* ================================================================== *)
(** * Selecting repositories by type *)

Section Selection.

Variable rs : Repos.

Lemma known_type_cases (t : string) :
  known_type t = true -> t = "content" \/ t = "other".
Proof.
  unfold known_type; intros H; apply orb_true_iff in H as [H | H];
    apply String.eqb_eq in H; auto.
Qed.

Lemma getattr_known (t : string) :
  known_type t = true ->
  getattr rs (t ++ "_repos") = Ok (AttrRepoList (bucket rs t)).
Proof.
  intros H; destruct (known_type_cases _ H) as [-> | ->]; reflexivity.
Qed.

Lemma getattr_unknown (t : string) :
  known_type t = false ->
  getattr rs (t ++ "_repos") = Raise (AttributeError (t ++ "_repos")).
Proof.
  unfold known_type; intros H; apply orb_false_iff in H as [Hc Ho].
  unfold getattr.
  rewrite (append_eqb_no_suffix t "_repos" "core_repo") by reflexivity.
  change "content_repos" with ("content" ++ "_repos")%string.
  rewrite append_eqb_tail, Hc.
  change "other_repos" with ("other" ++ "_repos")%string.
  rewrite append_eqb_tail, Ho.
  rewrite (append_eqb_no_suffix t "_repos" "all") by reflexivity.
  rewrite (append_eqb_no_suffix t "_repos" "update_local_checkouts") by reflexivity.
  rewrite (append_eqb_no_suffix t "_repos" "from_yaml") by reflexivity.
  rewrite (append_eqb_no_suffix t "_repos" "test_fixtures") by reflexivity.
  rewrite (endswith_append "__" t "_repos") by (cbn; lia).
  replace (endswith "__" "_repos") with false by reflexivity.
  rewrite andb_false_r; reflexivity.
Qed.

Lemma select_fold_known (types : list string) (acc : list Repo) :
  forallb known_type types = true ->
  foldM (select_step rs) types acc = Ok (acc ++ flat_map (bucket rs) types).
Proof.
  revert acc; induction types as [| t types IH]; intros acc H; cbn [foldM flat_map].
  - now rewrite app_nil_r.
  - cbn [forallb] in H; apply andb_true_iff in H as [Ht Hrest].
    unfold select_step at 1; rewrite (getattr_known _ Ht); cbn [bind extend].
    rewrite IH by exact Hrest; now rewrite app_assoc.
Qed.

Lemma select_fold_unknown (pre post : list string) (bad : string)
    (acc : list Repo) :
  forallb known_type pre = true ->
  known_type bad = false ->
  foldM (select_step rs) (pre ++ bad :: post) acc
  = Raise (AttributeError (bad ++ "_repos")).
Proof.
  revert acc; induction pre as [| t pre IH]; intros acc Hpre Hbad;
    cbn [app foldM].
  - unfold select_step at 1; rewrite (getattr_unknown _ Hbad); reflexivity.
  - cbn [forallb] in Hpre; apply andb_true_iff in Hpre as [Ht Hrest].
    unfold select_step at 1; rewrite (getattr_known _ Ht); cbn [bind extend].
    now apply IH.
Qed.

End Selection.

Lemma select_repos_nonempty (self : AgregationUtils) (types : list string) :
  types <> [] ->
  select_repos self (Some types) = foldM (select_step (repos self)) types [].
Proof. destruct types; [congruence | reflexivity]. Qed.

(** C10 — [repo_grouping] reads the attribute [<entry>_repos] of the [Repos]
    object for each entry of [repo_types]. When every entry is [content] or
    [other] every lookup succeeds and the selection is the concatenation of
    the named lists. At the first entry that is neither, [getattr] raises
    [AttributeError] for [<entry>_repos], and so do the selection and
    [repo_grouping] as a whole; [core] is such an entry, the field being
    [core_repo]. *)
Theorem repo_types_attribute_lookup
    (scandir : FileSystem) (self : AgregationUtils) (template_str : string)
    (content_types : option (list string)) (types : list string) :
  types <> [] ->
  (forallb known_type types = true ->
   select_repos self (Some types) = Ok (flat_map (bucket (repos self)) types))
  /\ (forall pre bad post,
        types = pre ++ bad :: post ->
        forallb known_type pre = true ->
        known_type bad = false ->
        getattr (repos self) (bad ++ "_repos")
        = Raise (AttributeError (bad ++ "_repos"))
        /\ select_repos self (Some types)
           = Raise (AttributeError (bad ++ "_repos"))
        /\ repo_grouping scandir self template_str (Some types) content_types
           = Raise (AttributeError (bad ++ "_repos")))
  /\ known_type "core" = false
  /\ getattr (repos self) "core_repos" = Raise (AttributeError "core_repos")
  /\ getattr (repos self) "core_repo" = Ok (AttrRepo (core_repo (repos self))).
Proof.
  intros Hne; split; [| split; [| repeat split]].
  - intros H; rewrite select_repos_nonempty by exact Hne.
    now rewrite select_fold_known.
  - intros pre bad post -> Hpre Hbad.
    assert (Hsel : select_repos self (Some (pre ++ bad :: post))
                   = Raise (AttributeError (bad ++ "_repos"))).
    { rewrite select_repos_nonempty by exact Hne.
      now apply select_fold_unknown. }
    split; [now apply getattr_unknown |].
    split; [exact Hsel |].
    unfold repo_grouping; rewrite Hsel; reflexivity.
Qed.

(** C10, at the fixture: [content] then [other] select the three plugin and
    auxiliary repositories, and [core] after [content] raises. *)
Lemma repo_types_attribute_lookup_witness :
  select_repos Fixtures.utils (Some ["content"; "other"])
  = Ok [Fixtures.rpm; Fixtures.deb; Fixtures.oci]
  /\ repo_grouping Fixtures.tree Fixtures.utils "{repo}/docs/user/{content}"
       (Some ["content"; "core"]) None
     = Raise (AttributeError "core_repos").
Proof.
  assert (Hne : forall a b : string, [a; b] <> []) by (intros a b H; discriminate H).
  split.
  - apply (proj1 (repo_types_attribute_lookup Fixtures.tree Fixtures.utils
                    "{repo}/docs/user/{content}" None (Hne "content" "other"))).
    reflexivity.
  - apply (proj1 (proj2 (repo_types_attribute_lookup Fixtures.tree Fixtures.utils
                    "{repo}/docs/user/{content}" None (Hne "content" "core")))
             ["content"] "core" []); reflexivity.
Defined.

(* ================================================================== *)
(** * Loops that fill a dictionary *)

Section KeyedFold.

Context {A V : Type}.
Variable key : A -> string.
Variable value : A -> result V.

Notation step := (keyed_step key value).

Lemma keyed_fold_total (l : list A) (acc : dict V) :
  (forall x, In x l -> exists v, value x = Ok v) ->
  exists d, foldM step l acc = Ok d.
Proof.
  revert acc; induction l as [| a l IH]; intros acc H; cbn [foldM].
  - now exists acc.
  - destruct (H a (or_introl eq_refl)) as [v Hv].
    unfold keyed_step at 1; rewrite Hv; cbn [bind].
    apply IH; intros x Hx; apply H; right; exact Hx.
Qed.

Lemma keyed_fold_cons (a : A) (l : list A) (acc d : dict V) :
  foldM step (a :: l) acc = Ok d ->
  exists v, value a = Ok v /\ foldM step l (dict_set (key a) v acc) = Ok d.
Proof.
  cbn [foldM]; intros H; apply bind_Ok in H as [acc' [Hstep Hrest]].
  unfold keyed_step in Hstep; apply bind_Ok in Hstep as [v [Hv Hset]].
  injection Hset as <-; eauto.
Qed.

(** Keys that no element carries keep their entry and their place. *)
Lemma keyed_fold_other (l : list A) (acc d : dict V) (k : string) :
  foldM step l acc = Ok d ->
  (forall y, In y l -> key y <> k) ->
  dict_get k d = dict_get k acc.
Proof.
  revert acc; induction l as [| a l IH]; intros acc H Hk.
  - cbn in H; now injection H as <-.
  - apply keyed_fold_cons in H as [v [_ H]].
    rewrite (IH _ H) by (intros y Hy; apply Hk; right; exact Hy).
    apply dict_get_set_other.
    intros E; apply (Hk a (or_introl eq_refl)); now symmetry.
Qed.

(** An element whose key no other element carries finds its value stored. *)
Lemma keyed_fold_get (l : list A) (acc d : dict V) (x : A) :
  foldM step l acc = Ok d ->
  In x l ->
  (forall y, In y l -> key y = key x -> y = x) ->
  exists v, value x = Ok v /\ dict_get (key x) d = Some v.
Proof.
  revert acc; induction l as [| a l IH]; intros acc H Hin Huniq; [contradiction |].
  apply keyed_fold_cons in H as [v [Hv H]].
  assert (Huniq' : forall y, In y l -> key y = key x -> y = x)
    by (intros y Hy; apply Huniq; right; exact Hy).
  destruct (existsb (fun y => (key y =? key x)%string) l) eqn:Hex.
  - apply existsb_exists in Hex as [y [Hy E]]; apply String.eqb_eq in E.
    rewrite (Huniq' y Hy E) in Hy; eauto.
  - destruct Hin as [-> | Hin].
    + exists v; split; [exact Hv |].
      rewrite (@keyed_fold_other _ _ _ (key x) H).
      * apply dict_get_set_same.
      * intros y Hy E.
        assert (existsb (fun y => (key y =? key x)%string) l = true)
          by (apply existsb_exists; exists y; split;
              [exact Hy | now apply String.eqb_eq]).
        congruence.
    + eauto.
Qed.

(** Every stored entry was there before or is the value of an element. *)
Lemma keyed_fold_origin (l : list A) (acc d : dict V) (k : string) (v : V) :
  foldM step l acc = Ok d ->
  dict_get k d = Some v ->
  dict_get k acc = Some v
  \/ exists x, In x l /\ key x = k /\ value x = Ok v.
Proof.
  revert acc; induction l as [| a l IH]; intros acc H Hget.
  - cbn in H; injection H as <-; now left.
  - apply keyed_fold_cons in H as [va [Hva H]].
    destruct (IH _ H Hget) as [Hacc | [x (Hx & Hk & Hv)]].
    + destruct (String.eqb_spec k (key a)) as [-> | Hne].
      * rewrite dict_get_set_same in Hacc; injection Hacc as <-.
        right; exists a; split; [left; reflexivity | auto].
      * rewrite dict_get_set_other in Hacc by exact Hne; now left.
    + right; exists x; split; [right; exact Hx | auto].
Qed.

(** Every element leaves an entry under its key. *)
Lemma keyed_fold_present (l : list A) (acc d : dict V) (k : string) :
  foldM step l acc = Ok d ->
  (exists x, In x l /\ key x = k) ->
  exists v, dict_get k d = Some v.
Proof.
  revert acc; induction l as [| a l IH]; intros acc H [x [Hin Hk]];
    [contradiction |].
  apply keyed_fold_cons in H as [v [Hv H]].
  destruct (existsb (fun y => (key y =? k)%string) l) eqn:Hex.
  - apply existsb_exists in Hex as [y [Hy E]]; apply String.eqb_eq in E.
    eauto.
  - assert (Hno : forall y, In y l -> key y <> k).
    { intros y Hy E.
      assert (existsb (fun y => (key y =? k)%string) l = true)
        by (apply existsb_exists; exists y; split;
            [exact Hy | now apply String.eqb_eq]).
      congruence. }
    destruct Hin as [-> | Hin].
    + exists v; rewrite (@keyed_fold_other _ _ _ k H Hno), <- Hk.
      apply dict_get_set_same.
    + exfalso; apply (Hno x Hin); exact Hk.
Qed.

End KeyedFold.

(* ================================================================== *)
(** * Reference grouping *)

Section Reference.

Variable scandir : FileSystem.
Variable self : AgregationUtils.

Lemma format_reference (n : string) :
  format "{repo}/docs/reference" [("repo", n)] = Ok (n ++ "/docs/reference")%string.
Proof. reflexivity. Qed.

Lemma reference_step (acc : dict nav) (repo : Repo) :
  (formatted <- format "{repo}/docs/reference" [("repo", name repo)] ;;
   let lookup_path :=
     PurePath.joinpath (tmpdir self) (PurePath.of_str formatted) in
   _repo_content <- get_children scandir self (AsPath lookup_path) ;;
   Ok (dict_set (title repo) (reference_section repo _repo_content) acc))
  = keyed_step title (reference_value scandir self) acc repo.
Proof.
  rewrite format_reference; cbn [bind].
  unfold keyed_step, reference_value; fold (reference_dir self repo).
  destruct (get_children scandir self (AsPath (reference_dir self repo)));
    reflexivity.
Qed.

Lemma repo_reference_grouping_fold :
  repo_reference_grouping scandir self
  = foldM (keyed_step title (reference_value scandir self)) (all (repos self)) [].
Proof.
  unfold repo_reference_grouping; apply foldM_ext.
  intros acc repo _; apply reference_step.
Qed.

Lemma reference_dir_under (repo : Repo) :
  slug (name repo) = true ->
  under (reference_dir self repo) (tmpdir self)
        (PurePath.parts (PurePath.of_str (name repo ++ "/docs/reference"))).
Proof. intros H; apply joinpath_under; now apply slug_relative. Qed.

Lemma reference_value_slug (repo : Repo) :
  slug (name repo) = true ->
  exists listing,
    get_children scandir self (AsPath (reference_dir self repo)) = Ok listing
    /\ reference_value scandir self repo = Ok (reference_section repo listing)
    /\ (scandir (reference_dir self repo) = None -> listing = []).
Proof.
  intros H; pose proof (reference_dir_under repo H) as Hu.
  unfold reference_value; rewrite (get_children_under scandir self Hu).
  eexists; split; [reflexivity |]; split; [reflexivity |].
  intros Hnone; unfold entries; rewrite Hnone; reflexivity.
Qed.

End Reference.

(** C7 — [repo_reference_grouping]. For repositories named by plain slugs
    the call returns a mapping in which every repository of [all], the
    primary included, has an entry under its title, and every entry is the
    list of exactly four sections of one repository, in this order: the
    [REST API] page link, the [Readme] link, [Code API] with the files
    discovered under [<repo>/docs/reference], and the [Changelog] link. No
    file or directory has to exist; when [docs/reference] is absent
    [Code API] is the empty list. A repository whose title no other
    repository shares finds its own four sections under it. *)
Theorem reference_grouping_four_sections
    (scandir : FileSystem) (self : AgregationUtils) :
  Forall (fun r => slug (name r) = true) (all (repos self)) ->
  exists _nav,
    repo_reference_grouping scandir self = Ok _nav
    /\ (forall r, In r (all (repos self)) ->
          exists v, dict_get (title r) _nav = Some v)
    /\ (forall t v, dict_get t _nav = Some v ->
          exists r listing,
            In r (all (repos self)) /\ title r = t
            /\ get_children scandir self (AsPath (reference_dir self r))
               = Ok listing
            /\ (scandir (reference_dir self r) = None -> listing = [])
            /\ v = NList
                     [NDict [("REST API", NStr (name r ++ "/docs/rest_api.md"))];
                      NDict [("Readme", NStr (name r ++ "/README.md"))];
                      NDict [("Code API", files listing)];
                      NDict [("Changelog", NStr (name r ++ "/CHANGELOG.md"))]])
    /\ (forall r, In r (all (repos self)) ->
          (forall r', In r' (all (repos self)) -> title r' = title r -> r' = r) ->
          exists listing,
            get_children scandir self (AsPath (reference_dir self r))
            = Ok listing
            /\ (scandir (reference_dir self r) = None -> listing = [])
            /\ dict_get (title r) _nav
               = Some (NList
                     [NDict [("REST API", NStr (name r ++ "/docs/rest_api.md"))];
                      NDict [("Readme", NStr (name r ++ "/README.md"))];
                      NDict [("Code API", files listing)];
                      NDict [("Changelog", NStr (name r ++ "/CHANGELOG.md"))]])).
Proof.
  intros Hslug; rewrite Forall_forall in Hslug.
  rewrite repo_reference_grouping_fold.
  destruct (keyed_fold_total title (reference_value scandir self)
              (all (repos self)) []) as [_nav Hnav].
  { intros r Hr.
    destruct (reference_value_slug scandir self r (Hslug r Hr))
      as [listing (_ & Hv & _)]; eauto. }
  exists _nav; split; [exact Hnav |]; split; [| split].
  - intros r Hr; eapply keyed_fold_present; eauto.
  - intros t v Hget.
    destruct (keyed_fold_origin title _ _ _ _ Hnav Hget) as [Hempty | [r (Hr & Ht & Hv)]];
      [discriminate |].
    destruct (reference_value_slug scandir self r (Hslug r Hr))
      as [listing (Hl & Hv' & Hnone)].
    exists r, listing; repeat split; auto.
    rewrite Hv' in Hv; injection Hv as <-; reflexivity.
  - intros r Hr Huniq.
    destruct (keyed_fold_get title _ _ _ Hnav Hr Huniq) as [v [Hv Hget]].
    destruct (reference_value_slug scandir self r (Hslug r Hr))
      as [listing (Hl & Hv' & Hnone)].
    exists listing; repeat split; auto.
    rewrite Hv' in Hv; injection Hv as <-; exact Hget.
Qed.

(** C7, at the fixture: four repositories, of which only [pulp_rpm] has a
    [docs/reference] directory. *)
Lemma reference_grouping_four_sections_witness :
  exists _nav,
    repo_reference_grouping Fixtures.tree Fixtures.utils = Ok _nav
    /\ dict_get "Rpm" _nav
       = Some (NList
                 [NDict [("REST API", NStr "pulp_rpm/docs/rest_api.md")];
                  NDict [("Readme", NStr "pulp_rpm/README.md")];
                  NDict [("Code API", NList [NStr "pulp_rpm/docs/reference/models.md"])];
                  NDict [("Changelog", NStr "pulp_rpm/CHANGELOG.md")]])
    /\ dict_get "Pulp Core" _nav
       = Some (NList
                 [NDict [("REST API", NStr "core/docs/rest_api.md")];
                  NDict [("Readme", NStr "core/README.md")];
                  NDict [("Code API", NList [])];
                  NDict [("Changelog", NStr "core/CHANGELOG.md")]]).
Proof.
  destruct (reference_grouping_four_sections Fixtures.tree Fixtures.utils)
    as [_nav [Hnav _]].
  - repeat constructor.
  - exists _nav; split; [exact Hnav |].
    vm_compute in Hnav; injection Hnav as <-; split; reflexivity.
Defined.

(* ================================================================== *)
(** * Quickstart extraction *)

Section Quickstart.

Lemma find_split {A : Type} (f : A -> bool) (l : list A) (x : A) :
  find f l = Some x ->
  exists before after,
    l = before ++ x :: after
    /\ Forall (fun y => f y = false) before
    /\ f x = true.
Proof.
  induction l as [| a l IH]; cbn [find]; intros H; [discriminate |].
  destruct (f a) eqn:Ha.
  - injection H as <-; exists [], l; repeat split; auto.
  - destruct (IH H) as (before & after & -> & Hb & Hx).
    exists (a :: before), after; repeat split; auto.
Qed.

Lemma list_remove_first (x : string) (before after : list string) :
  Forall (fun y => y <> x) before ->
  list_remove x (before ++ x :: after) = Ok (before ++ after).
Proof.
  induction before as [| y before IH]; intros H; cbn [app list_remove].
  - now rewrite String.eqb_refl.
  - inversion H as [| ? ? Hy Hrest]; subst.
    destruct (String.eqb_spec y x); [contradiction |].
    rewrite (IH Hrest); reflexivity.
Qed.

(** The extraction takes the first quickstart file out and keeps the others
    in place. *)
Lemma pop_quickstart_found (pathlist : list string) (q : string) :
  find is_quickstart pathlist = Some q ->
  exists before after,
    pathlist = before ++ q :: after
    /\ Forall (fun p => is_quickstart p = false) before
    /\ is_quickstart q = true
    /\ _pop_quickstart_from pathlist = Ok (Some q, before ++ after).
Proof.
  intros H; unfold _pop_quickstart_from; rewrite H.
  destruct (find_split _ _ H) as (before & after & -> & Hb & Hq).
  exists before, after; repeat split; auto.
  rewrite list_remove_first; [reflexivity |].
  eapply Forall_impl; [| exact Hb].
  intros p Hp ->; congruence.
Qed.

Lemma pop_quickstart_none (pathlist : list string) :
  find is_quickstart pathlist = None ->
  _pop_quickstart_from pathlist = Ok (None, pathlist).
Proof. intros H; unfold _pop_quickstart_from; now rewrite H. Qed.

Lemma pop_quickstart_total (pathlist : list string) :
  exists q rest, _pop_quickstart_from pathlist = Ok (q, rest).
Proof.
  destruct (find is_quickstart pathlist) as [q |] eqn:H.
  - destruct (pop_quickstart_found _ H) as (before & after & _ & _ & _ & E); eauto.
  - rewrite (pop_quickstart_none _ H); eauto.
Qed.

Lemma known_content_cases (c : string) :
  known_content c = true ->
  c = "guides" \/ c = "learn" \/ c = "tutorials" \/ c = "reference".
Proof.
  unfold known_content, DISPLAY_NAMES; cbn [dict_get].
  destruct (String.eqb_spec "guides" c); [auto |].
  destruct (String.eqb_spec "learn" c); [auto |].
  destruct (String.eqb_spec "tutorials" c); [auto |].
  destruct (String.eqb_spec "reference" c); [auto | discriminate].
Qed.

(** A content type other than [tutorials] leaves the [Quickstart] and
    [Tutorials] keys as they are. *)
Lemma store_other_content (inner : dict nav) (c : string)
    (discovered : list string) :
  known_content c = true ->
  c <> "tutorials" ->
  exists inner',
    store_content_type inner c discovered = Ok inner'
    /\ (forall k, k = "Quickstart" \/ k = "Tutorials" ->
          dict_get k inner' = dict_get k inner
          /\ key_index k inner' = key_index k inner).
Proof.
  intros Hk Hne; unfold store_content_type.
  destruct (pop_quickstart_total discovered) as (q & rest & ->); cbn [bind fst snd].
  assert (Hlow : (lower c =? "tutorials")%string = false).
  { destruct (known_content_cases _ Hk) as [-> | [-> | [-> | ->]]];
      [reflexivity | reflexivity | congruence | reflexivity]. }
  rewrite Hlow; cbn [andb].
  assert (Hsame : match q with Some _ => inner | None => inner end = inner)
    by (destruct q; reflexivity).
  rewrite Hsame.
  destruct rest as [| r rest]; [exists inner; split; auto |].
  destruct (known_content_cases _ Hk) as [-> | [-> | [-> | ->]]];
    try congruence; cbn [dict_item dict_get DISPLAY_NAMES bind];
    (eexists; split; [reflexivity |]);
    intros k [-> | ->];
    (split; [apply dict_get_set_other | apply key_index_set_other]);
    discriminate.
Qed.

(** The [tutorials] content type stores the quickstart file and what is left
    of the list. *)
Lemma store_tutorials (discovered : list string) (q : string) :
  find is_quickstart discovered = Some q ->
  exists before after,
    discovered = before ++ q :: after
    /\ Forall (fun p => is_quickstart p = false) before
    /\ forall inner,
         store_content_type inner "tutorials" discovered
         = Ok match before ++ after with
              | [] => dict_set "Quickstart" (NStr q) inner
              | _ :: _ =>
                  dict_set "Tutorials" (files (before ++ after))
                           (dict_set "Quickstart" (NStr q) inner)
              end.
Proof.
  intros H.
  destruct (pop_quickstart_found _ H) as (before & after & E & Hb & Hq & Hpop).
  exists before, after; split; [exact E |]; split; [exact Hb |].
  intros inner.
  unfold store_content_type; rewrite Hpop; cbn [bind fst snd truthy].
  change (lower "tutorials" =? "tutorials")%string with true.
  destruct (String.eqb_spec q "") as [-> | _]; [discriminate Hq |].
  cbn [andb negb].
  destruct (before ++ after); reflexivity.
Qed.

Lemma store_total (inner : dict nav) (c : string) (discovered : list string) :
  known_content c = true ->
  exists inner', store_content_type inner c discovered = Ok inner'.
Proof.
  intros Hk; unfold store_content_type.
  destruct (pop_quickstart_total discovered) as (q & rest & ->); cbn [bind fst snd].
  destruct rest as [| r rest]; [eauto |].
  unfold known_content in Hk; unfold dict_item.
  destruct (dict_get c DISPLAY_NAMES); [cbn [bind]; eauto | discriminate].
Qed.

Lemma dict_set_length_absent {V : Type} (k : string) (v : V) (d : dict V) :
  dict_get k d = None -> length (dict_set k v d) = S (length d).
Proof.
  induction d as [| [k' v'] d IH]; cbn [dict_get dict_set length]; [reflexivity |].
  destruct (k' =? k)%string; [discriminate |].
  intros H; cbn [length]; now rewrite IH.
Qed.

(** Storing the tutorials establishes the extracted state, from the state
    before and from itself. *)
Lemma tutorials_establish (q : string) (remaining : list string)
    (inner : dict nav) :
  untouched inner \/ extracted q remaining inner ->
  extracted q remaining
    match remaining with
    | [] => dict_set "Quickstart" (NStr q) inner
    | _ :: _ =>
        dict_set "Tutorials" (files remaining)
                 (dict_set "Quickstart" (NStr q) inner)
    end.
Proof.
  assert (Hqt : "Quickstart" <> "Tutorials") by discriminate.
  assert (Htq : "Tutorials" <> "Quickstart") by discriminate.
  unfold extracted, untouched, quickstart_first.
  intros [[HQ HT] | (HQ & HT & Hord)]; destruct remaining as [| r rem].
  - rewrite dict_get_set_same, dict_get_set_other, HT by exact Htq.
    repeat split; congruence.
  - rewrite dict_get_set_other, !dict_get_set_same by exact Hqt.
    repeat split; intros _.
    exists (length inner), (S (length inner)).
    rewrite key_index_set_other, !key_index_set_same, key_index_set_other
      by assumption.
    rewrite (key_index_absent _ _ HQ), (key_index_absent _ _ HT).
    rewrite (dict_set_length_absent _ _ _ HQ); auto.
  - rewrite dict_get_set_same, dict_get_set_other, HT by exact Htq.
    repeat split; congruence.
  - rewrite dict_get_set_other, !dict_get_set_same by exact Hqt.
    repeat split; intros _.
    destruct Hord as (i & j & Hi & Hj & Hij); [discriminate |].
    exists i, j.
    rewrite key_index_set_other, !key_index_set_same, key_index_set_other
      by assumption.
    rewrite Hi, Hj; auto.
Qed.

End Quickstart.

(* ================================================================== *)
(** * Grouping with content-type expansion *)

Section Expansion.

Variable scandir : FileSystem.
Variable self : AgregationUtils.
Variable template_str : string.

Notation content_step repo := (group_content_type scandir self template_str repo).

Lemma content_fold_total (repo : Repo) (types : list string) (inner : dict nav) :
  forallb known_content types = true ->
  (forall c, In c types ->
     is_ok (discover scandir self template_str repo c) = true) ->
  exists inner', foldM (content_step repo) types inner = Ok inner'.
Proof.
  revert inner; induction types as [| c types IH]; intros inner Hk Hd;
    cbn [foldM]; [eauto |].
  cbn [forallb] in Hk; apply andb_true_iff in Hk as [Hc Hk].
  unfold group_content_type at 1.
  pose proof (Hd c (or_introl eq_refl)) as Hok.
  destruct (discover scandir self template_str repo c) as [dc | |];
    try discriminate Hok; cbn [bind].
  destruct (store_total inner c dc Hc) as [inner1 ->]; cbn [bind].
  apply IH; [exact Hk |].
  intros c' Hc'; apply Hd; right; exact Hc'.
Qed.

(** Over the content types of one repository, the stored tutorials survive
    every other content type. *)
Lemma content_fold_extracted (repo : Repo) (discovered : list string)
    (q : string) (remaining : list string) (types : list string)
    (inner inner' : dict nav) :
  discover scandir self template_str repo "tutorials" = Ok discovered ->
  (forall d, store_content_type d "tutorials" discovered
             = Ok match remaining with
                  | [] => dict_set "Quickstart" (NStr q) d
                  | _ :: _ =>
                      dict_set "Tutorials" (files remaining)
                               (dict_set "Quickstart" (NStr q) d)
                  end) ->
  forallb known_content types = true ->
  foldM (content_step repo) types inner = Ok inner' ->
  untouched inner \/ extracted q remaining inner ->
  extracted q remaining inner'
  \/ (untouched inner /\ untouched inner' /\ ~ In "tutorials" types).
Proof.
  intros Hdisc Hstore; revert inner.
  induction types as [| c types IH]; intros inner Hk Hfold Hinv.
  - cbn in Hfold; injection Hfold as <-.
    destruct Hinv; [right; auto | left; auto].
  - cbn [forallb] in Hk; apply andb_true_iff in Hk as [Hc Hk].
    cbn [foldM] in Hfold; apply bind_Ok in Hfold as [inner1 [Hstep Hrest]].
    unfold group_content_type in Hstep.
    apply bind_Ok in Hstep as [dc [Hdc Hst]].
    destruct (String.eqb_spec c "tutorials") as [-> | Hne].
    + rewrite Hdisc in Hdc; injection Hdc as <-.
      rewrite Hstore in Hst; injection Hst as <-.
      assert (Hest := tutorials_establish (q := q) (remaining := remaining) Hinv).
      destruct (IH _ Hk Hrest (or_intror Hest)) as [Hdone | [[HQ _] _]];
        [left; exact Hdone |].
      destruct Hest as [HQ' _]; congruence.
    + destruct (store_other_content inner dc Hc Hne) as [inner1' [E Hkeep]].
      rewrite E in Hst; injection Hst as ->.
      destruct (Hkeep "Quickstart" (or_introl eq_refl)) as [GQ IQ].
      destruct (Hkeep "Tutorials" (or_intror eq_refl)) as [GT IT].
      assert (Hinv1 : untouched inner1 \/ extracted q remaining inner1).
      { destruct Hinv as [[HQ HT] | (HQ & HT & Hord)].
        - left; split; congruence.
        - right; split; [congruence |]; split; [congruence |].
          intros Hr; destruct (Hord Hr) as (i & j & Hi & Hj & Hij).
          exists i, j; repeat split; congruence. }
      destruct (IH _ Hk Hrest Hinv1) as [Hdone | ([HQ1 HT1] & Hun & Hnot)];
        [left; exact Hdone |].
      right; split; [split; congruence |]; split; [exact Hun |].
      intros [E' | Hin]; [congruence | contradiction].
Qed.

Lemma group_repo_expanded_keyed (types : list string) (acc : dict nav)
    (repo : Repo) :
  group_repo_expanded scandir self template_str types acc repo
  = keyed_step title (expanded_value scandir self template_str types) acc repo.
Proof.
  unfold group_repo_expanded, keyed_step, expanded_value.
  destruct (foldM (content_step repo) types []); cbn [bind]; try reflexivity.
  now rewrite dict_set_set.
Qed.

Lemma repo_grouping_expanded (repo_types content_types : option (list string)) :
  contains "{content}" template_str = true ->
  repo_grouping scandir self template_str repo_types content_types
  = (selected_repos <- select_repos self repo_types ;;
     foldM (keyed_step title
              (expanded_value scandir self template_str
                 (select_content content_types)))
           selected_repos []).
Proof.
  intros H; unfold repo_grouping; rewrite H; cbn [negb].
  apply bind_ext; intros selected; apply foldM_ext.
  intros acc repo _; apply group_repo_expanded_keyed.
Qed.

End Expansion.

(** Letter case through the whole call: [Quick-Start.md] is taken for the
    quickstart, while [QuickStart.MD] is not discovered at all, the pattern
    [*.md] being matched with case. *)
Example quickstart_mixed_case :
  repo_grouping Fixtures.tree Fixtures.utils "{repo}/docs/dev/{content}"
    (Some ["content"]) (Some ["tutorials"])
  = Ok [("Rpm",
         NDict [("Quickstart", NStr "pulp_rpm/docs/dev/tutorials/Quick-Start.md");
                ("Tutorials", NList [NStr "pulp_rpm/docs/dev/tutorials/setup.md"])]);
        ("Deb", NDict [])].
Proof. reflexivity. Qed.

(** C1, at a failing input — [pulp_deb] has no file under any content type
    and [pulp_rpm] has none under [docs/admin]. With the [{content}]
    template both repositories are keys of the result, each with the empty
    mapping; without expansion, on the same tree, a repository without files
    is left out. *)
Lemma empty_repository_kept_when_expanding :
  repo_grouping Fixtures.tree Fixtures.utils "{repo}/docs/admin/{content}"
    (Some ["content"]) (Some ["guides"])
  = Ok [("Rpm", NDict []); ("Deb", NDict [])]
  /\ repo_grouping Fixtures.tree Fixtures.utils "{repo}/docs/user/{content}"
       (Some ["content"]) (Some ["guides"])
     = Ok [("Rpm", NDict [("How-to", NList [NStr "pulp_rpm/docs/user/guides/x.md"])]);
           ("Deb", NDict [])]
  /\ repo_grouping Fixtures.tree Fixtures.utils "{repo}/docs/admin/guides"
       (Some ["content"]) None
     = Ok []
  /\ repo_grouping Fixtures.tree Fixtures.utils "{repo}/docs/user/guides"
       (Some ["content"]) None
     = Ok [("Rpm", NList [NStr "pulp_rpm/docs/user/guides/quickstart.md";
                          NStr "pulp_rpm/docs/user/guides/x.md"])].
Proof. repeat split. Qed.

(** C3, at a failing input — the user guides of [pulp_rpm] hold
    [quickstart.md] and [x.md]. [get_children] discovers both; after
    [repo_grouping] with the [{content}] template the [How-to] list holds
    [x.md] alone and no [Quickstart] key records the other file. *)
Lemma guides_quickstart_dropped :
  get_children Fixtures.tree Fixtures.utils (AsStr "pulp_rpm/docs/user/guides")
  = Ok ["pulp_rpm/docs/user/guides/quickstart.md";
        "pulp_rpm/docs/user/guides/x.md"]
  /\ store_content_type [] "guides"
       ["pulp_rpm/docs/user/guides/quickstart.md";
        "pulp_rpm/docs/user/guides/x.md"]
     = Ok [("How-to", NList [NStr "pulp_rpm/docs/user/guides/x.md"])]
  /\ exists inner,
       repo_grouping Fixtures.tree Fixtures.utils "{repo}/docs/user/{content}"
         (Some ["content"]) (Some ["guides"])
       = Ok [("Rpm", NDict inner); ("Deb", NDict [])]
       /\ dict_get "How-to" inner
          = Some (NList [NStr "pulp_rpm/docs/user/guides/x.md"])
       /\ dict_get "Quickstart" inner = None.
Proof.
  split; [reflexivity |]; split; [reflexivity |].
  eexists; split; [reflexivity |]; split; reflexivity.
Qed.

(* ================================================================== *)
(** * Template and content types *)

(** C4 (as the code has it) — [repo_grouping] never compares the template
    with the content types it is given. Called without content types, or with
    the empty list, it takes [tutorials], [guides], [learn], whether or not
    the template holds [{content}]; and when the template does not hold
    [{content}], the content types it is given change nothing: the result is
    that of the grouping without expansion. *)
Theorem content_types_not_checked
    (scandir : FileSystem) (self : AgregationUtils) (template_str : string)
    (repo_types content_types : option (list string)) :
  repo_grouping scandir self template_str repo_types None
  = repo_grouping scandir self template_str repo_types
      (Some ["tutorials"; "guides"; "learn"])
  /\ repo_grouping scandir self template_str repo_types (Some [])
     = repo_grouping scandir self template_str repo_types None
  /\ (contains "{content}" template_str = false ->
      repo_grouping scandir self template_str repo_types content_types
      = repo_grouping scandir self template_str repo_types None
      /\ repo_grouping scandir self template_str repo_types content_types
         = (selected_repos <- select_repos self repo_types ;;
            foldM (group_repo scandir self template_str) selected_repos [])).
Proof.
  split; [reflexivity |]; split; [reflexivity |].
  intros H; unfold repo_grouping; rewrite H; split; reflexivity.
Qed.

(** C4, at the fixture: content types given to a template without
    [{content}] are ignored, and the call returns. *)
Lemma content_types_not_checked_witness :
  repo_grouping Fixtures.tree Fixtures.utils "{repo}/docs/user/guides"
    (Some ["content"]) (Some ["tutorials"; "learn"])
  = Ok [("Rpm", NList [NStr "pulp_rpm/docs/user/guides/quickstart.md";
                       NStr "pulp_rpm/docs/user/guides/x.md"])].
Proof.
  destruct (content_types_not_checked Fixtures.tree Fixtures.utils
              "{repo}/docs/user/guides" (Some ["content"])
              (Some ["tutorials"; "learn"])) as (_ & _ & H).
  destruct (H eq_refl) as [-> _]; reflexivity.
Defined.

(** C4, as stated, fails: a [{content}] template without content types, and
    content types with a template that lacks [{content}], both return. *)
Lemma template_mismatch_returns :
  contains "{content}" "{repo}/docs/user/{content}" = true
  /\ repo_grouping Fixtures.tree Fixtures.utils "{repo}/docs/user/{content}"
       (Some ["content"]) None
     = Ok [("Rpm",
            NDict [("Quickstart", NStr "pulp_rpm/docs/user/tutorials/quickstart.md");
                   ("Tutorials",
                    NList [NStr "pulp_rpm/docs/user/tutorials/advanced.md";
                           NStr "pulp_rpm/docs/user/tutorials/intro.md"]);
                   ("How-to", NList [NStr "pulp_rpm/docs/user/guides/x.md"])]);
           ("Deb", NDict [])]
  /\ contains "{content}" "{repo}/docs/user/guides" = false
  /\ repo_grouping Fixtures.tree Fixtures.utils "{repo}/docs/user/guides"
       (Some ["content"]) (Some ["guides"])
     = Ok [("Rpm", NList [NStr "pulp_rpm/docs/user/guides/quickstart.md";
                          NStr "pulp_rpm/docs/user/guides/x.md"])].
Proof. repeat split. Qed.

(* ================================================================== *)
(** * The persona-grouped builder *)

Section Builder.

Variable scandir : FileSystem.
Variable self : AgregationUtils.

Hypothesis slugs : Forall (fun r => slug (name r) = true) (all (repos self)).

Lemma get_children_relative_total (s : string) :
  startswith "/" s = false ->
  exists l, get_children scandir self (AsStr s) = Ok l.
Proof. intros H; rewrite (get_children_relative_str scandir self s H); eauto. Qed.

Lemma discover_slug (template_str : string) (repo : Repo) (c rest : string) :
  format template_str
    [("repo", name repo); ("admin", ADMIN_NAME); ("user", USER_NAME);
     ("content", c)]
  = Ok (name repo ++ rest)%string ->
  slug (name repo) = true ->
  is_ok (discover scandir self template_str repo c) = true.
Proof.
  intros Hf Hs; unfold discover; rewrite Hf; cbn [bind].
  rewrite (get_children_under scandir self
             (joinpath_under (tmpdir self) _ (slug_relative _ rest Hs))).
  reflexivity.
Qed.

Lemma bucket_in_all (t : string) (r : Repo) :
  In r (bucket (repos self) t) -> In r (all (repos self)).
Proof.
  unfold bucket, all; cbn [app In]; intros H; right; apply in_or_app.
  destruct (t =? "content")%string; [left | right]; exact H.
Qed.

Lemma repo_grouping_total (template_str t : string) :
  contains "{content}" template_str = true ->
  known_type t = true ->
  (forall r c, slug (name r) = true ->
     is_ok (discover scandir self template_str r c) = true) ->
  exists _nav,
    repo_grouping scandir self template_str (Some [t]) None = Ok _nav.
Proof.
  intros Hexp Ht Hd.
  rewrite (repo_grouping_expanded scandir self template_str (Some [t]) None Hexp).
  cbn [select_repos].
  rewrite (select_fold_known (repos self) [t] []) by (cbn; now rewrite Ht).
  cbn [bind app flat_map]; rewrite app_nil_r.
  apply keyed_fold_total; intros r Hr; unfold expanded_value.
  rewrite Forall_forall in slugs.
  destruct (content_fold_total scandir self template_str r
              (select_content None) []) as [inner ->];
    [reflexivity | | cbn [bind]; eauto].
  intros c _; apply Hd, slugs, (bucket_in_all t), Hr.
Qed.

Lemma builder_grouping_total (persona t : string) :
  In persona ["user"; "admin"; "dev"] ->
  known_type t = true ->
  exists _nav,
    repo_grouping scandir self ("{repo}/docs/" ++ persona ++ "/{content}")
      (Some [t]) None = Ok _nav.
Proof.
  intros Hp Ht.
  destruct Hp as [<- | [<- | [<- | []]]];
    (apply repo_grouping_total; [reflexivity | exact Ht |]);
    intros r c Hs; eapply discover_slug; try exact Hs; reflexivity.
Qed.

Lemma repo_reference_grouping_total :
  exists _nav, repo_reference_grouping scandir self = Ok _nav.
Proof.
  rewrite repo_reference_grouping_fold.
  apply keyed_fold_total; intros r Hr.
  rewrite Forall_forall in slugs.
  destruct (reference_value_slug scandir self r (slugs r Hr))
    as [listing (_ & Hv & _)]; eauto.
Qed.

End Builder.

(** C5 (as the code has it) — the fixed-root paths of the builder are
    rooted at the literal [pulpcore], whatever the primary repository is
    called: [section_file] returns [pulpcore/docs/sections/<relativeName>]
    without looking at the file system, [section_children] runs the
    discovery on that same root, and in the persona-grouped build the
    [Tutorial], [Learn] and [How-to] children of each [Getting Started] are
    what is discovered under [pulpcore/docs/<persona>/<content type>]. These
    are paths of the primary repository exactly when it is named
    [pulpcore]. *)
Theorem fixed_root_is_pulpcore (scandir : FileSystem) (self : AgregationUtils) :
  (forall rel, section_file self rel = ("pulpcore/docs/sections/" ++ rel)%string)
  /\ (forall s, section_children scandir self s
                = get_children scandir self
                    (AsStr ("pulpcore/docs/sections/" ++ s)%string))
  /\ (forall rel,
        section_file self rel
        = (name (core_repo (repos self)) ++ "/docs/sections/" ++ rel)%string
        <-> name (core_repo (repos self)) = "pulpcore")
  /\ (Forall (fun r => slug (name r) = true) (all (repos self)) ->
      exists tree,
        grouped_by_persona scandir self = Ok tree
        /\ forall manual persona,
             In (manual, persona)
                [("User Manual", "user"); ("Admin Manual", "admin");
                 ("Development", "dev")] ->
             forall label content,
               In (label, content)
                  [("Tutorial", "tutorials"); ("Learn", "learn");
                   ("How-to", "guides")] ->
               exists l,
                 get_children scandir self
                   (AsStr ("pulpcore/docs/" ++ persona ++ "/" ++ content)%string)
                 = Ok l
                 /\ descend [manual; "Getting Started"; label] tree
                    = Some (files l)).
Proof.
  split; [reflexivity |]; split; [reflexivity |]; split.
  { intros rel; split; [| intros ->; reflexivity].
    change (section_file self rel)
      with ("pulpcore" ++ ("/docs/sections/" ++ rel))%string.
    intros E; symmetry; eapply append_inv_tail; exact E. }
  intros Hs.
  destruct (get_children_relative_total scandir self
              "pulpcore/docs/user/tutorials" eq_refl) as [ut Hut].
  destruct (get_children_relative_total scandir self
              "pulpcore/docs/user/learn" eq_refl) as [ul Hul].
  destruct (get_children_relative_total scandir self
              "pulpcore/docs/user/guides" eq_refl) as [ug Hug].
  destruct (get_children_relative_total scandir self
              "pulpcore/docs/admin/tutorials" eq_refl) as [at_ Hat].
  destruct (get_children_relative_total scandir self
              "pulpcore/docs/admin/learn" eq_refl) as [al Hal].
  destruct (get_children_relative_total scandir self
              "pulpcore/docs/admin/guides" eq_refl) as [ag Hag].
  destruct (get_children_relative_total scandir self
              "pulpcore/docs/dev/tutorials" eq_refl) as [dt Hdt].
  destruct (get_children_relative_total scandir self
              "pulpcore/docs/dev/learn" eq_refl) as [dl Hdl].
  destruct (get_children_relative_total scandir self
              "pulpcore/docs/dev/guides" eq_refl) as [dg Hdg].
  destruct (@builder_grouping_total scandir self Hs "user" "content")
    as [up Hup]; [cbn; auto | reflexivity |].
  destruct (@builder_grouping_total scandir self Hs "user" "other")
    as [ue Hue]; [cbn; auto | reflexivity |].
  destruct (@builder_grouping_total scandir self Hs "admin" "content")
    as [ap Hap]; [cbn; auto | reflexivity |].
  destruct (@builder_grouping_total scandir self Hs "admin" "other")
    as [ae Hae]; [cbn; auto | reflexivity |].
  destruct (@builder_grouping_total scandir self Hs "dev" "content")
    as [dp Hdp]; [cbn; auto | reflexivity |].
  destruct (@builder_grouping_total scandir self Hs "dev" "other")
    as [de Hde]; [cbn; auto | reflexivity |].
  destruct (@repo_reference_grouping_total scandir self Hs) as [refs Hrefs].
  cbn [append] in Hup, Hue, Hap, Hae, Hdp, Hde.
  unfold grouped_by_persona; cbv zeta.
  rewrite Hut, Hul, Hug, Hup, Hue, Hat, Hal, Hag, Hap, Hae, Hrefs,
    Hdt, Hdl, Hdg, Hdp, Hde.
  cbn [bind].
  eexists; split; [reflexivity |].
  intros manual persona Hm label content Hl.
  destruct Hm as [E | [E | [E | []]]]; injection E as <- <-;
    (destruct Hl as [E | [E | [E | []]]]; injection E as <- <-);
    first [ exists ut; split; [exact Hut | reflexivity]
          | exists ul; split; [exact Hul | reflexivity]
          | exists ug; split; [exact Hug | reflexivity]
          | exists at_; split; [exact Hat | reflexivity]
          | exists al; split; [exact Hal | reflexivity]
          | exists ag; split; [exact Hag | reflexivity]
          | exists dt; split; [exact Hdt | reflexivity]
          | exists dl; split; [exact Hdl | reflexivity]
          | exists dg; split; [exact Hdg | reflexivity] ].
Qed.

(** C5, at the fixture, whose primary repository is named [core]: the
    build returns and the user [Tutorial] children are those of [pulpcore]. *)
Lemma fixed_root_is_pulpcore_witness :
  exists tree,
    grouped_by_persona Fixtures.tree Fixtures.utils = Ok tree
    /\ descend ["User Manual"; "Getting Started"; "Tutorial"] tree
       = Some (files ["pulpcore/docs/user/tutorials/a.md";
                      "pulpcore/docs/user/tutorials/b.md";
                      "pulpcore/docs/user/tutorials/c.md"]).
Proof.
  destruct (fixed_root_is_pulpcore Fixtures.tree Fixtures.utils)
    as (_ & _ & _ & H).
  destruct H as [tree [Htree Hgs]]; [repeat constructor |].
  exists tree; split; [exact Htree |].
  destruct (Hgs "User Manual" "user" (or_introl eq_refl)
              "Tutorial" "tutorials" (or_introl eq_refl)) as [l [Hl Hd]].
  rewrite Hd; f_equal.
  vm_compute in Hl; injection Hl as <-; reflexivity.
Defined.

(** C5, as stated, fails: with the primary repository named [core],
    [section_file] does not answer a path under [core], and the user
    [Tutorial] children are not the tutorials of [core]. *)
Lemma fixed_root_ignores_primary_name :
  name (core_repo (repos Fixtures.utils)) = "core"
  /\ section_file Fixtures.utils "help/index.md"
     = "pulpcore/docs/sections/help/index.md"
  /\ section_file Fixtures.utils "help/index.md"
     <> (name (core_repo (repos Fixtures.utils)) ++ "/docs/sections/"
         ++ "help/index.md")%string
  /\ get_children Fixtures.tree Fixtures.utils (AsStr "core/docs/user/tutorials")
     = Ok ["core/docs/user/tutorials/core-intro.md"]
  /\ exists tree,
       grouped_by_persona Fixtures.tree Fixtures.utils = Ok tree
       /\ descend ["User Manual"; "Getting Started"; "Tutorial"] tree
          = Some (files ["pulpcore/docs/user/tutorials/a.md";
                         "pulpcore/docs/user/tutorials/b.md";
                         "pulpcore/docs/user/tutorials/c.md"]).
Proof.
  split; [reflexivity |]; split; [reflexivity |]; split; [discriminate |].
  split; [reflexivity |].
  eexists; split; [vm_compute; reflexivity | reflexivity].
Qed.

(* ================================================================== *)
(** * Further properties: extraction and path strings *)

Section SplitFacts.

Lemma split_nonempty (sep : ascii) (s : string) : split sep s <> [].
Proof.
  destruct s as [| c s]; cbn [split]; [discriminate |].
  destruct (Ascii.eqb c sep); [discriminate |].
  destruct (split sep s); discriminate.
Qed.

(** Splitting at a separator splits the list of segments. *)
Lemma split_app_sep (sep : ascii) (a b : string) :
  split sep (a ++ String sep b) = split sep a ++ split sep b.
Proof.
  induction a as [| c a IH]; cbn [append split app].
  - now rewrite Ascii.eqb_refl.
  - destruct (Ascii.eqb c sep); [now rewrite IH |].
    rewrite IH.
    destruct (split sep a) as [| h t] eqn:E;
      [now apply split_nonempty in E | reflexivity].
Qed.

Lemma split_no_slash (f : string) : no_slash f = true -> split "/" f = [f].
Proof.
  induction f as [| c f IH]; cbn [no_slash split]; [reflexivity |].
  intros H; apply andb_true_iff in H as [Hc Hf].
  apply negb_true_iff in Hc; rewrite Hc, (IH Hf); reflexivity.
Qed.

Lemma last_app_nonempty {A : Type} (l1 l2 : list A) (d : A) :
  l2 <> [] -> last (l1 ++ l2) d = last l2 d.
Proof.
  intros H; induction l1 as [| x l1 IH]; [reflexivity |].
  cbn [app]; destruct (l1 ++ l2) eqn:E; [| exact IH].
  apply app_eq_nil in E as [_ ->]; contradiction.
Qed.

Lemma last_segment_app (d f : string) :
  last (split "/" (d ++ "/" ++ f)) "" = last (split "/" f) "".
Proof.
  cbn [append]; rewrite split_app_sep.
  apply last_app_nonempty, split_nonempty.
Qed.

End SplitFacts.

(** X1 — [_pop_quickstart_from] never raises: the [ValueError] of
    [list.remove] cannot occur. It takes out at most one path, the first one
    whose file name is a quickstart name, and leaves every other path in its
    place; when there is no such path the list comes back as it was. *)
Theorem pop_quickstart_conserves (pathlist : list string) :
  exists found rest,
    _pop_quickstart_from pathlist = Ok (found, rest)
    /\ match found with
       | None =>
           rest = pathlist
           /\ Forall (fun p => is_quickstart p = false) pathlist
       | Some q =>
           is_quickstart q = true
           /\ Permutation pathlist (q :: rest)
           /\ S (length rest) = length pathlist
           /\ exists before after,
                pathlist = before ++ q :: after
                /\ rest = before ++ after
                /\ Forall (fun p => is_quickstart p = false) before
       end.
Proof.
  destruct (find is_quickstart pathlist) as [q |] eqn:H.
  - destruct (pop_quickstart_found _ H) as (before & after & E & Hb & Hq & Hpop).
    exists (Some q), (before ++ after); split; [exact Hpop |].
    split; [exact Hq |]; split; [| split].
    + rewrite E; apply Permutation_sym, Permutation_middle.
    + rewrite E, !length_app; cbn [length]; lia.
    + exists before, after; auto.
  - exists None, pathlist; split; [now apply pop_quickstart_none |].
    split; [reflexivity |].
    apply Forall_forall; intros p Hp; exact (find_none _ _ H p Hp).
Qed.

(** X2 — the quickstart test looks at the last segment of a path only: the
    directory part never matters. For a file name without a slash it holds
    exactly when the name, in lower case, is [quickstart.md] or
    [quick-start.md]. *)
Theorem is_quickstart_last_segment (d f : string) :
  is_quickstart (d ++ "/" ++ f) = is_quickstart f
  /\ (no_slash f = true ->
      is_quickstart (d ++ "/" ++ f)
      = ((lower f =? "quickstart.md")%string
         || (lower f =? "quick-start.md")%string)).
Proof.
  assert (H : is_quickstart (d ++ "/" ++ f) = is_quickstart f)
    by (unfold is_quickstart; now rewrite last_segment_app).
  split; [exact H |].
  intros Hf; rewrite H; unfold is_quickstart.
  rewrite (split_no_slash _ Hf); reflexivity.
Qed.

(** X2, on a directory that is itself called [quickstart.md] and on a
    mixed-case file name. *)
Lemma is_quickstart_last_segment_witness :
  is_quickstart ("docs/quickstart.md" ++ "/" ++ "intro.md") = false
  /\ is_quickstart ("pulp_rpm/docs/user/tutorials" ++ "/" ++ "Quick-Start.MD")
     = true.
Proof.
  split.
  - rewrite (proj2 (is_quickstart_last_segment "docs/quickstart.md" "intro.md"));
      reflexivity.
  - rewrite (proj2 (is_quickstart_last_segment "pulp_rpm/docs/user/tutorials"
                      "Quick-Start.MD")); reflexivity.
Defined.

Section SectionPaths.

Lemma filter_component_nil_r (l : list string) :
  filter PurePath.component (l ++ [""]) = filter PurePath.component l.
Proof. rewrite filter_app; cbn; apply app_nil_r. Qed.

(** The directory of a section: the fixed root, then the components of the
    section name. *)
Lemma of_str_section (y : string) :
  PurePath.of_str ("pulpcore/docs/sections" ++ "/" ++ y)
  = PurePath.mkPath ""
      (["pulpcore"; "docs"; "sections"]
       ++ filter PurePath.component (split "/" y)).
Proof.
  reflexivity.
Qed.

Lemma section_children_components (scandir : FileSystem)
    (self : AgregationUtils) (x y : string) :
  filter PurePath.component (split "/" x)
  = filter PurePath.component (split "/" y) ->
  section_children scandir self x = section_children scandir self y.
Proof.
  intros H; unfold section_children, get_children.
  now rewrite !of_str_section, H.
Qed.

End SectionPaths.

(** X3 — [section_children] reads its section name as path components: a
    leading slash, a trailing slash, a doubled slash and a [.] component
    change nothing. The name [/development/guides/] used by
    [grouped_by_content_type] lists the directory of [development/guides]
    under the fixed root. *)
Theorem section_children_ignores_slashes
    (scandir : FileSystem) (self : AgregationUtils) (x y : string) :
  section_children scandir self ("/" ++ x) = section_children scandir self x
  /\ section_children scandir self (x ++ "/") = section_children scandir self x
  /\ section_children scandir self ("./" ++ x) = section_children scandir self x
  /\ section_children scandir self (x ++ "//" ++ y)
     = section_children scandir self (x ++ "/" ++ y)
  /\ section_children scandir self "/development/guides/"
     = get_children scandir self (AsStr "pulpcore/docs/sections/development/guides").
Proof.
  split; [| split; [| split; [| split]]].
  - apply section_children_components; reflexivity.
  - apply section_children_components.
    rewrite split_app_sep; apply filter_component_nil_r.
  - apply section_children_components; reflexivity.
  - apply section_children_components.
    change (x ++ "//" ++ y)%string with (x ++ String "/" (String "/" y))%string.
    change (x ++ "/" ++ y)%string with (x ++ String "/" y)%string.
    rewrite !split_app_sep, !filter_app; reflexivity.
  - reflexivity.
Qed.

(* ================================================================== *)
(** * Further properties: discovery *)

Section DiscoveryFacts.

Lemma strip_prefix_diverge (pre l ext : list string) :
  diverge pre l = true -> PurePath.strip_prefix pre (l ++ ext) = None.
Proof.
  revert l; induction pre as [| x pre IH]; intros [| y l]; cbn; try discriminate.
  destruct (x =? y)%string; [apply IH | reflexivity].
Qed.

Lemma relative_to_outside (p base : Path) (n : string) :
  outside p base ->
  PurePath.relative_to
    (PurePath.mkPath (PurePath.root p) (PurePath.parts p ++ [n])) base
  = Raise ValueError.
Proof.
  unfold PurePath.relative_to; cbn [PurePath.root PurePath.parts].
  intros [Hroot | Hdiv].
  - destruct (String.eqb_spec (PurePath.root p) (PurePath.root base));
      [contradiction | reflexivity].
  - rewrite (strip_prefix_diverge _ _ _ Hdiv).
    destruct (PurePath.root p =? PurePath.root base)%string; reflexivity.
Qed.

Lemma mapM_all_raise {A B : Type} (f : A -> result B) (e : exn) (l : list A) :
  (forall x, In x l -> f x = Raise e) ->
  mapM f l = match l with [] => Ok [] | _ :: _ => Raise e end.
Proof.
  destruct l as [| x l]; intros H; cbn [mapM]; [reflexivity |].
  now rewrite (H x (or_introl eq_refl)).
Qed.

(** The list [get_children] maps over, in terms of the entries. *)
Lemma get_children_unfold (scandir : FileSystem) (self : AgregationUtils)
    (path : path_arg) :
  get_children scandir self path
  = (result <- mapM (fun file =>
                       rel <- PurePath.relative_to file (tmpdir self) ;;
                       Ok (PurePath.str rel))
                    (map (fun n =>
                            PurePath.mkPath
                              (PurePath.root (directory_of self path))
                              (PurePath.parts (directory_of self path) ++ [n]))
                         (filter visible
                            (entries scandir (directory_of self path)))) ;;
     Ok (sorted result)).
Proof.
  rewrite get_children_directory; unfold get_children.
  now rewrite glob_md_entries, visible_children.
Qed.

Lemma filter_perm {A : Type} (f : A -> bool) (l l' : list A) :
  Permutation l l' -> Permutation (filter f l) (filter f l').
Proof.
  induction 1 as [| x l l' _ IH | x y l | l l' l'' _ IH1 _ IH2]; cbn [filter].
  - constructor.
  - destruct (f x); [constructor |]; exact IH.
  - destruct (f x), (f y); try apply Permutation_refl; apply perm_swap.
  - eapply perm_trans; eauto.
Qed.

Lemma map_NoDup_inj {A B : Type} (f : A -> B) (l : list A) :
  (forall x y, f x = f y -> x = y) -> NoDup l -> NoDup (map f l).
Proof.
  intros Hinj; induction 1 as [| x l Hx _ IH]; cbn [map]; constructor; auto.
  intros H; apply in_map_iff in H as [y [E Hy]].
  apply Hinj in E; subst; contradiction.
Qed.

Lemma endswith_length (p s : string) :
  endswith p s = true -> String.length p <= String.length s.
Proof.
  unfold endswith; intros H; apply andb_true_iff in H as [H _].
  now apply Nat.leb_le.
Qed.

(** With element results that are values or one and the same exception, a
    sorted comprehension does not depend on the order of its input. *)
Lemma sorted_mapM_perm {A : Type} (f : A -> result string) (e : exn)
    (l l' : list A) :
  (forall x, f x = Raise e \/ exists y, f x = Ok y) ->
  Permutation l l' ->
  (r <- mapM f l ;; Ok (sorted r)) = (r <- mapM f l' ;; Ok (sorted r)).
Proof.
  intros Hf Hp.
  set (g := fun x => match f x with Ok y => y | _ => EmptyString end).
  assert (Hraise : forall m, existsb (fun x => negb (is_ok (f x))) m = true ->
                             mapM f m = Raise e).
  { induction m as [| x m IH]; cbn [existsb mapM]; [discriminate |].
    destruct (Hf x) as [-> | [y ->]]; [reflexivity |].
    cbn [is_ok negb orb bind]; intros H; now rewrite (IH H). }
  assert (Hok : forall m, existsb (fun x => negb (is_ok (f x))) m = false ->
                          mapM f m = Ok (map g m)).
  { intros m H; apply mapM_total; intros x Hx.
    destruct (f x) as [y | e' |] eqn:E; unfold g; rewrite E; [reflexivity | |];
      exfalso;
      assert (existsb (fun x => negb (is_ok (f x))) m = true)
        by (apply existsb_exists; exists x; split; [exact Hx | now rewrite E]);
      congruence. }
  destruct (existsb (fun x => negb (is_ok (f x))) l) eqn:El.
  - assert (El' : existsb (fun x => negb (is_ok (f x))) l' = true).
    { apply existsb_exists in El as [x [Hx Hb]].
      apply existsb_exists; exists x; split; [| exact Hb].
      eapply Permutation_in; eauto. }
    now rewrite (Hraise _ El), (Hraise _ El').
  - assert (El' : existsb (fun x => negb (is_ok (f x))) l' = false).
    { destruct (existsb (fun x => negb (is_ok (f x))) l') eqn:E'; [| reflexivity].
      apply existsb_exists in E' as [x [Hx Hb]].
      assert (existsb (fun x => negb (is_ok (f x))) l = true)
        by (apply existsb_exists; exists x; split;
            [eapply Permutation_in; [apply Permutation_sym |]; eauto | exact Hb]).
      congruence. }
    rewrite (Hok _ El), (Hok _ El'); cbn [bind]; f_equal.
    apply ascending_unique; auto using sorted_ascending.
    eapply perm_trans; [apply Permutation_sym, sorted_perm |].
    eapply perm_trans; [| apply sorted_perm].
    now apply Permutation_map.
Qed.

End DiscoveryFacts.

(** X4 — a directory outside the documentation root: [get_children]
    raises [ValueError] as soon as the directory holds one markdown file
    that is not private, and returns the empty list when it holds none (or
    does not exist). *)
Theorem get_children_outside_root
    (scandir : FileSystem) (self : AgregationUtils) (path : path_arg) :
  outside (directory_of self path) (tmpdir self) ->
  get_children scandir self path
  = match filter visible (entries scandir (directory_of self path)) with
    | [] => Ok []
    | _ :: _ => Raise ValueError
    end.
Proof.
  intros Hout; rewrite get_children_unfold.
  rewrite (@mapM_all_raise _ _ _ ValueError).
  - destruct (filter visible (entries scandir (directory_of self path)));
      reflexivity.
  - intros file Hin; apply in_map_iff in Hin as [n [<- _]].
    now rewrite relative_to_outside.
Qed.

(** X4, on a tree with the directories [/srv/notes] and [/srv/empty], the
    root being [/tmp/docs]. *)
Lemma get_children_outside_root_witness :
  get_children Fixtures.foreign_tree Fixtures.utils (AsStr "/srv/notes")
  = Raise ValueError
  /\ get_children Fixtures.foreign_tree Fixtures.utils (AsStr "/srv/empty")
     = Ok [].
Proof.
  split.
  - rewrite (get_children_outside_root Fixtures.foreign_tree Fixtures.utils
               (AsStr "/srv/notes")); [reflexivity | right; reflexivity].
  - rewrite (get_children_outside_root Fixtures.foreign_tree Fixtures.utils
               (AsStr "/srv/empty")); [reflexivity | right; reflexivity].
Defined.

(** X5 — what [get_children] returns for a directory under the root: every
    path ends in [.md], there are no more paths than the directory has
    entries, and when the entry names are distinct no path is listed
    twice. *)
Theorem get_children_paths
    (scandir : FileSystem) (self : AgregationUtils) (path : path_arg)
    (rel : list string) :
  under (directory_of self path) (tmpdir self) rel ->
  exists out,
    get_children scandir self path = Ok out
    /\ Forall (fun x => endswith ".md" x = true) out
    /\ length out <= length (entries scandir (directory_of self path))
    /\ (NoDup (entries scandir (directory_of self path)) -> NoDup out).
Proof.
  intros Hu; rewrite (get_children_closed_form scandir self path Hu).
  eexists; split; [reflexivity |]; split; [| split].
  - apply Forall_forall; intros x Hx.
    apply sorted_In, in_map_iff in Hx as [n [<- Hn]].
    apply filter_In in Hn as [_ Hv]; unfold visible in Hv.
    apply andb_true_iff in Hv as [He _].
    destruct (relative_child_prefix rel) as [pfx Hp]; rewrite Hp.
    rewrite endswith_append; [exact He | now apply endswith_length].
  - rewrite <- (Permutation_length (sorted_perm _)), length_map.
    apply filter_length_le.
  - intros Hnd.
    eapply Permutation_NoDup; [apply sorted_perm |].
    apply map_NoDup_inj; [apply relative_child_inj | now apply NoDup_filter].
Qed.

(** X5, at the fixture tree. *)
Lemma get_children_paths_witness :
  exists out,
    get_children Fixtures.tree Fixtures.utils
      (AsStr "pulp_rpm/docs/user/tutorials") = Ok out
    /\ Forall (fun x => endswith ".md" x = true) out
    /\ length out <= 5.
Proof.
  destruct (get_children_paths Fixtures.tree Fixtures.utils
              (AsStr "pulp_rpm/docs/user/tutorials")
              (rel := ["pulp_rpm"; "docs"; "user"; "tutorials"]))
    as [out (H1 & H2 & H3 & _)]; [split; reflexivity |].
  exists out; auto.
Defined.

(** X6 — the result of [get_children] does not depend on the order in which
    the file system lists a directory: two file systems that give the same
    entries for it, in any order, give the same result, be it a list or the
    [ValueError]. *)
Theorem get_children_listing_order
    (scandir scandir' : FileSystem) (self : AgregationUtils) (path : path_arg) :
  Permutation (entries scandir (directory_of self path))
              (entries scandir' (directory_of self path)) ->
  get_children scandir self path = get_children scandir' self path.
Proof.
  intros Hp; rewrite !get_children_unfold.
  apply sorted_mapM_perm with (e := ValueError).
  - intros file; unfold PurePath.relative_to.
    destruct (PurePath.root file =? PurePath.root (tmpdir self))%string;
      [| left; reflexivity].
    destruct (PurePath.strip_prefix _ _); [right; eexists | left]; reflexivity.
  - apply Permutation_map, filter_perm, Hp.
Qed.

(** X6, on two listings of the same directory. *)
Lemma get_children_listing_order_witness :
  get_children Fixtures.shuffled_tree Fixtures.utils
    (AsStr "pulpcore/docs/user/tutorials")
  = Ok ["pulpcore/docs/user/tutorials/a.md";
        "pulpcore/docs/user/tutorials/b.md";
        "pulpcore/docs/user/tutorials/c.md"].
Proof.
  rewrite <- (get_children_listing_order Fixtures.tree Fixtures.shuffled_tree
                Fixtures.utils (AsStr "pulpcore/docs/user/tutorials")).
  - reflexivity.
  - change (Permutation ["b.md"; "a.md"; "c.md"; "sub"]
                        ["sub"; "c.md"; "b.md"; "a.md"]).
    apply (Permutation_trans (l' := ["sub"; "b.md"; "a.md"; "c.md"])).
    + apply Permutation_sym.
      apply (Permutation_cons_append ["b.md"; "a.md"; "c.md"] "sub").
    + apply perm_skip.
      apply (Permutation_trans (l' := ["c.md"; "b.md"; "a.md"]));
        [| apply Permutation_refl].
      apply Permutation_sym.
      apply (Permutation_cons_append ["b.md"; "a.md"] "c.md").
Defined.

(* ================================================================== *)
(** * Further properties: loading the repolist *)

Section LoadingFacts.

Lemma dict_get_absent_keys {V : Type} (k : string) (d : dict V) :
  existsb (String.eqb k) (dict_keys d) = false -> dict_get k d = None.
Proof.
  induction d as [| [k' v] d IH]; cbn [dict_keys map existsb dict_get fst];
    [reflexivity |].
  intros H; apply orb_false_iff in H as [Hk Hrest].
  rewrite String.eqb_sym, Hk; exact (IH Hrest).
Qed.

Lemma dict_get_key {V : Type} (k : string) (d : dict V) :
  dict_get k d = None -> ~ In k (dict_keys d).
Proof.
  induction d as [| [k' v] d IH]; cbn [dict_keys map dict_get fst In]; [tauto |].
  destruct (String.eqb_spec k' k); [discriminate |].
  intros H [E | Hin]; [contradiction | exact (IH H Hin)].
Qed.

Lemma dict_key_get {V : Type} (k : string) (d : dict V) :
  In k (dict_keys d) -> exists v, dict_get k d = Some v.
Proof.
  intros H; destruct (dict_get k d) as [v |] eqn:E; [eauto |].
  now apply dict_get_key in E.
Qed.

Lemma mapM_Forall2 {A B : Type} (f : A -> result B) (l : list A) (l' : list B) :
  mapM f l = Ok l' -> Forall2 (fun x y => f x = Ok y) l l'.
Proof.
  revert l'; induction l as [| x l IH]; intros l' H; cbn [mapM] in H.
  - injection H as <-; constructor.
  - apply bind_Ok in H as [y [Hy H]]; apply bind_Ok in H as [ys [Hys H]].
    injection H as <-; constructor; auto.
Qed.

(** What a successful [Repo(...)] call says about the entry. *)
Lemma new_Repo_Ok (e : yaml) (ty : string) (r : Repo) :
  new_Repo e ty = Ok r ->
  exists m,
    e = YMap m
    /\ existsb (String.eqb "type") (dict_keys m) = false
    /\ forallb (fun k => existsb (String.eqb k) Repo_fields) (dict_keys m) = true
    /\ keyword "title" m as_str = Ok (title r)
    /\ keyword "name" m as_str = Ok (name r)
    /\ keyword_or "owner" m as_str "pulp" = Ok (owner r)
    /\ keyword_or "branch" m as_str "main" = Ok (branch r)
    /\ type r = Some ty.
Proof.
  destruct e as [| s | l | m]; cbn [new_Repo]; try discriminate.
  destruct (existsb (String.eqb "type") (dict_keys m)) eqn:Et; [discriminate |].
  destruct (forallb _ (dict_keys m)) eqn:Ef; cbn [negb]; [| discriminate].
  intros H.
  apply bind_Ok in H as [t [Ht H]]; apply bind_Ok in H as [n [Hn H]].
  apply bind_Ok in H as [o [Ho H]]; apply bind_Ok in H as [b [Hb H]].
  apply bind_Ok in H as [lb [Hl H]]; injection H as <-.
  exists m; cbn; auto 10.
Qed.

Lemma as_str_Ok (y : yaml) (s : string) : as_str y = Ok s -> y = YStr s.
Proof. destruct y; cbn; intros H; try discriminate; now injection H as ->. Qed.

End LoadingFacts.

(** X7 — a repository built from a repolist entry: the entry is a mapping
    that holds the repository's title and name as strings, its keys are
    among [title], [name], [owner], [branch], [local_basepath], [status]
    ([type] is not accepted from the entry), the type is the one the caller
    passes, and owner and branch are [pulp] and [main] unless the entry
    gives them. *)
Theorem new_Repo_fields (e : yaml) (ty : string) (r : Repo) :
  new_Repo e ty = Ok r ->
  exists m,
    e = YMap m
    /\ dict_get "title" m = Some (YStr (title r))
    /\ dict_get "name" m = Some (YStr (name r))
    /\ type r = Some ty
    /\ dict_get "type" m = None
    /\ (forall k, In k (dict_keys m) -> In k entry_keywords)
    /\ (dict_get "owner" m = None -> owner r = "pulp")
    /\ (forall o, dict_get "owner" m = Some (YStr o) -> owner r = o)
    /\ (dict_get "branch" m = None -> branch r = "main")
    /\ (forall b, dict_get "branch" m = Some (YStr b) -> branch r = b).
Proof.
  intros H.
  destruct (new_Repo_Ok _ _ H) as (m & -> & Et & Ef & Ht & Hn & Ho & Hb & Hty).
  pose proof (dict_get_absent_keys _ _ Et) as Hnotype.
  exists m; split; [reflexivity |].
  unfold keyword in Ht, Hn; unfold keyword_or in Ho, Hb.
  split.
  { destruct (dict_get "title" m) as [y |]; [| discriminate].
    now rewrite (as_str_Ok _ Ht). }
  split.
  { destruct (dict_get "name" m) as [y |]; [| discriminate].
    now rewrite (as_str_Ok _ Hn). }
  split; [exact Hty |]; split; [exact Hnotype |]; split.
  { intros k Hk.
    rewrite forallb_forall in Ef; specialize (Ef k Hk).
    apply existsb_exists in Ef as [k' [Hin E]]; apply String.eqb_eq in E; subst k'.
    unfold Repo_fields in Hin; unfold entry_keywords.
    cbn [In] in *.
    destruct Hin as [<- | [<- | [<- | [<- | [<- | [<- | [<- | []]]]]]]]; auto 10.
    exfalso; now apply (dict_get_key _ _ Hnotype). }
  repeat split.
  - intros E; rewrite E in Ho; now injection Ho as <-.
  - intros o E; rewrite E in Ho; now injection Ho as <-.
  - intros E; rewrite E in Hb; now injection Hb as <-.
  - intros b E; rewrite E in Hb; now injection Hb as <-.
Qed.

(** X7, on an entry that names its owner and leaves the branch out. *)
Lemma new_Repo_fields_witness :
  exists r,
    new_Repo (YMap [("title", YStr "Rpm"); ("name", YStr "pulp_rpm");
                    ("owner", YStr "acme")]) "content" = Ok r
    /\ owner r = "acme" /\ branch r = "main" /\ type r = Some "content".
Proof.
  eexists; split; [reflexivity |].
  destruct (@new_Repo_fields
              (YMap [("title", YStr "Rpm"); ("name", YStr "pulp_rpm");
                     ("owner", YStr "acme")]) "content" _ eq_refl)
    as (m & E & _ & _ & Hty & _ & _ & _ & Ho & Hb & _).
  injection E as <-.
  split; [apply Ho; reflexivity |]; split; [apply Hb; reflexivity | exact Hty].
Defined.

(** X8 — entries that [Repo(...)] rejects with [TypeError]: an entry that
    is not a mapping, an entry with a key outside the six keywords (a [type]
    key included), an entry without a title, and an entry with a title but
    without a name. *)
Theorem new_Repo_rejects (ty : string) :
  new_Repo YNone ty = Raise TypeError
  /\ (forall s, new_Repo (YStr s) ty = Raise TypeError)
  /\ (forall l, new_Repo (YSeq l) ty = Raise TypeError)
  /\ (forall m k, In k (dict_keys m) -> ~ In k entry_keywords ->
        new_Repo (YMap m) ty = Raise TypeError)
  /\ (forall m, dict_get "title" m = None ->
        new_Repo (YMap m) ty = Raise TypeError)
  /\ (forall m t, dict_get "title" m = Some (YStr t) ->
        dict_get "name" m = None ->
        new_Repo (YMap m) ty = Raise TypeError).
Proof.
  split; [reflexivity |]; split; [reflexivity |]; split; [reflexivity |].
  split; [| split].
  - intros m k Hk Hnot; cbn [new_Repo].
    destruct (existsb (String.eqb "type") (dict_keys m)) eqn:Et; [reflexivity |].
    destruct (forallb _ (dict_keys m)) eqn:Ef; [| reflexivity].
    exfalso; rewrite forallb_forall in Ef; specialize (Ef k Hk).
    apply existsb_exists in Ef as [k' [Hin E]]; apply String.eqb_eq in E; subst k'.
    unfold Repo_fields in Hin; unfold entry_keywords in Hnot; cbn [In] in *.
    destruct Hin as [<- | [<- | [<- | [<- | [<- | [<- | [<- | []]]]]]]];
      try (apply Hnot; auto 10; fail).
    apply dict_get_absent_keys in Et; now apply (dict_get_key _ _ Et).
  - intros m Ht; cbn [new_Repo].
    destruct (existsb (String.eqb "type") (dict_keys m)); [reflexivity |].
    destruct (forallb _ (dict_keys m)); [| reflexivity].
    unfold keyword at 1; rewrite Ht; reflexivity.
  - intros m t Ht Hn; cbn [new_Repo].
    destruct (existsb (String.eqb "type") (dict_keys m)); [reflexivity |].
    destruct (forallb _ (dict_keys m)); [| reflexivity].
    unfold keyword at 1; rewrite Ht; cbn [negb as_str bind].
    unfold keyword at 1; rewrite Hn; reflexivity.
Qed.

(** X8, on an entry that carries a [type] key and on one without a name. *)
Lemma new_Repo_rejects_witness :
  new_Repo (YMap [("title", YStr "Rpm"); ("name", YStr "pulp_rpm");
                  ("type", YStr "content")]) "content" = Raise TypeError
  /\ new_Repo (YMap [("title", YStr "Rpm")]) "content" = Raise TypeError.
Proof.
  split.
  - apply (proj1 (proj2 (proj2 (proj2 (new_Repo_rejects "content")))))
      with (k := "type"); [cbn; auto |].
    cbn; intros [H | [H | [H | [H | [H | [H | []]]]]]]; discriminate H.
  - apply (proj2 (proj2 (proj2 (proj2 (proj2 (new_Repo_rejects "content"))))))
      with (t := "Rpm"); reflexivity.
Defined.

Lemma new_Repo_type (e : yaml) (ty : string) (r : Repo) :
  new_Repo e ty = Ok r -> type r = Some ty.
Proof.
  intros H; destruct (new_Repo_Ok _ _ H) as (m & _ & _ & _ & _ & _ & _ & _ & Hty).
  exact Hty.
Qed.

Lemma Forall2_type (ty : string) (es : list yaml) (rs : list Repo) :
  Forall2 (fun e r => new_Repo e ty = Ok r) es rs ->
  Forall (fun r => type r = Some ty) rs.
Proof.
  induction 1 as [| e r es rs H _ IH]; constructor; [| exact IH].
  eapply new_Repo_type; eauto.
Qed.

(** X9 — a [Repos] loaded by [from_yaml]: the primary repository is built
    from the first entry of the [core] sequence alone, the content and the
    auxiliary repositories are built one per entry of their sections, in the
    order of the entries, and every repository carries the type of the
    section it comes from. *)
Theorem from_yaml_one_repo_per_entry (file : option yaml) (rs : Repos) :
  from_yaml file = Ok rs ->
  exists data m first more content_section content_entries
         other_section other_entries,
    file = Some (YMap data)
    /\ dict_get "repos" data = Some (YMap m)
    /\ dict_get "core" m = Some (YSeq (first :: more))
    /\ new_Repo first "core" = Ok (core_repo rs)
    /\ dict_get "content" m = Some content_section
    /\ yaml_iter content_section = Ok content_entries
    /\ Forall2 (fun e r => new_Repo e "content" = Ok r)
               content_entries (content_repos rs)
    /\ dict_get "other" m = Some other_section
    /\ yaml_iter other_section = Ok other_entries
    /\ Forall2 (fun e r => new_Repo e "other" = Ok r)
               other_entries (other_repos rs)
    /\ type (core_repo rs) = Some "core"
    /\ Forall (fun r => type r = Some "content") (content_repos rs)
    /\ Forall (fun r => type r = Some "other") (other_repos rs).
Proof.
  destruct file as [data |]; cbn [from_yaml]; [| discriminate].
  intros H.
  apply bind_Ok in H as [repos [Hrepos H]].
  apply bind_Ok in H as [core_list [Hcl H]].
  apply bind_Ok in H as [core_entry [Hce H]].
  apply bind_Ok in H as [core [Hcore H]].
  apply bind_Ok in H as [content_list [Hcontent H]].
  apply bind_Ok in H as [content_entries [Hces H]].
  apply bind_Ok in H as [content [Hcs H]].
  apply bind_Ok in H as [other_list [Hother H]].
  apply bind_Ok in H as [other_entries [Hoes H]].
  apply bind_Ok in H as [other [Hos H]].
  injection H as <-; cbn [core_repo content_repos other_repos].
  destruct data as [| s | l | d]; cbn [yaml_item] in Hrepos; try discriminate.
  unfold dict_item in Hrepos.
  destruct (dict_get "repos" d) as [y |] eqn:Ed; [| discriminate].
  injection Hrepos as ->.
  destruct repos as [| s | l | m]; cbn [yaml_item] in Hcl, Hcontent, Hother;
    try discriminate.
  unfold dict_item in Hcl, Hcontent, Hother.
  destruct (dict_get "core" m) as [y |] eqn:Ec; [| discriminate].
  injection Hcl as ->.
  destruct (dict_get "content" m) as [y |] eqn:Ect; [| discriminate].
  injection Hcontent as ->.
  destruct (dict_get "other" m) as [y |] eqn:Eo; [| discriminate].
  injection Hother as ->.
  assert (Hseq : exists more, core_list = YSeq (core_entry :: more)).
  { destruct core_list as [| s | l | cm]; cbn [yaml_first] in Hce;
      try discriminate.
    - destruct s; [discriminate |]; injection Hce as <-; discriminate Hcore.
    - destruct l as [| x l]; [discriminate |]; injection Hce as ->; eauto. }
  destruct Hseq as [more ->].
  apply mapM_Forall2 in Hcs, Hos.
  exists d, m, core_entry, more, content_list, content_entries,
    other_list, other_entries.
  repeat split; auto.
  - eapply new_Repo_type; eauto.
  - eapply Forall2_type; eauto.
  - eapply Forall2_type; eauto.
Qed.

(** X9, on a repolist with two [core] entries. *)
Lemma from_yaml_one_repo_per_entry_witness :
  exists rs,
    from_yaml (Some Fixtures.full_repolist) = Ok rs
    /\ name (core_repo rs) = "pulpcore"
    /\ map name (content_repos rs) = ["pulp_rpm"; "pulp_deb"]
    /\ map owner (content_repos rs) = ["acme"; "pulp"]
    /\ Forall (fun r => type r = Some "content") (content_repos rs).
Proof.
  eexists; split; [reflexivity |].
  split; [reflexivity |]; split; [reflexivity |]; split; [reflexivity |].
  destruct (@from_yaml_one_repo_per_entry (Some Fixtures.full_repolist) _ eq_refl)
    as (data & m & first & more & cs & ces & os & oes & H).
  apply H.
Defined.

(** X10 — [from_yaml] needs the [repos] mapping and all of its three
    sections: each missing key raises [KeyError] for that key, in the order
    [repos], [core], [content], [other], the later ones once the entries
    before them have been accepted. *)
Theorem from_yaml_requires_sections (data m : dict yaml) :
  (dict_get "repos" data = None ->
   from_yaml (Some (YMap data)) = Raise (KeyError "repos"))
  /\ (dict_get "repos" data = Some (YMap m) ->
      (dict_get "core" m = None ->
       from_yaml (Some (YMap data)) = Raise (KeyError "core"))
      /\ forall first more primary,
           dict_get "core" m = Some (YSeq (first :: more)) ->
           new_Repo first "core" = Ok primary ->
           (dict_get "content" m = None ->
            from_yaml (Some (YMap data)) = Raise (KeyError "content"))
           /\ forall entries content,
                dict_get "content" m = Some (YSeq entries) ->
                mapM (fun e => new_Repo e "content") entries = Ok content ->
                dict_get "other" m = None ->
                from_yaml (Some (YMap data)) = Raise (KeyError "other")).
Proof.
  split.
  - intros H; cbn [from_yaml yaml_item]; unfold dict_item; now rewrite H.
  - intros Hr; split.
    + intros H; cbn [from_yaml yaml_item]; unfold dict_item.
      rewrite Hr; cbn [bind yaml_item]; unfold dict_item; now rewrite H.
    + intros first more primary Hc Hp; split.
      * intros H; cbn [from_yaml yaml_item]; unfold dict_item.
        rewrite Hr; cbn [bind yaml_item]; unfold dict_item.
        rewrite Hc; cbn [bind yaml_first]; rewrite Hp; cbn [bind].
        now rewrite H.
      * intros entries content Hct Hm Ho; cbn [from_yaml yaml_item].
        unfold dict_item; rewrite Hr; cbn [bind yaml_item]; unfold dict_item.
        rewrite Hc; cbn [bind yaml_first]; rewrite Hp; cbn [bind].
        rewrite Hct; cbn [bind yaml_iter]; rewrite Hm; cbn [bind].
        now rewrite Ho.
Qed.

(** X10, on a repolist with the [core] and [content] sections only. *)
Lemma from_yaml_requires_sections_witness :
  from_yaml (Some Fixtures.two_section_repolist) = Raise (KeyError "other").
Proof.
  pose proof (@from_yaml_requires_sections
                [("repos",
                  YMap [("core", YSeq [entry ("Pulp Core", "pulpcore")]);
                        ("content", YSeq [entry ("Rpm", "pulp_rpm")])])]
                [("core", YSeq [entry ("Pulp Core", "pulpcore")]);
                 ("content", YSeq [entry ("Rpm", "pulp_rpm")])]) as [_ H].
  destruct (H eq_refl) as [_ H'].
  destruct (H' _ _ _ eq_refl eq_refl) as [_ H''].
  exact (H'' _ _ eq_refl eq_refl eq_refl).
Defined.

(* ================================================================== *)
(** * Further properties: selection and grouping without expansion *)

Section GroupingFacts.

Lemma forallb_false_split {A : Type} (f : A -> bool) (l : list A) :
  forallb f l = false ->
  exists pre bad post,
    l = pre ++ bad :: post /\ forallb f pre = true /\ f bad = false.
Proof.
  induction l as [| x l IH]; cbn [forallb]; [discriminate |].
  destruct (f x) eqn:Hx; cbn [andb]; intros H.
  - destruct (IH H) as (pre & bad & post & -> & Hpre & Hbad).
    exists (x :: pre), bad, post; cbn [forallb app]; rewrite Hx; auto.
  - exists [], x, l; auto.
Qed.

(** A loop keeps what every one of its steps keeps. *)
Lemma foldM_invariant {A S : Type} (step : S -> A -> result S) (P : S -> Prop)
    (l : list A) (s d : S) :
  (forall acc x acc', In x l -> P acc -> step acc x = Ok acc' -> P acc') ->
  P s -> foldM step l s = Ok d -> P d.
Proof.
  revert s; induction l as [| x l IH]; intros s Hstep Hs H; cbn [foldM] in H.
  - now injection H as <-.
  - apply bind_Ok in H as [s' [Hx H]].
    apply (IH s'); auto.
    + intros acc y acc' Hy; apply Hstep; right; exact Hy.
    + eapply Hstep; eauto; left; reflexivity.
Qed.

Lemma foldM_total {A S : Type} (step : S -> A -> result S) (l : list A) (s : S) :
  (forall acc x, In x l -> exists acc', step acc x = Ok acc') ->
  exists d, foldM step l s = Ok d.
Proof.
  revert s; induction l as [| x l IH]; intros s H; cbn [foldM]; [eauto |].
  destruct (H s x (or_introl eq_refl)) as [s' ->]; cbn [bind].
  apply IH; intros acc y Hy; apply H; right; exact Hy.
Qed.

Lemma dict_set_fresh {V : Type} (k : string) (v : V) (d : dict V) :
  dict_get k d = None -> dict_set k v d = d ++ [(k, v)].
Proof.
  induction d as [| [k' v'] d IH]; cbn [dict_get dict_set app]; [reflexivity |].
  destruct (k' =? k)%string; [discriminate |].
  intros H; now rewrite IH.
Qed.

Lemma dict_get_app {V : Type} (k : string) (d1 d2 : dict V) :
  dict_get k (d1 ++ d2)
  = match dict_get k d1 with Some v => Some v | None => dict_get k d2 end.
Proof.
  induction d1 as [| [k' v'] d1 IH]; cbn [dict_get app]; [reflexivity |].
  destruct (k' =? k)%string; [reflexivity | exact IH].
Qed.

Lemma dict_get_set_cases {V : Type} (k k' : string) (v v' : V) (d : dict V) :
  dict_get k (dict_set k' v d) = Some v' ->
  (k = k' /\ v' = v) \/ (k <> k' /\ dict_get k d = Some v').
Proof.
  destruct (String.eqb_spec k k') as [-> | Hne].
  - rewrite dict_get_set_same; intros H; injection H as <-; auto.
  - rewrite dict_get_set_other by exact Hne; auto.
Qed.

Variable scandir : FileSystem.
Variable self : AgregationUtils.
Variable template_str : string.

Lemma group_repo_discover (acc : dict nav) (repo : Repo) :
  group_repo scandir self template_str acc repo
  = (found <- discover_simple scandir self template_str repo ;;
     match found with
     | [] => Ok acc
     | _ :: _ => Ok (dict_set (title repo) (files found) acc)
     end).
Proof.
  unfold group_repo, discover_simple.
  destruct (format template_str _); reflexivity.
Qed.

Lemma simple_entries_absent (selected : list Repo) (found : list (list string))
    (t : string) :
  ~ In t (map title selected) ->
  dict_get t (simple_entries (combine selected found)) = None.
Proof.
  revert found; induction selected as [| r selected IH]; intros [| rc found] Hn;
    try reflexivity.
  cbn [map In] in Hn.
  unfold simple_entries; cbn [combine filter snd].
  destruct rc; cbn [map dict_get fst snd].
  - apply IH; tauto.
  - destruct (String.eqb_spec (title r) t); [tauto | apply IH; tauto].
Qed.

Lemma simple_entries_lookup (selected : list Repo) (found : list (list string))
    (r : Repo) (rc : list string) :
  NoDup (map title selected) ->
  In (r, rc) (combine selected found) ->
  dict_get (title r) (simple_entries (combine selected found))
  = match rc with [] => None | _ :: _ => Some (files rc) end.
Proof.
  revert found; induction selected as [| a selected IH]; intros [| f found] Hnd Hin;
    try contradiction.
  cbn [map] in Hnd; inversion Hnd as [| ? ? Hnot Hnd']; subst.
  cbn [combine In] in Hin.
  unfold simple_entries; cbn [combine filter snd].
  destruct Hin as [E | Hin].
  - injection E as -> ->.
    destruct rc; cbn [map dict_get fst snd].
    + now apply simple_entries_absent.
    + now rewrite String.eqb_refl.
  - assert (Hne : title a <> title r).
    { intros E; apply Hnot; rewrite E.
      apply in_map, (in_combine_l _ _ _ _ Hin). }
    destruct f; cbn [map dict_get fst snd].
    + now apply IH.
    + destruct (String.eqb_spec (title a) (title r)); [contradiction |].
      now apply IH.
Qed.

Lemma simple_fold (selected : list Repo) (found : list (list string))
    (acc : dict nav) :
  mapM (discover_simple scandir self template_str) selected = Ok found ->
  NoDup (map title selected) ->
  (forall r, In r selected -> dict_get (title r) acc = None) ->
  foldM (group_repo scandir self template_str) selected acc
  = Ok (acc ++ simple_entries (combine selected found)).
Proof.
  revert found acc; induction selected as [| r selected IH];
    intros found acc Hm Hnd Hfresh; cbn [mapM] in Hm.
  - injection Hm as <-; cbn; now rewrite app_nil_r.
  - apply bind_Ok in Hm as [rc [Hrc Hm]]; apply bind_Ok in Hm as [rest [Hrest Hm]].
    injection Hm as <-.
    cbn [map] in Hnd; inversion Hnd as [| ? ? Hnot Hnd']; subst.
    cbn [foldM]; rewrite group_repo_discover, Hrc; cbn [bind].
    unfold simple_entries; cbn [combine filter snd].
    destruct rc as [| x rc]; cbn [bind map fst snd].
    + apply IH; auto.
      intros r' Hr'; apply Hfresh; right; exact Hr'.
    + rewrite (dict_set_fresh _ _ _ (Hfresh r (or_introl eq_refl))).
      rewrite (IH rest (acc ++ [(title r, files (x :: rc))]) Hrest Hnd').
      * unfold simple_entries; now rewrite <- app_assoc.
      * intros r' Hr'; rewrite dict_get_app.
        rewrite (Hfresh r' (or_intror Hr')); cbn [dict_get].
        destruct (String.eqb_spec (title r) (title r')) as [E |]; [| reflexivity].
        exfalso; apply Hnot; rewrite E; now apply in_map.
Qed.

End GroupingFacts.

(** X11 — the repositories [repo_grouping] works on. Without [repo_types],
    or with the empty list, they are [all], primary first. With a list of
    types that are [content] or [other] they are the named lists one after
    the other, in the order given and once per mention, so the primary
    repository is not among them unless it is also a content or auxiliary
    repository; with any other type the selection fails. *)
Theorem select_repos_selection
    (self : AgregationUtils) (types : list string) (selected : list Repo) :
  select_repos self None = Ok (all (repos self))
  /\ select_repos self (Some []) = Ok (all (repos self))
  /\ (types <> [] ->
      select_repos self (Some types) = Ok selected ->
      forallb known_type types = true
      /\ selected = flat_map (bucket (repos self)) types
      /\ forall r, In r selected ->
           In r (content_repos (repos self)) \/ In r (other_repos (repos self))).
Proof.
  split; [reflexivity |]; split; [reflexivity |].
  intros Hne Hsel; rewrite select_repos_nonempty in Hsel by exact Hne.
  destruct (forallb known_type types) eqn:Hk.
  - rewrite select_fold_known in Hsel by exact Hk.
    injection Hsel as <-; split; [reflexivity |]; split; [reflexivity |].
    intros r Hr; apply in_flat_map in Hr as [t [_ Hr]].
    unfold bucket in Hr; destruct (t =? "content")%string; auto.
  - destruct (forallb_false_split _ _ Hk) as (pre & bad & post & -> & Hpre & Hbad).
    rewrite select_fold_unknown in Hsel by assumption; discriminate.
Qed.

(** X11, at the fixture: [other] then [content]. *)
Lemma select_repos_selection_witness :
  select_repos Fixtures.utils (Some ["other"; "content"])
  = Ok [Fixtures.oci; Fixtures.rpm; Fixtures.deb]
  /\ forall r, In r [Fixtures.oci; Fixtures.rpm; Fixtures.deb] ->
       In r (content_repos Fixtures.fixture_repos)
       \/ In r (other_repos Fixtures.fixture_repos).
Proof.
  split; [reflexivity |].
  destruct (select_repos_selection Fixtures.utils ["other"; "content"]
              [Fixtures.oci; Fixtures.rpm; Fixtures.deb]) as (_ & _ & H).
  destruct H as (_ & _ & H); [discriminate | reflexivity | exact H].
Defined.

(** X12 — grouping without content-type expansion (no [{content}] in the
    template), for selected repositories with distinct titles whose
    discovery succeeds: the result holds, in the order of the selection, one
    entry per repository that has files, its title mapped to the list
    discovered for it; a repository without files has no key. *)
Theorem simple_grouping_entries
    (scandir : FileSystem) (self : AgregationUtils) (template_str : string)
    (repo_types content_types : option (list string))
    (selected : list Repo) (found : list (list string)) :
  contains "{content}" template_str = false ->
  select_repos self repo_types = Ok selected ->
  NoDup (map title selected) ->
  mapM (discover_simple scandir self template_str) selected = Ok found ->
  exists _nav,
    repo_grouping scandir self template_str repo_types content_types = Ok _nav
    /\ _nav = simple_entries (combine selected found)
    /\ (forall r rc, In (r, rc) (combine selected found) ->
          dict_get (title r) _nav
          = match rc with [] => None | _ :: _ => Some (files rc) end)
    /\ (forall t, ~ In t (map title selected) -> dict_get t _nav = None).
Proof.
  intros Hc Hsel Hnd Hm.
  exists (simple_entries (combine selected found)).
  split; [| split; [reflexivity | split]].
  - unfold repo_grouping; rewrite Hc, Hsel; cbn [negb bind].
    now rewrite (simple_fold scandir self template_str selected [] Hm Hnd).
  - intros r rc Hin; now apply simple_entries_lookup.
  - intros t Ht; now apply simple_entries_absent.
Qed.

(** X12, at the fixture: of the two content repositories only [pulp_rpm]
    has user guides. *)
Lemma simple_grouping_entries_witness :
  repo_grouping Fixtures.tree Fixtures.utils "{repo}/docs/{user}/guides"
    (Some ["content"]) None
  = Ok [("Rpm", NList [NStr "pulp_rpm/docs/user/guides/quickstart.md";
                       NStr "pulp_rpm/docs/user/guides/x.md"])].
Proof.
  destruct (@simple_grouping_entries Fixtures.tree Fixtures.utils
              "{repo}/docs/{user}/guides" (Some ["content"]) None
              [Fixtures.rpm; Fixtures.deb]
              [["pulp_rpm/docs/user/guides/quickstart.md";
                "pulp_rpm/docs/user/guides/x.md"]; []])
    as [_nav (H & -> & _)];
    [reflexivity | reflexivity | | reflexivity | exact H].
  repeat constructor; cbn; intuition discriminate.
Defined.

(* ================================================================== *)
(** * Further properties: what expansion stores *)

Section ShapeFacts.

Variable types : list string.

Lemma shape_set_quickstart (inner : dict nav) (c q : string) :
  inner_shape types inner ->
  In c types -> lower c = "tutorials" -> is_quickstart q = true ->
  inner_shape types (dict_set "Quickstart" (NStr q) inner).
Proof.
  intros Hs Hc Hl Hq k v Hget.
  apply dict_get_set_cases in Hget as [[-> ->] | [_ Hget]]; [| now apply Hs].
  left; split; [reflexivity |]; split; eauto.
Qed.

Lemma shape_set_files (inner : dict nav) (c label : string) (l : list string) :
  inner_shape types inner ->
  In c types -> dict_get c DISPLAY_NAMES = Some label -> l <> [] ->
  inner_shape types (dict_set label (files l) inner).
Proof.
  intros Hs Hc Hd Hl k v Hget.
  apply dict_get_set_cases in Hget as [[-> ->] | [_ Hget]]; [| now apply Hs].
  right; exists c, l; auto.
Qed.

Lemma store_keeps_shape (inner inner' : dict nav) (c : string)
    (discovered : list string) :
  In c types ->
  inner_shape types inner ->
  store_content_type inner c discovered = Ok inner' ->
  inner_shape types inner'.
Proof.
  intros Hc Hs; unfold store_content_type.
  assert (Hfiles : forall mid rest,
             inner_shape types mid ->
             match rest with
             | [] => Ok mid
             | _ :: _ =>
                 content_type_name <- dict_item c DISPLAY_NAMES ;;
                 Ok (dict_set content_type_name (files rest) mid)
             end = Ok inner' ->
             inner_shape types inner').
  { intros mid [| x rest] Hmid H; [now injection H as <- |].
    unfold dict_item in H.
    destruct (dict_get c DISPLAY_NAMES) as [label |] eqn:Ed; [| discriminate].
    cbn [bind] in H; injection H as <-.
    eapply shape_set_files; eauto; discriminate. }
  destruct (find is_quickstart discovered) as [q |] eqn:Hf.
  - destruct (pop_quickstart_found _ Hf) as (before & after & _ & _ & Hq & ->).
    cbn [bind fst snd]; apply Hfiles.
    destruct ((lower c =? "tutorials")%string && truthy (Some q)) eqn:Hb;
      [| exact Hs].
    apply andb_true_iff in Hb as [Hl _]; apply String.eqb_eq in Hl.
    eapply shape_set_quickstart; eauto.
  - rewrite (pop_quickstart_none _ Hf); cbn [bind fst snd]; now apply Hfiles.
Qed.

End ShapeFacts.

Lemma content_fold_shape (scandir : FileSystem) (self : AgregationUtils)
    (template_str : string) (repo : Repo) (types : list string)
    (inner : dict nav) :
  foldM (group_content_type scandir self template_str repo) types [] = Ok inner ->
  inner_shape types inner.
Proof.
  apply (foldM_invariant (group_content_type scandir self template_str repo)
           (inner_shape types)).
  - intros acc c acc' Hc Hacc Hstep.
    unfold group_content_type in Hstep.
    apply bind_Ok in Hstep as [dc [_ Hst]].
    eapply store_keeps_shape; eauto.
  - intros k v H; discriminate H.
Qed.

(** X13 — what content-type expansion stores under a repository. Every
    value of the result is a mapping, and every entry of that mapping is
    either a quickstart file under [Quickstart], there only when a requested
    content type reads [tutorials] in lower case, or a non-empty list of
    files under the display name of a requested content type: there is no
    other key and no empty list. *)
Theorem expanded_inner_shape
    (scandir : FileSystem) (self : AgregationUtils) (template_str : string)
    (repo_types content_types : option (list string)) (_nav : dict nav) :
  contains "{content}" template_str = true ->
  repo_grouping scandir self template_str repo_types content_types = Ok _nav ->
  forall t v, dict_get t _nav = Some v ->
    exists inner,
      v = NDict inner /\ inner_shape (select_content content_types) inner.
Proof.
  intros Hc H t v Hget.
  rewrite repo_grouping_expanded in H by exact Hc.
  apply bind_Ok in H as [selected [_ H]].
  destruct (keyed_fold_origin title _ _ _ _ H Hget) as [Hnil | [r (_ & _ & Hv)]];
    [discriminate |].
  unfold expanded_value in Hv; apply bind_Ok in Hv as [inner [Hfold Hv]].
  injection Hv as <-; exists inner; split; [reflexivity |].
  eapply content_fold_shape; eauto.
Qed.

(** X13, at the fixture. *)
Lemma expanded_inner_shape_witness :
  exists inner,
    inner_shape ["tutorials"; "guides"; "learn"] inner
    /\ dict_get "Tutorials" inner
       = Some (NList [NStr "pulp_rpm/docs/user/tutorials/advanced.md";
                      NStr "pulp_rpm/docs/user/tutorials/intro.md"]).
Proof.
  destruct (@expanded_inner_shape Fixtures.tree Fixtures.utils
              "{repo}/docs/user/{content}" (Some ["content"]) None
              [("Rpm",
                NDict [("Quickstart",
                        NStr "pulp_rpm/docs/user/tutorials/quickstart.md");
                       ("Tutorials",
                        NList [NStr "pulp_rpm/docs/user/tutorials/advanced.md";
                               NStr "pulp_rpm/docs/user/tutorials/intro.md"]);
                       ("How-to", NList [NStr "pulp_rpm/docs/user/guides/x.md"])]);
               ("Deb", NDict [])]
              eq_refl eq_refl "Rpm" _ eq_refl) as [inner [E Hs]].
  exists inner; split; [exact Hs |].
  injection E as <-; reflexivity.
Defined.

(** X14 — a content type without a display name, for a repository whose
    discovered list holds no quickstart file: the step of [repo_grouping]
    raises [KeyError] for the content type when files were discovered, and
    changes nothing when none was. *)
Theorem unknown_content_type
    (scandir : FileSystem) (self : AgregationUtils) (template_str : string)
    (repo : Repo) (inner : dict nav) (c : string) (discovered : list string) :
  known_content c = false ->
  discover scandir self template_str repo c = Ok discovered ->
  find is_quickstart discovered = None ->
  group_content_type scandir self template_str repo inner c
  = match discovered with
    | [] => Ok inner
    | _ :: _ => Raise (KeyError c)
    end.
Proof.
  intros Hk Hd Hf; unfold group_content_type; rewrite Hd; cbn [bind].
  unfold store_content_type; rewrite (pop_quickstart_none _ Hf); cbn [bind fst snd].
  destruct discovered; [reflexivity |].
  unfold known_content in Hk; unfold dict_item.
  destruct (dict_get c DISPLAY_NAMES); [discriminate | reflexivity].
Qed.

(** X14, on the content type [guide] of the docstring of [repo_grouping]. *)
Lemma unknown_content_type_witness :
  group_content_type Fixtures.singular_tree Fixtures.utils
    "{repo}/docs/dev/{content}" Fixtures.rpm [] "guide"
  = Raise (KeyError "guide")
  /\ group_content_type Fixtures.singular_tree Fixtures.utils
       "{repo}/docs/dev/{content}" Fixtures.deb [] "guide"
     = Ok [].
Proof.
  split.
  - rewrite (@unknown_content_type Fixtures.singular_tree Fixtures.utils
               "{repo}/docs/dev/{content}" Fixtures.rpm [] "guide"
               ["pulp_rpm/docs/dev/guide/x.md"]); reflexivity.
  - rewrite (@unknown_content_type Fixtures.singular_tree Fixtures.utils
               "{repo}/docs/dev/{content}" Fixtures.deb [] "guide" []);
      reflexivity.
Defined.

(* ================================================================== *)
(** * Further properties: order and the two builders *)

Lemma keyed_fold_keys {A V : Type} (key : A -> string) (value : A -> result V)
    (l : list A) (acc d : dict V) :
  NoDup (map key l) ->
  (forall x, In x l -> dict_get (key x) acc = None) ->
  foldM (keyed_step key value) l acc = Ok d ->
  dict_keys d = dict_keys acc ++ map key l.
Proof.
  revert acc; induction l as [| a l IH]; intros acc Hnd Hfresh H.
  - cbn in H; injection H as <-; cbn; now rewrite app_nil_r.
  - apply keyed_fold_cons in H as [v [_ H]].
    cbn [map] in Hnd; inversion Hnd as [| ? ? Hnot Hnd']; subst.
    rewrite (dict_set_fresh _ _ _ (Hfresh a (or_introl eq_refl))) in H.
    assert (Hfresh' : forall x, In x l ->
                        dict_get (key x) (acc ++ [(key a, v)]) = None).
    { intros x Hx; rewrite dict_get_app, (Hfresh x (or_intror Hx)).
      cbn [dict_get].
      destruct (String.eqb_spec (key a) (key x)) as [E |]; [| reflexivity].
      exfalso; apply Hnot; rewrite E; now apply in_map. }
    rewrite (IH _ Hnd' Hfresh' H).
    unfold dict_keys; rewrite map_app; cbn [map fst app].
    now rewrite <- app_assoc.
Qed.

Lemma reference_grouping_keys (scandir : FileSystem) (self : AgregationUtils) :
  Forall (fun r => slug (name r) = true) (all (repos self)) ->
  NoDup (map title (all (repos self))) ->
  exists _nav,
    repo_reference_grouping scandir self = Ok _nav
    /\ dict_keys _nav = map title (all (repos self)).
Proof.
  intros Hs Hnd.
  destruct (@repo_reference_grouping_total scandir self Hs) as [_nav H].
  exists _nav; split; [exact H |].
  rewrite repo_reference_grouping_fold in H.
  now rewrite (@keyed_fold_keys _ _ title _ _ [] _ Hnd (fun _ _ => eq_refl) H).
Qed.

(** X15 — the order of the reference grouping: for repositories with
    distinct titles and plain names, the keys of the result are the titles
    of [all] in its order, the primary repository first, then the content
    repositories, then the auxiliary ones. *)
Theorem reference_grouping_order (scandir : FileSystem) (self : AgregationUtils) :
  Forall (fun r => slug (name r) = true) (all (repos self)) ->
  NoDup (map title (all (repos self))) ->
  exists _nav,
    repo_reference_grouping scandir self = Ok _nav
    /\ dict_keys _nav
       = title (core_repo (repos self))
         :: map title (content_repos (repos self))
         ++ map title (other_repos (repos self)).
Proof.
  intros Hs Hnd.
  destruct (reference_grouping_keys scandir self Hs Hnd) as [_nav [H Hk]].
  exists _nav; split; [exact H |].
  rewrite Hk; unfold all; cbn [app map]; now rewrite map_app.
Qed.

(** X15, at the fixture. *)
Lemma reference_grouping_order_witness :
  exists _nav,
    repo_reference_grouping Fixtures.tree Fixtures.utils = Ok _nav
    /\ dict_keys _nav = ["Pulp Core"; "Rpm"; "Deb"; "OCI"].
Proof.
  apply (reference_grouping_order Fixtures.tree Fixtures.utils).
  - repeat constructor.
  - repeat constructor; cbn; intuition discriminate.
Defined.

Section Builders.

Variable scandir : FileSystem.
Variable self : AgregationUtils.

Lemma grouping_keys_selected (template_str ty : string) (_nav : dict nav)
    (k : string) :
  contains "{content}" template_str = true ->
  known_type ty = true ->
  repo_grouping scandir self template_str (Some [ty]) None = Ok _nav ->
  In k (dict_keys _nav) ->
  exists r, In r (bucket (repos self) ty) /\ title r = k.
Proof.
  intros Hc Hty H Hk.
  rewrite repo_grouping_expanded in H by exact Hc.
  cbn [select_repos] in H.
  rewrite (select_fold_known (repos self) [ty] []) in H
    by (cbn; now rewrite Hty).
  cbn [bind app flat_map] in H; rewrite app_nil_r in H.
  destruct (dict_key_get _ _ Hk) as [v Hget].
  destruct (keyed_fold_origin title _ _ _ _ H Hget) as [Hnil | [r (Hr & Ht & _)]];
    [discriminate | eauto].
Qed.

Hypothesis slugs : Forall (fun r => slug (name r) = true) (all (repos self)).

Lemma simple_grouping_total (template_str rest : string) :
  contains "{content}" template_str = false ->
  (forall n, format template_str
               [("repo", n); ("admin", ADMIN_NAME); ("user", USER_NAME)]
             = Ok (n ++ rest)%string) ->
  exists _nav, repo_grouping scandir self template_str None None = Ok _nav.
Proof.
  intros Hc Hf; unfold repo_grouping; rewrite Hc; cbn [negb select_repos bind].
  apply foldM_total; intros acc r Hr.
  rewrite Forall_forall in slugs.
  unfold group_repo; rewrite Hf; cbn [bind].
  rewrite (get_children_under scandir self
             (joinpath_under (tmpdir self) _
                (slug_relative _ rest (slugs r Hr)))).
  cbn [bind]; destruct (sorted _); eauto.
Qed.

Lemma section_children_total (s : string) :
  exists l, section_children scandir self s = Ok l.
Proof.
  unfold section_children; apply get_children_relative_total; reflexivity.
Qed.

Lemma grouped_by_persona_total :
  exists tree, grouped_by_persona scandir self = Ok tree.
Proof.
  destruct (get_children_relative_total scandir self
              "pulpcore/docs/user/tutorials" eq_refl) as [ut Hut].
  destruct (get_children_relative_total scandir self
              "pulpcore/docs/user/learn" eq_refl) as [ul Hul].
  destruct (get_children_relative_total scandir self
              "pulpcore/docs/user/guides" eq_refl) as [ug Hug].
  destruct (get_children_relative_total scandir self
              "pulpcore/docs/admin/tutorials" eq_refl) as [at_ Hat].
  destruct (get_children_relative_total scandir self
              "pulpcore/docs/admin/learn" eq_refl) as [al Hal].
  destruct (get_children_relative_total scandir self
              "pulpcore/docs/admin/guides" eq_refl) as [ag Hag].
  destruct (get_children_relative_total scandir self
              "pulpcore/docs/dev/tutorials" eq_refl) as [dt Hdt].
  destruct (get_children_relative_total scandir self
              "pulpcore/docs/dev/learn" eq_refl) as [dl Hdl].
  destruct (get_children_relative_total scandir self
              "pulpcore/docs/dev/guides" eq_refl) as [dg Hdg].
  destruct (@builder_grouping_total scandir self slugs "user" "content")
    as [up Hup]; [cbn; auto | reflexivity |].
  destruct (@builder_grouping_total scandir self slugs "user" "other")
    as [ue Hue]; [cbn; auto | reflexivity |].
  destruct (@builder_grouping_total scandir self slugs "admin" "content")
    as [ap Hap]; [cbn; auto | reflexivity |].
  destruct (@builder_grouping_total scandir self slugs "admin" "other")
    as [ae Hae]; [cbn; auto | reflexivity |].
  destruct (@builder_grouping_total scandir self slugs "dev" "content")
    as [dp Hdp]; [cbn; auto | reflexivity |].
  destruct (@builder_grouping_total scandir self slugs "dev" "other")
    as [de Hde]; [cbn; auto | reflexivity |].
  destruct (@repo_reference_grouping_total scandir self slugs) as [refs Hrefs].
  cbn [append] in Hup, Hue, Hap, Hae, Hdp, Hde.
  unfold grouped_by_persona; cbv zeta.
  rewrite Hut, Hul, Hug, Hup, Hue, Hat, Hal, Hag, Hap, Hae, Hrefs,
    Hdt, Hdl, Hdg, Hdp, Hde.
  cbn [bind]; eauto.
Qed.

Lemma grouped_by_content_type_total :
  exists tree, grouped_by_content_type scandir self = Ok tree.
Proof.
  destruct (section_children_total "getting_started/quickstart") as [q Hq].
  destruct (section_children_total "getting_started/fundamentals") as [fu Hfu].
  destruct (simple_grouping_total "{repo}/docs/{user}/guides" "/docs/user/guides"
              eq_refl (fun _ => eq_refl)) as [gu Hgu].
  destruct (simple_grouping_total "{repo}/docs/{admin}/guides" "/docs/admin/guides"
              eq_refl (fun _ => eq_refl)) as [ga Hga].
  destruct (simple_grouping_total "{repo}/docs/{user}/learn" "/docs/user/learn"
              eq_refl (fun _ => eq_refl)) as [lu Hlu].
  destruct (simple_grouping_total "{repo}/docs/{admin}/learn" "/docs/admin/learn"
              eq_refl (fun _ => eq_refl)) as [la Hla].
  destruct (@repo_reference_grouping_total scandir self slugs) as [refs Hrefs].
  destruct (section_children_total "development/quickstart/") as [dq Hdq].
  destruct (section_children_total "development/onboarding/") as [dob Hdo].
  destruct (section_children_total "/development/guides/") as [dg Hdg].
  unfold grouped_by_content_type; cbv zeta.
  rewrite Hq, Hfu, Hgu, Hga, Hlu, Hla, Hrefs, Hdq, Hdo, Hdg.
  cbn [bind]; eauto.
Qed.

End Builders.

Ltac invert_binds H :=
  repeat (let x := fresh "part" in
          let Hx := fresh "Hpart" in
          apply bind_Ok in H as [x [Hx H]]).

(** X16 — the two builders, for repositories with plain names: both
    return; the persona build has the top-level titles [Home],
    [User Manual], [Admin Manual], [Development], [Reference], [Help] and
    the content-type build has [Home], [Getting Started], [Guides], [Learn],
    [Reference], [Development], in these orders; [Home] is [index.md] in
    both, and the [Reference] section is the same in both, its
    [Repositories] entry being the result of [repo_reference_grouping]. *)
Theorem builders_layout (scandir : FileSystem) (self : AgregationUtils) :
  Forall (fun r => slug (name r) = true) (all (repos self)) ->
  exists by_persona by_content refs,
    grouped_by_persona scandir self = Ok by_persona
    /\ grouped_by_content_type scandir self = Ok by_content
    /\ repo_reference_grouping scandir self = Ok refs
    /\ top_titles by_persona
       = ["Home"; "User Manual"; "Admin Manual"; "Development"; "Reference";
          "Help"]
    /\ top_titles by_content
       = ["Home"; "Getting Started"; "Guides"; "Learn"; "Reference";
          "Development"]
    /\ child "Home" by_persona = Some (NStr "index.md")
    /\ child "Home" by_content = Some (NStr "index.md")
    /\ child "Reference" by_persona = child "Reference" by_content
    /\ descend ["Reference"; "Repositories"] by_content = Some (NDict refs).
Proof.
  intros Hs.
  destruct (@grouped_by_persona_total scandir self Hs) as [p Hp].
  destruct (@grouped_by_content_type_total scandir self Hs) as [c Hc].
  exists p, c.
  pose proof Hp as Hp'; pose proof Hc as Hc'.
  unfold grouped_by_persona in Hp'; cbv zeta in Hp'; invert_binds Hp'.
  unfold grouped_by_content_type in Hc'; cbv zeta in Hc'; invert_binds Hc'.
  injection Hp' as <-; injection Hc' as <-.
  match goal with
  | H1 : repo_reference_grouping _ _ = Ok ?a,
    H2 : repo_reference_grouping _ _ = Ok ?b |- _ =>
      assert (a = b) by congruence; subst a; exists b
  end.
  repeat split; assumption.
Qed.

(** X16, at the fixture. *)
Lemma builders_layout_witness :
  exists by_content,
    grouped_by_content_type Fixtures.tree Fixtures.utils = Ok by_content
    /\ top_titles by_content
       = ["Home"; "Getting Started"; "Guides"; "Learn"; "Reference";
          "Development"].
Proof.
  destruct (builders_layout Fixtures.tree Fixtures.utils)
    as (p & c & refs & _ & Hc & _ & _ & Ht & _); [repeat constructor |].
  exists c; split; assumption.
Defined.

(** X17 — in the persona build, under each of [User Manual],
    [Admin Manual] and [Development], the keys of [Plugins] are titles of
    content repositories and the keys of [Extras] are titles of auxiliary
    repositories: the primary repository is listed there only under a title
    it shares with one of them. *)
Theorem plugins_and_extras_keys
    (scandir : FileSystem) (self : AgregationUtils) (tree : nav) :
  grouped_by_persona scandir self = Ok tree ->
  forall manual, In manual ["User Manual"; "Admin Manual"; "Development"] ->
    exists plugins extras,
      descend [manual; "Plugins"] tree = Some (NDict plugins)
      /\ descend [manual; "Extras"] tree = Some (NDict extras)
      /\ (forall k, In k (dict_keys plugins) ->
            exists r, In r (content_repos (repos self)) /\ title r = k)
      /\ (forall k, In k (dict_keys extras) ->
            exists r, In r (other_repos (repos self)) /\ title r = k).
Proof.
  intros H manual Hm.
  unfold grouped_by_persona in H; cbv zeta in H; invert_binds H.
  injection H as <-.
  destruct Hm as [<- | [<- | [<- | []]]];
    (do 2 eexists; split; [reflexivity |]; split; [reflexivity |]; split;
     intros k Hk;
     match goal with
     | Hg : repo_grouping _ _ ?t (Some [?ty]) None = Ok ?d |- _ =>
         match type of Hk with
         | In _ (dict_keys d) =>
             exact (@grouping_keys_selected scandir self t ty d k
                      eq_refl eq_refl Hg Hk)
         end
     end).
Qed.

(** X17, at the fixture. *)
Lemma plugins_and_extras_keys_witness :
  exists tree plugins,
    grouped_by_persona Fixtures.tree Fixtures.utils = Ok tree
    /\ descend ["User Manual"; "Plugins"] tree = Some (NDict plugins)
    /\ forall k, In k (dict_keys plugins) ->
         exists r, In r [Fixtures.rpm; Fixtures.deb] /\ title r = k.
Proof.
  assert (E : exists t, grouped_by_persona Fixtures.tree Fixtures.utils = Ok t)
    by (eexists; vm_compute; reflexivity).
  destruct E as [t E].
  destruct (plugins_and_extras_keys Fixtures.tree Fixtures.utils E
              (manual := "User Manual") (or_introl eq_refl))
    as (plugins & extras & H1 & _ & H3 & _).
  exists t, plugins; auto.
Defined.

Lemma from_yaml_repolist (primary : string * string)
    (more content other : list (string * string)) :
  from_yaml (Some (repolist (primary :: more) content other))
  = Ok (mkRepos (repo_of "core" primary)
                (map (repo_of "content") content)
                (map (repo_of "other") other)).
Proof.
  assert (Hmap : forall ty l,
             mapM (fun e => new_Repo e ty) (map entry l) = Ok (map (repo_of ty) l)).
  { intros ty l; rewrite (mapM_total _ (fun e =>
        match e with
        | YMap [(_, YStr n); (_, YStr t)] => repo_of ty (t, n)
        | _ => repo_of ty ("", "")
        end)).
    - rewrite map_map; f_equal; apply map_ext; intros [t n]; reflexivity.
    - intros e He; apply in_map_iff in He as [[t n] [<- _]]; reflexivity. }
  unfold from_yaml, repolist; cbn [yaml_item dict_item dict_get String.eqb
    Ascii.eqb Bool.eqb bind map yaml_first yaml_iter].
  rewrite new_Repo_entry; cbn [bind].
  rewrite !Hmap; reflexivity.
Qed.

(** X18 — from the repolist to the navigation: for a repolist of titles and
    names in which the titles are distinct and the names plain, loading it
    and grouping the references gives the keys in the order of the file, the
    first [core] entry, then the [content] entries, then the [other]
    entries; further [core] entries leave no trace. *)
Theorem repolist_order_in_navigation
    (scandir : FileSystem) (root : Path) (primary : string * string)
    (more content other : list (string * string)) :
  Forall (fun tn => slug (snd tn) = true) (primary :: content ++ other) ->
  NoDup (map fst (primary :: content ++ other)) ->
  exists rs _nav,
    from_yaml (Some (repolist (primary :: more) content other)) = Ok rs
    /\ map name (all rs) = map snd (primary :: content ++ other)
    /\ repo_reference_grouping scandir (mkUtils root rs) = Ok _nav
    /\ dict_keys _nav = map fst (primary :: content ++ other).
Proof.
  intros Hs Hnd.
  set (rs := mkRepos (repo_of "core" primary)
                     (map (repo_of "content") content)
                     (map (repo_of "other") other)).
  assert (Hnames : map name (all rs) = map snd (primary :: content ++ other)).
  { unfold all, rs; cbn [core_repo content_repos other_repos app map name repo_of].
    now rewrite !map_app, !map_map. }
  assert (Htitles : map title (all rs) = map fst (primary :: content ++ other)).
  { unfold all, rs; cbn [core_repo content_repos other_repos app map title repo_of].
    now rewrite !map_app, !map_map. }
  destruct (reference_grouping_keys scandir (mkUtils root rs)) as [_nav [H Hk]].
  - cbn [repos]; apply Forall_forall; intros r Hr.
    assert (Hin : In (name r) (map name (all rs))) by now apply in_map.
    rewrite Hnames in Hin; apply in_map_iff in Hin as [tn [E Htn]].
    rewrite Forall_forall in Hs; rewrite <- E; now apply Hs.
  - cbn [repos]; now rewrite Htitles.
  - exists rs, _nav; split; [apply from_yaml_repolist |].
    split; [exact Hnames |]; split; [exact H |].
    rewrite Hk; exact Htitles.
Qed.

(** X18, on a repolist with two [core] entries. *)
Lemma repolist_order_in_navigation_witness :
  exists rs _nav,
    from_yaml (Some (repolist [("Pulp Core", "pulpcore"); ("Second", "second")]
                              [("Rpm", "pulp_rpm"); ("Deb", "pulp_deb")]
                              [("OCI", "oci_env")])) = Ok rs
    /\ repo_reference_grouping Fixtures.tree (mkUtils Fixtures.docs_root rs)
       = Ok _nav
    /\ dict_keys _nav = ["Pulp Core"; "Rpm"; "Deb"; "OCI"].
Proof.
  destruct (@repolist_order_in_navigation Fixtures.tree Fixtures.docs_root
              ("Pulp Core", "pulpcore") [("Second", "second")]
              [("Rpm", "pulp_rpm"); ("Deb", "pulp_deb")] [("OCI", "oci_env")])
    as (rs & _nav & H1 & _ & H3 & H4).
  - repeat constructor.
  - repeat constructor; cbn; intuition discriminate.
  - exists rs, _nav; auto.
Defined.

(* ================================================================== *)
(** * Quickstart extraction, from the directory to the mapping *)

Section NameFacts.

Lemma remove_first_split {A : Type} (f : A -> bool) (before after : list A)
    (q : A) :
  Forall (fun y => f y = false) before -> f q = true ->
  remove_first f (before ++ q :: after) = before ++ after.
Proof.
  intros Hb Hq; induction Hb as [| y before Hy _ IH]; cbn [app remove_first].
  - now rewrite Hq.
  - now rewrite Hy, IH.
Qed.

Lemma find_map_same {A B : Type} (f : B -> bool) (g : A -> B) (h : A -> bool)
    (l : list A) :
  (forall x, f (g x) = h x) ->
  find f (map g l) = option_map g (find h l).
Proof.
  intros H; induction l as [| x l IH]; cbn [map find]; [reflexivity |].
  rewrite H; destruct (h x); [reflexivity | exact IH].
Qed.

Lemma remove_first_map {A B : Type} (f : B -> bool) (g : A -> B) (h : A -> bool)
    (l : list A) :
  (forall x, f (g x) = h x) ->
  remove_first f (map g l) = map g (remove_first h l).
Proof.
  intros H; induction l as [| x l IH]; cbn [map remove_first]; [reflexivity |].
  rewrite H; destruct (h x); cbn [map]; [reflexivity | now rewrite IH].
Qed.

Lemma insert_sorted_prefix (pfx x : string) (l : list string) :
  insert_sorted (pfx ++ x) (map (append pfx) l)
  = map (append pfx) (insert_sorted x l).
Proof.
  induction l as [| y l IH]; cbn [map insert_sorted]; [reflexivity |].
  rewrite leb_append_head; destruct (String.leb x y); cbn [map];
    [reflexivity | now rewrite IH].
Qed.

Lemma sorted_prefix (pfx : string) (l : list string) :
  sorted (map (append pfx) l) = map (append pfx) (sorted l).
Proof.
  induction l as [| x l IH]; cbn [map sorted]; [reflexivity |].
  now rewrite IH, insert_sorted_prefix.
Qed.

(** A relative child path is a prefix that ends the directory part, then the
    name: the quickstart test sees the name alone. *)
Lemma relative_child_view (rel : list string) :
  exists pfx,
    (forall n, relative_child rel n = (pfx ++ n)%string)
    /\ (forall n, is_quickstart (pfx ++ n) = is_quickstart n).
Proof.
  unfold relative_child, PurePath.str; simpl.
  induction rel as [| a rel [pfx [IH1 IH2]]].
  - exists ""; split; intros n; reflexivity.
  - exists (a ++ "/" ++ pfx)%string; split; intros n.
    + specialize (IH1 n); simpl in *.
      destruct (rel ++ [n]) as [| b l] eqn:E;
        [destruct rel; discriminate |].
      unfold join in *; simpl.
      rewrite IH1, !append_assoc; reflexivity.
    + rewrite append_assoc.
      change (("/" ++ pfx) ++ n)%string with ("/" ++ (pfx ++ n))%string.
      unfold is_quickstart at 1; rewrite last_segment_app.
      exact (IH2 n).
Qed.

(** The discovered paths, in terms of the sorted visible names. *)
Lemma names_view (rel : list string) (names : list string) :
  sorted (map (relative_child rel) names)
  = map (relative_child rel) (sorted names)
  /\ (forall l, find is_quickstart (map (relative_child rel) l)
                = option_map (relative_child rel) (find is_quickstart l))
  /\ (forall l, remove_first is_quickstart (map (relative_child rel) l)
                = map (relative_child rel) (remove_first is_quickstart l)).
Proof.
  destruct (relative_child_view rel) as [pfx [H1 H2]].
  assert (Hq : forall n, is_quickstart (relative_child rel n) = is_quickstart n)
    by (intros n; now rewrite H1).
  split; [| split].
  - rewrite !(map_ext _ _ H1); apply sorted_prefix.
  - intros l; now apply find_map_same.
  - intros l; now apply remove_first_map.
Qed.

Lemma store_tutorials_none (discovered : list string) :
  find is_quickstart discovered = None ->
  forall inner,
    store_content_type inner "tutorials" discovered
    = Ok match discovered with
         | [] => inner
         | _ :: _ => dict_set "Tutorials" (files discovered) inner
         end.
Proof.
  intros H inner; unfold store_content_type.
  rewrite (pop_quickstart_none _ H); cbn [bind fst snd].
  destruct discovered; reflexivity.
Qed.

Variable scandir : FileSystem.
Variable self : AgregationUtils.
Variable template_str : string.

(** Without a quickstart file among the tutorials no [Quickstart] key
    appears, and [Tutorials] holds the discovered list. *)
Lemma content_fold_plain (repo : Repo) (discovered : list string)
    (types : list string) (inner inner' : dict nav) (seen : bool) :
  discover scandir self template_str repo "tutorials" = Ok discovered ->
  find is_quickstart discovered = None ->
  forallb known_content types = true ->
  foldM (group_content_type scandir self template_str repo) types inner
  = Ok inner' ->
  plain discovered seen inner ->
  plain discovered (seen || existsb (String.eqb "tutorials") types) inner'.
Proof.
  intros Hd Hf; revert inner seen.
  induction types as [| c types IH]; intros inner seen Hk Hfold Hinv.
  - cbn in Hfold; injection Hfold as <-; cbn [existsb]; now rewrite orb_false_r.
  - cbn [forallb] in Hk; apply andb_true_iff in Hk as [Hc Hk].
    cbn [foldM] in Hfold; apply bind_Ok in Hfold as [inner1 [Hstep Hrest]].
    unfold group_content_type in Hstep.
    apply bind_Ok in Hstep as [dc [Hdc Hst]].
    cbn [existsb]; rewrite orb_assoc.
    apply (IH inner1 _ Hk Hrest).
    destruct Hinv as [HQ HT]; unfold plain.
    destruct (String.eqb_spec "tutorials" c) as [<- | Hne].
    + rewrite Hd in Hdc; injection Hdc as <-.
      rewrite store_tutorials_none in Hst by exact Hf; injection Hst as <-.
      rewrite orb_true_r.
      destruct discovered as [| x l]; cbn [tutorials_entry].
      * split; [exact HQ |]; rewrite HT; now destruct seen.
      * rewrite dict_get_set_other by discriminate.
        now rewrite dict_get_set_same.
    + rewrite orb_false_r.
      destruct (store_other_content inner dc Hc (fun E => Hne (eq_sym E)))
        as [inner1' [E Hkeep]].
      rewrite E in Hst; injection Hst as ->.
      destruct (Hkeep "Quickstart" (or_introl eq_refl)) as [GQ _].
      destruct (Hkeep "Tutorials" (or_intror eq_refl)) as [GT _].
      split; congruence.
Qed.

End NameFacts.

(** C2 (as the code has it) — quickstart extraction in [repo_grouping]
    with a [{content}] template, for a selected repository (the only one
    with its title), content types that have a display name, [tutorials]
    among them, and discovery succeeding. The call returns. When the
    discovered tutorials list holds a file named, in any letter case,
    [quickstart.md] or [quick-start.md], the first such file is recorded
    under [Quickstart], [Tutorials] holds exactly the other files in the
    order of the sorted discovered list (no [Tutorials] key when none is
    left), and [Quickstart] comes before [Tutorials]; when it holds none,
    there is no [Quickstart] key. The discovered list is made of the names of
    the directory that end in [.md], written so, and do not begin with an
    underscore, sorted: a directory holding [intro.md], [quickstart.md],
    [advanced.md] gives [Quickstart] = [quickstart.md] and [Tutorials] =
    [advanced.md], [intro.md], and so do [quick-start.md] and
    [QuickStart.md] in its place; [QuickStart.MD] is not discovered, and is
    neither under [Quickstart] nor under [Tutorials]. *)
Theorem quickstart_extraction
    (scandir : FileSystem) (self : AgregationUtils) (template_str : string)
    (repo_types content_types : option (list string))
    (selected : list Repo) (repo : Repo) (discovered : list string) :
  contains "{content}" template_str = true ->
  select_repos self repo_types = Ok selected ->
  forallb known_content (select_content content_types) = true ->
  (forall r c, In r selected -> In c (select_content content_types) ->
     is_ok (discover scandir self template_str r c) = true) ->
  In repo selected ->
  (forall r, In r selected -> title r = title repo -> r = repo) ->
  In "tutorials" (select_content content_types) ->
  discover scandir self template_str repo "tutorials" = Ok discovered ->
  exists _nav inner,
    repo_grouping scandir self template_str repo_types content_types = Ok _nav
    /\ dict_get (title repo) _nav = Some (NDict inner)
    /\ ascending discovered
    /\ (forall quickstart,
          find is_quickstart discovered = Some quickstart ->
          exists before after,
            discovered = before ++ quickstart :: after
            /\ Forall (fun p => is_quickstart p = false) before
            /\ is_quickstart quickstart = true
            /\ dict_get "Quickstart" inner = Some (NStr quickstart)
            /\ dict_get "Tutorials" inner = tutorials_entry (before ++ after)
            /\ (before ++ after <> [] -> quickstart_first inner)
            /\ ascending (before ++ after))
    /\ (find is_quickstart discovered = None ->
          dict_get "Quickstart" inner = None
          /\ dict_get "Tutorials" inner = tutorials_entry discovered)
    /\ (forall formatted rel,
          format template_str
            [("repo", name repo); ("admin", ADMIN_NAME); ("user", USER_NAME);
             ("content", "tutorials")] = Ok formatted ->
          under (lookup_dir self formatted) (tmpdir self) rel ->
          discovered
          = map (relative_child rel)
                (found_names scandir (lookup_dir self formatted))
          /\ match find is_quickstart
                     (found_names scandir (lookup_dir self formatted)) with
             | Some n =>
                 dict_get "Quickstart" inner = Some (NStr (relative_child rel n))
                 /\ dict_get "Tutorials" inner
                    = tutorials_entry
                        (map (relative_child rel)
                           (remove_first is_quickstart
                              (found_names scandir (lookup_dir self formatted))))
             | None =>
                 dict_get "Quickstart" inner = None
                 /\ dict_get "Tutorials" inner
                    = tutorials_entry
                        (map (relative_child rel)
                           (found_names scandir (lookup_dir self formatted)))
             end
          /\ (forall q,
                In q ["quickstart.md"; "quick-start.md"; "QuickStart.md"] ->
                entries scandir (lookup_dir self formatted)
                = ["intro.md"; q; "advanced.md"] ->
                dict_get "Quickstart" inner = Some (NStr (relative_child rel q))
                /\ dict_get "Tutorials" inner
                   = Some (files [relative_child rel "advanced.md";
                                  relative_child rel "intro.md"]))
          /\ (entries scandir (lookup_dir self formatted)
              = ["intro.md"; "QuickStart.MD"; "advanced.md"] ->
              dict_get "Quickstart" inner = None
              /\ dict_get "Tutorials" inner
                 = Some (files [relative_child rel "advanced.md";
                                relative_child rel "intro.md"]))).
Proof.
  intros Hexp Hsel Hknown Hdisc Hin Huniq Htut Hd.
  rewrite (repo_grouping_expanded scandir self template_str repo_types
             content_types Hexp), Hsel; cbn [bind].
  set (types := select_content content_types) in *.
  destruct (keyed_fold_total title
              (expanded_value scandir self template_str types) selected [])
    as [_nav Hnav].
  { intros r Hr; unfold expanded_value.
    destruct (content_fold_total scandir self template_str r types [] Hknown)
      as [inner ->]; [intros c Hc; now apply Hdisc | cbn [bind]; eauto]. }
  destruct (keyed_fold_get title _ _ _ Hnav Hin Huniq) as [v [Hv Hget]].
  unfold expanded_value in Hv; apply bind_Ok in Hv as [inner [Hfold Hv]].
  injection Hv as <-.
  exists _nav, inner.
  assert (Hasc : ascending discovered).
  { unfold discover in Hd; apply bind_Ok in Hd as [formatted [_ Hd]].
    eapply get_children_ascending; exact Hd. }
  assert (HA : forall quickstart,
             find is_quickstart discovered = Some quickstart ->
             exists before after,
               discovered = before ++ quickstart :: after
               /\ Forall (fun p => is_quickstart p = false) before
               /\ is_quickstart quickstart = true
               /\ dict_get "Quickstart" inner = Some (NStr quickstart)
               /\ dict_get "Tutorials" inner = tutorials_entry (before ++ after)
               /\ (before ++ after <> [] -> quickstart_first inner)
               /\ ascending (before ++ after)).
  { intros quickstart Hfind.
    destruct (store_tutorials discovered Hfind)
      as (before & after & E & Hb & Hstore).
    destruct (find_split _ _ Hfind) as (_ & _ & _ & _ & Hq).
    exists before, after.
    assert (Hasc' : ascending (before ++ after))
      by (rewrite E in Hasc; eapply ascending_remove; exact Hasc).
    destruct (content_fold_extracted scandir self template_str repo
                (q := quickstart) (remaining := before ++ after)
                types Hd Hstore Hknown Hfold)
      as [(HQ & HT & Hord) | (_ & _ & Hnot)];
      [left; split; reflexivity | repeat split; auto | contradiction]. }
  assert (HB : find is_quickstart discovered = None ->
               dict_get "Quickstart" inner = None
               /\ dict_get "Tutorials" inner = tutorials_entry discovered).
  { intros Hnone.
    assert (Hstart : plain discovered false (@nil (string * nav)))
      by (split; reflexivity).
    pose proof (@content_fold_plain scandir self template_str repo discovered
                  types [] inner false Hd Hnone Hknown Hfold Hstart)
      as [HQ HT].
    assert (Hex : existsb (String.eqb "tutorials") types = true)
      by (apply existsb_exists; exists "tutorials"; split;
          [exact Htut | reflexivity]).
    rewrite Hex in HT; cbn [orb] in HT; auto. }
  split; [exact Hnav |]; split; [exact Hget |]; split; [exact Hasc |].
  split; [exact HA |]; split; [exact HB |].
  intros formatted rel Hformat Hu.
  destruct (names_view rel (filter visible
                              (entries scandir (lookup_dir self formatted))))
    as (Hsorted & Hfindm & Hremove).
  assert (Hlist : discovered
                  = map (relative_child rel)
                        (found_names scandir (lookup_dir self formatted))).
  { unfold discover in Hd; rewrite Hformat in Hd; cbn [bind] in Hd.
    fold (lookup_dir self formatted) in Hd.
    rewrite (get_children_under scandir self Hu) in Hd.
    injection Hd as <-; exact Hsorted. }
  assert (Hmatch :
            match find is_quickstart
                    (found_names scandir (lookup_dir self formatted)) with
            | Some n =>
                dict_get "Quickstart" inner = Some (NStr (relative_child rel n))
                /\ dict_get "Tutorials" inner
                   = tutorials_entry
                       (map (relative_child rel)
                          (remove_first is_quickstart
                             (found_names scandir (lookup_dir self formatted))))
            | None =>
                dict_get "Quickstart" inner = None
                /\ dict_get "Tutorials" inner
                   = tutorials_entry
                       (map (relative_child rel)
                          (found_names scandir (lookup_dir self formatted)))
            end).
  { pose proof (Hfindm (found_names scandir (lookup_dir self formatted)))
      as Hfm; rewrite <- Hlist in Hfm.
    destruct (find is_quickstart
                (found_names scandir (lookup_dir self formatted))) as [n |];
      cbn [option_map] in Hfm.
    - destruct (HA _ Hfm) as (before & after & E & Hb & Hq & HQ & HT & _).
      split; [exact HQ |].
      rewrite HT, <- Hremove, <- Hlist, E.
      now rewrite remove_first_split.
    - rewrite <- Hlist; now apply HB. }
  split; [exact Hlist |]; split; [exact Hmatch |]; split.
  - intros q Hq Hnames; unfold found_names in Hmatch; rewrite Hnames in Hmatch.
    destruct Hq as [<- | [<- | [<- | []]]].
    + change (sorted (filter visible ["intro.md"; "quickstart.md"; "advanced.md"]))
        with ["advanced.md"; "intro.md"; "quickstart.md"] in Hmatch.
      exact Hmatch.
    + change (sorted (filter visible ["intro.md"; "quick-start.md"; "advanced.md"]))
        with ["advanced.md"; "intro.md"; "quick-start.md"] in Hmatch.
      exact Hmatch.
    + change (sorted (filter visible ["intro.md"; "QuickStart.md"; "advanced.md"]))
        with ["QuickStart.md"; "advanced.md"; "intro.md"] in Hmatch.
      exact Hmatch.
  - intros Hnames; unfold found_names in Hmatch; rewrite Hnames in Hmatch.
    change (sorted (filter visible ["intro.md"; "QuickStart.MD"; "advanced.md"]))
      with ["advanced.md"; "intro.md"] in Hmatch.
    exact Hmatch.
Qed.

(** C2, at the fixture: the user tutorials of [pulp_rpm] hold [intro.md],
    [quickstart.md], [advanced.md], a draft and a text file. *)
Lemma quickstart_extraction_witness :
  exists _nav inner,
    repo_grouping Fixtures.tree Fixtures.utils "{repo}/docs/user/{content}"
      (Some ["content"]) None = Ok _nav
    /\ dict_get "Rpm" _nav = Some (NDict inner)
    /\ dict_get "Quickstart" inner
       = Some (NStr "pulp_rpm/docs/user/tutorials/quickstart.md")
    /\ dict_get "Tutorials" inner
       = Some (NList [NStr "pulp_rpm/docs/user/tutorials/advanced.md";
                      NStr "pulp_rpm/docs/user/tutorials/intro.md"])
    /\ quickstart_first inner.
Proof.
  destruct (@quickstart_extraction Fixtures.tree Fixtures.utils
              "{repo}/docs/user/{content}" (Some ["content"]) None
              [Fixtures.rpm; Fixtures.deb] Fixtures.rpm
              ["pulp_rpm/docs/user/tutorials/advanced.md";
               "pulp_rpm/docs/user/tutorials/intro.md";
               "pulp_rpm/docs/user/tutorials/quickstart.md"])
    as (_nav & inner & Hnav & Hget & _ & HA & _ & HC).
  - reflexivity.
  - reflexivity.
  - reflexivity.
  - intros r c [<- | [<- | []]] [<- | [<- | [<- | []]]]; reflexivity.
  - left; reflexivity.
  - intros r [<- | [<- | []]] Ht; [reflexivity | discriminate Ht].
  - left; reflexivity.
  - reflexivity.
  - exists _nav, inner.
    destruct (HC "pulp_rpm/docs/user/tutorials"
                 ["pulp_rpm"; "docs"; "user"; "tutorials"])
      as (_ & Hm & _); [reflexivity | split; reflexivity |].
    change (found_names Fixtures.tree
              (lookup_dir Fixtures.utils "pulp_rpm/docs/user/tutorials"))
      with ["advanced.md"; "intro.md"; "quickstart.md"] in Hm.
    destruct Hm as [HQ HT].
    assert (HT' : dict_get "Tutorials" inner
                  = Some (NList [NStr "pulp_rpm/docs/user/tutorials/advanced.md";
                                 NStr "pulp_rpm/docs/user/tutorials/intro.md"]))
      by exact HT.
    destruct (HA "pulp_rpm/docs/user/tutorials/quickstart.md" eq_refl)
      as (before & after & _ & _ & _ & _ & Hrest & Hord & _).
    split; [exact Hnav |]; split; [exact Hget |]; split; [exact HQ |].
    split; [exact HT' |].
    apply Hord; intros Hnil; rewrite Hnil, HT' in Hrest; discriminate Hrest.
Defined.

(** The claim's examples against the code: with the quickstart file written
    [QuickStart.MD], a name [_pop_quickstart_from] would take, the file is
    not discovered and the repository gets no [Quickstart] key; and with
    [intro.md], [quickstart.md], [advanced.md] in the directory,
    [Tutorials] is [advanced.md], [intro.md], the sorted order, not
    [intro.md], [advanced.md]. *)
Lemma quickstart_upper_case_extension_not_extracted :
  entries Fixtures.upper_tree
    (lookup_dir Fixtures.utils "pulp_rpm/docs/user/tutorials")
  = ["intro.md"; "QuickStart.MD"; "advanced.md"]
  /\ is_quickstart "pulp_rpm/docs/user/tutorials/QuickStart.MD" = true
  /\ discover Fixtures.upper_tree Fixtures.utils "{repo}/docs/user/{content}"
       Fixtures.rpm "tutorials"
     = Ok ["pulp_rpm/docs/user/tutorials/advanced.md";
           "pulp_rpm/docs/user/tutorials/intro.md"]
  /\ repo_grouping Fixtures.upper_tree Fixtures.utils
       "{repo}/docs/user/{content}" (Some ["content"]) None
     = Ok [("Rpm",
            NDict [("Tutorials",
                    NList [NStr "pulp_rpm/docs/user/tutorials/advanced.md";
                           NStr "pulp_rpm/docs/user/tutorials/intro.md"])]);
           ("Deb", NDict [])]
  /\ repo_grouping Fixtures.tree Fixtures.utils
       "{repo}/docs/user/{content}" (Some ["content"]) (Some ["tutorials"])
     = Ok [("Rpm",
            NDict [("Quickstart",
                    NStr "pulp_rpm/docs/user/tutorials/quickstart.md");
                   ("Tutorials",
                    NList [NStr "pulp_rpm/docs/user/tutorials/advanced.md";
                           NStr "pulp_rpm/docs/user/tutorials/intro.md"])]);
           ("Deb", NDict [])].
Proof.
  split; [reflexivity |]; split; [reflexivity |]; split; [reflexivity |].
  split; reflexivity.
Qed.
